(** * tc.py: triggering TeamCity builds from the command line

    A shallow embedding of [tc.py] and of the fragments of the Python
    libraries it calls ([str.format], [argparse], [urllib.parse.urljoin],
    [requests]), followed by the properties of the program.

    The libraries are modelled as CPython 3.11 has them; a dictionary keeps
    the order in which its keys were inserted.  Python strings are modelled
    as [string] (byte strings); every character the program itself inspects
    is ASCII. *)

From Stdlib Require Import String Ascii List ZArith Bool Lia.
Import ListNotations.

Open Scope list_scope.
Open Scope string_scope.

(** ** Characters and strings *)

(** The line feed and the double quote, by their character codes. *)
Definition nl : string := String "010" "".
Definition dq : string := String "034" "".

(** [quoted s] is [s] between double quotes, as the templates write their
    attribute values. *)
Definition quoted (s : string) : string := dq ++ s ++ dq.

Definition is_upper (c : ascii) : bool :=
  (65 <=? nat_of_ascii c)%nat && (nat_of_ascii c <=? 90)%nat.

Definition lower_char (c : ascii) : ascii :=
  if is_upper c then ascii_of_nat (nat_of_ascii c + 32) else c.

(** [str.lower()] on ASCII text. *)
Fixpoint lower (s : string) : string :=
  match s with
  | "" => ""
  | String c s' => String (lower_char c) (lower s')
  end.

(** [c in s]. *)
Fixpoint contains_char (c : ascii) (s : string) : bool :=
  match s with
  | "" => false
  | String d s' => (d =? c)%char || contains_char c s'
  end.

(** ** Python values and exceptions *)

(** The values an [argparse] namespace of this program holds and that the
    templates format: [None], booleans and strings. *)
Inductive argval : Type :=
| ANone
| ABool (b : bool)
| AStr (s : string).

(** [str(v)], which is also [format(v, '')] for these three types. *)
Definition str (v : argval) : string :=
  match v with
  | ANone => "None"
  | ABool true => "True"
  | ABool false => "False"
  | AStr s => s
  end.

Inductive exn : Type :=
| SystemExit (code : Z)
| KeyError
| IndexError
| ValueError
| TypeError
| AttributeError
| RequestException.

(** The outcome of a computation that may raise. *)
Inductive result (A : Type) : Type :=
| Return (a : A)
| Raise (e : exn).

Arguments Return {A} a.
Arguments Raise {A} e.

Definition rbind {A B : Type} (r : result A) (k : A -> result B) : result B :=
  match r with
  | Return a => k a
  | Raise e => Raise e
  end.

Declare Scope result_scope.
Delimit Scope result_scope with result.
Notation "x <- r ;; k" := (rbind r (fun x => k))
  (at level 61, r at next level, right associativity) : result_scope.

(** ** [str.format] *)

Fixpoint kwarg (name : string) (kwargs : list (string * argval)) : result argval :=
  match kwargs with
  | [] => Raise KeyError
  | (k, v) :: rest => if (k =? name)%string then Return v else kwarg name rest
  end.

(** [format_from t field args kwargs] scans the template [t]; [field] is
    [Some n] while the scan is inside a replacement field whose name read so
    far is [n].  A doubled brace is a literal brace.  An empty field name
    takes the next positional argument, any other name is a keyword
    (the templates of this program use nothing else: no index, attribute,
    conversion or format specification). *)
Fixpoint format_from (t : string) (field : option string)
         (args : list argval) (kwargs : list (string * argval)) : result string :=
  match t with
  | "" =>
      match field with
      | None => Return ""
      | Some _ => Raise ValueError
      end
  | String c t' =>
      match field with
      | Some name =>
          if (c =? "}")%char then
            match name with
            | "" =>
                match args with
                | [] => Raise IndexError
                | v :: args' =>
                    (rest <- format_from t' None args' kwargs ;;
                     Return (str v ++ rest))%result
                end
            | _ =>
                (v <- kwarg name kwargs ;;
                 rest <- format_from t' None args kwargs ;;
                 Return (str v ++ rest))%result
            end
          else format_from t' (Some (name ++ String c "")) args kwargs
      | None =>
          if (c =? "{")%char then
            match t' with
            | String "{" t'' =>
                (rest <- format_from t'' None args kwargs ;;
                 Return (String "{" rest))%result
            | _ => format_from t' (Some "") args kwargs
            end
          else if (c =? "}")%char then
            match t' with
            | String "}" t'' =>
                (rest <- format_from t'' None args kwargs ;;
                 Return (String "}" rest))%result
            | _ => Raise ValueError
            end
          else
            (rest <- format_from t' None args kwargs ;;
             Return (String c rest))%result
      end
  end.

Definition format (t : string) (args : list argval)
           (kwargs : list (string * argval)) : result string :=
  format_from t None args kwargs.

(** ** Constants of the program *)

Definition _headers : list (string * string) :=
  [("Accept", "application/json"); ("Content-Type", "application/xml")].

Definition _requestbase : string :=
  nl ++
  "<build personal=" ++ quoted "{personal}" ++ " branchName=" ++ quoted "{branch}" ++ ">" ++ nl ++
  "  <buildType id=" ++ quoted "{buildid}" ++ "/>" ++ nl ++
  "  <comment><text>Triggered from CLI</text></comment>" ++ nl ++
  "  <properties>" ++ nl ++
  "    <property name=" ++ quoted "remote" ++ " value=" ++ quoted "{remote}" ++ "/>" ++ nl ++
  "    <property name=" ++ quoted "branch" ++ " value=" ++ quoted "{branch}" ++ "/>{props}" ++ nl ++
  "  </properties>" ++ nl ++
  "</build>" ++ nl.

Definition _requestpropertybase : string :=
  nl ++ "    <property name=" ++ quoted "{name}" ++ " value=" ++ quoted "{value}" ++ "/>".

Definition _neo4jlinux_id : string := "JonasHaRequests_Neo4jCustom".
Definition _har_id : string := "JonasHaRequests_HarBranchArtifacts".

Definition _linux_jdks : list string :=
  ["openjdk-8"; "openjdk-7"; "oracle-jdk-8"; "oracle-jdk-7"; "ibmjdk-8"; "ibmjdk-7"].

(** ** Dictionaries

    A [dict] with string keys, in insertion order: assigning to a key that is
    present keeps its position. *)
Definition dict : Type := list (string * argval).

Fixpoint dict_set (d : dict) (k : string) (v : argval) : dict :=
  match d with
  | [] => [(k, v)]
  | (k', v') :: rest =>
      if (k' =? k)%string then (k, v) :: rest else (k', v') :: dict_set rest k v
  end.

(** A dictionary display [{k1: v1, k2: v2, ...}]. *)
Definition dict_display (entries : list (string * argval)) : dict :=
  fold_left (fun d kv => dict_set d (fst kv) (snd kv)) entries [].

Definition items (d : dict) : list (string * argval) := d.

(** ** The request builder *)

Fixpoint dict_as_properties_loop (xml : string) (its : list (string * argval))
  : result string :=
  match its with
  | [] => Return xml
  | (k, v) :: rest =>
      (e <- format _requestpropertybase [] [("name", AStr k); ("value", v)] ;;
       dict_as_properties_loop (xml ++ e) rest)%result
  end.

Definition dict_as_properties (props : dict) : result string :=
  dict_as_properties_loop "" (items props).

Definition request_xml (buildid personal branch remote props : argval)
  : result string :=
  let props := match props with ANone => AStr "" | _ => props end in
  format _requestbase []
         [("buildid", buildid); ("remote", remote); ("branch", branch);
          ("props", props); ("personal", AStr (lower (str personal)))].

Definition tc_mvn_args (original : argval) : result string :=
  match original with
  | AStr s =>
      Return ("-DfailIfNoTests=false -Dmaven.test.failure.ignore=true --show-version " ++ s)
  | _ => Raise TypeError
  end.

(** ** String functions used by [urllib.parse] and [argparse] *)

(** [s.split(c, 1)] when [c in s]: the text before and after the first [c]. *)
Fixpoint split_first (c : ascii) (s : string) : option (string * string) :=
  match s with
  | "" => None
  | String d s' =>
      if (d =? c)%char then Some ("", s')
      else match split_first c s' with
           | Some (b, a) => Some (String d b, a)
           | None => None
           end
  end.

(** The text before and after the last [c] of [s]. *)
Fixpoint split_last (c : ascii) (s : string) : option (string * string) :=
  match s with
  | "" => None
  | String d s' =>
      match split_last c s' with
      | Some (b, a) => Some (String d b, a)
      | None => if (d =? c)%char then Some ("", s') else None
      end
  end.

(** [s.split(c)]. *)
Fixpoint split (c : ascii) (s : string) : list string :=
  match s with
  | "" => [""]
  | String d s' =>
      if (d =? c)%char then "" :: split c s'
      else match split c s' with
           | [] => [String d ""]
           | w :: ws => String d w :: ws
           end
  end.

(** [sep.join(l)]. *)
Fixpoint join (sep : string) (l : list string) : string :=
  match l with
  | [] => ""
  | [w] => w
  | w :: ws => w ++ sep ++ join sep ws
  end.

(** The longest prefix of [s] none of whose characters satisfies [stop], and
    the rest. *)
Fixpoint span_until (stop : ascii -> bool) (s : string) : string * string :=
  match s with
  | "" => ("", "")
  | String d s' =>
      if stop d then ("", s)
      else let (b, a) := span_until stop s' in (String d b, a)
  end.

Fixpoint lstrip (strip : ascii -> bool) (s : string) : string :=
  match s with
  | "" => ""
  | String d s' => if strip d then lstrip strip s' else s
  end.

Fixpoint string_rev (s : string) : string :=
  match s with
  | "" => ""
  | String d s' => string_rev s' ++ String d ""
  end.

Definition rstrip (strip : ascii -> bool) (s : string) : string :=
  string_rev (lstrip strip (string_rev s)).

Fixpoint string_filter (keep : ascii -> bool) (s : string) : string :=
  match s with
  | "" => ""
  | String d s' => if keep d then String d (string_filter keep s') else string_filter keep s'
  end.

Fixpoint string_forall (p : ascii -> bool) (s : string) : bool :=
  match s with
  | "" => true
  | String d s' => p d && string_forall p s'
  end.

(** [s.startswith(p)]. *)
Fixpoint startswith (s p : string) : bool :=
  match p with
  | "" => true
  | String a p' =>
      match s with
      | "" => false
      | String b s' => (a =? b)%char && startswith s' p'
      end
  end.

Definition mem_string (x : string) (l : list string) : bool :=
  existsb (String.eqb x) l.

(** ** [urllib.parse]: the classification of schemes and the character sets *)

Definition uses_relative : list string :=
  [""; "ftp"; "http"; "gopher"; "nntp"; "imap"; "wais"; "file"; "https";
   "shttp"; "mms"; "prospero"; "rtsp"; "rtspu"; "sftp"; "svn"; "svn+ssh";
   "ws"; "wss"].

Definition uses_netloc : list string :=
  [""; "ftp"; "http"; "gopher"; "nntp"; "telnet"; "imap"; "wais"; "file";
   "mms"; "https"; "shttp"; "snews"; "prospero"; "rtsp"; "rtspu"; "rsync";
   "svn"; "svn+ssh"; "sftp"; "nfs"; "git"; "git+ssh"; "ws"; "wss"].

Definition uses_params : list string :=
  [""; "ftp"; "hdl"; "prospero"; "http"; "imap"; "https"; "shttp"; "rtsp";
   "rtspu"; "sip"; "sips"; "mms"; "sftp"; "tel"].

Definition is_alpha (c : ascii) : bool :=
  let n := nat_of_ascii c in
  ((65 <=? n) && (n <=? 90) || (97 <=? n) && (n <=? 122))%nat.

Definition is_digit (c : ascii) : bool :=
  let n := nat_of_ascii c in ((48 <=? n) && (n <=? 57))%nat.

Definition is_ascii (c : ascii) : bool := (nat_of_ascii c <? 128)%nat.

Definition scheme_char (c : ascii) : bool :=
  is_alpha c || is_digit c || (c =? "+")%char || (c =? "-")%char || (c =? ".")%char.

(** The C0 control characters and the space. *)
Definition c0_control_or_space (c : ascii) : bool := (nat_of_ascii c <=? 32)%nat.

(** Tab, carriage return and line feed. *)
Definition unsafe_url_byte (c : ascii) : bool :=
  (c =? "009")%char || (c =? "013")%char || (c =? "010")%char.

Definition netloc_delimiter (c : ascii) : bool :=
  (c =? "/")%char || (c =? "?")%char || (c =? "#")%char.

(** ** [argparse]

    The parsers of the program are built from [add_argument] calls; the
    interpreter below follows [ArgumentParser.parse_args] for the features
    those parsers use: options taking one argument ([store]) or none
    ([store_true], [store_false], [help]), positionals taking one argument,
    mutually exclusive groups, [choices], [required], unique abbreviations
    of long options, [--opt=value] and [-oVALUE] forms, and [--]. *)

Inductive action_kind : Type := Store | StoreTrue | StoreFalse | Help.

Record action : Type := {
  option_strings : list string;     (* empty for a positional *)
  dest : option string;             (* [None]: the action stores nothing *)
  kind : action_kind;
  default : argval;
  required : bool;
  choices : option (list string)
}.

Record parser : Type := {
  actions : list action;
  mutually_exclusive_groups : list (list string);
  defaults : list (string * argval)
}.

(** An action is identified by its first option string, a positional by its
    destination. *)
Definition action_id (a : action) : string :=
  match option_strings a with
  | o :: _ => o
  | [] => match dest a with Some d => d | None => "" end
  end.

Definition is_long_option (o : string) : bool :=
  match o with
  | String "-" (String "-" (String _ _)) => true
  | _ => false
  end.

Fixpoint replace_char (c r : ascii) (s : string) : string :=
  match s with
  | "" => ""
  | String d s' => String (if (d =? c)%char then r else d) (replace_char c r s')
  end.

(** The destination [add_argument] infers: the first long option string, or
    else the first option string, without its leading dashes and with the
    other dashes turned into underscores; a positional is its own name. *)
Definition infer_dest (flags : list string) : string :=
  let o := match filter is_long_option flags with
           | l :: _ => l
           | [] => hd "" flags
           end in
  replace_char "-" "_" (lstrip (fun c => (c =? "-")%char) o).

Definition is_flag (o : string) : bool :=
  match o with
  | String c _ => (c =? "-")%char
  | "" => false
  end.

Definition add_argument (p : parser) (flags : list string) (dest : option string)
           (k : action_kind) (default : option argval) (required : bool)
           (choices : option (list string)) : parser :=
  let positional := negb (forallb is_flag flags) in
  let a := {| option_strings := if positional then [] else flags;
              dest := match k with
                      | Help => None
                      | _ => Some (match dest with Some d => d | None => infer_dest flags end)
                      end;
              kind := k;
              default := match default with
                         | Some v => v
                         | None => match k with
                                   | StoreTrue => ABool false
                                   | StoreFalse => ABool true
                                   | _ => ANone
                                   end
                         end;
              required := if positional then true else required;
              choices := choices |} in
  {| actions := (actions p ++ [a])%list;
     mutually_exclusive_groups := mutually_exclusive_groups p;
     defaults := defaults p |}.

(** [add_mutually_exclusive_group] followed by the [add_argument] calls on
    the group: [group] lists the members' first option strings. *)
Definition add_mutually_exclusive_group (p : parser) (group : list string) : parser :=
  {| actions := actions p;
     mutually_exclusive_groups := (mutually_exclusive_groups p ++ [group])%list;
     defaults := defaults p |}.

Definition set_default_of (kwargs : list (string * argval)) (a : action) : action :=
  match dest a with
  | None => a
  | Some d =>
      match find (fun kv => (fst kv =? d)%string) kwargs with
      | Some kv => {| option_strings := option_strings a; dest := dest a;
                      kind := kind a; default := snd kv;
                      required := required a; choices := choices a |}
      | None => a
      end
  end.

Definition set_defaults (p : parser) (kwargs : list (string * argval)) : parser :=
  {| actions := map (set_default_of kwargs) (actions p);
     mutually_exclusive_groups := mutually_exclusive_groups p;
     defaults := fold_left (fun d kv => dict_set d (fst kv) (snd kv)) kwargs (defaults p) |}.

Definition empty_parser : parser :=
  {| actions := []; mutually_exclusive_groups := []; defaults := [] |}.

(** [ArgumentParser(parents=..., add_help=...)]: the help option first, then
    the actions, groups and defaults of the parents. *)
Definition ArgumentParser (add_help : bool) (parents : list parser) : parser :=
  let base := if add_help
              then add_argument empty_parser ["-h"; "--help"] None Help None false None
              else empty_parser in
  fold_left (fun p parent =>
               {| actions := (actions p ++ actions parent)%list;
                  mutually_exclusive_groups :=
                    (mutually_exclusive_groups p ++ mutually_exclusive_groups parent)%list;
                  defaults := fold_left (fun d kv => dict_set d (fst kv) (snd kv))
                                        (defaults parent) (defaults p) |})
            parents base.

(** *** Classifying the argument strings *)

Definition option_string_actions (p : parser) : list (string * action) :=
  flat_map (fun a => map (fun o => (o, a)) (option_strings a)) (actions p).

Definition lookup_option (p : parser) (o : string) : option action :=
  match find (fun oa => (fst oa =? o)%string) (option_string_actions p) with
  | Some oa => Some (snd oa)
  | None => None
  end.

Definition get_option_tuples (p : parser) (s : string)
  : list (action * string * option string) :=
  match s with
  | String _ (String c1 rest) =>
      if (c1 =? "-")%char then
        let (option_prefix, explicit_arg) :=
          match split_first "=" s with
          | Some (b, a) => (b, Some a)
          | None => (s, None)
          end in
        flat_map (fun oa => if startswith (fst oa) option_prefix
                            then [(snd oa, fst oa, explicit_arg)] else [])
                 (option_string_actions p)
      else
        let short_option_prefix := String "-" (String c1 "") in
        flat_map (fun oa => if (fst oa =? short_option_prefix)%string
                            then [(snd oa, fst oa, Some rest)]
                            else if startswith (fst oa) s
                                 then [(snd oa, fst oa, None)] else [])
                 (option_string_actions p)
  | _ => []
  end.

Definition all_digits (s : string) : bool := string_forall is_digit s.

(** The pattern [^-\d+$|^-\d*\.\d+$] on ASCII text; [$] also matches before
    a final line feed. *)
Definition negative_number (s : string) : bool :=
  match s with
  | String "-" body =>
      let body := match split_last "010" body with
                  | Some (b, "") => b
                  | _ => body
                  end in
      (negb (body =? "")%string && all_digits body)
      || match split_first "." body with
         | Some (i, f) => all_digits i && negb (f =? "")%string && all_digits f
         | None => false
         end
  | _ => false
  end.

Inductive optional_parse : Type :=
| NotOptional
| Optional (a : option action) (option_string : string) (explicit_arg : option string)
| Ambiguous.

Definition parse_optional (p : parser) (arg_string : string) : optional_parse :=
  match arg_string with
  | "" => NotOptional
  | String c0 tail =>
      if negb (c0 =? "-")%char then NotOptional
      else
        match lookup_option p arg_string with
        | Some a => Optional (Some a) arg_string None
        | None =>
            if (tail =? "")%string then NotOptional
            else
              let by_equals :=
                match split_first "=" arg_string with
                | Some (o, e) =>
                    match lookup_option p o with
                    | Some a => Some (a, o, e)
                    | None => None
                    end
                | None => None
                end in
              match by_equals with
              | Some (a, o, e) => Optional (Some a) o (Some e)
              | None =>
                  match get_option_tuples p arg_string with
                  | _ :: _ :: _ => Ambiguous
                  | [(a, o, e)] => Optional (Some a) o e
                  | [] =>
                      if negative_number arg_string then NotOptional
                      else if contains_char " " arg_string then NotOptional
                      else Optional None arg_string None
                  end
              end
        end
  end.

Inductive arg_class : Type :=
| ClassA
| ClassO (a : option action) (option_string : string) (explicit_arg : option string)
| ClassDash.

(** The pattern of the command line; [None] when an abbreviation is
    ambiguous.  Everything after [--] is an argument. *)
Fixpoint classify (p : parser) (arg_strings : list string)
  : option (list (string * arg_class)) :=
  match arg_strings with
  | [] => Some []
  | s :: rest =>
      if (s =? "--")%string then
        Some ((s, ClassDash) :: map (fun r => (r, ClassA)) rest)
      else
        match parse_optional p s with
        | Ambiguous => None
        | NotOptional =>
            match classify p rest with
            | Some l => Some ((s, ClassA) :: l)
            | None => None
            end
        | Optional a o e =>
            match classify p rest with
            | Some l => Some ((s, ClassO a o e) :: l)
            | None => None
            end
        end
  end.

(** *** Consuming the arguments *)

Definition namespace : Type := dict.

Inductive parse_result : Type :=
| Parsed (ns : namespace)
| HelpExit          (* the help action ran: help on standard output, exit 0 *)
| ArgError.         (* [parser.error]: usage on standard error, exit 2 *)

Record parse_state : Type := {
  st_namespace : namespace;
  st_seen : list string;
  st_seen_non_default : list string;
  st_extras : list string;
  st_positionals : list action
}.

(** A step of the parser either goes on with a new state or stops the
    parse with its result. *)
Inductive step : Type :=
| Go (st : parse_state)
| Halt (r : parse_result).

(** The actions that may not occur with [a]. *)
Definition action_conflicts (p : parser) (a : action) : list string :=
  flat_map (fun g => if mem_string (action_id a) g
                     then filter (fun o => negb (o =? action_id a)%string) g
                     else [])
           (mutually_exclusive_groups p).

Definition store (st : parse_state) (a : action) (v : argval) : parse_state :=
  {| st_namespace := match dest a with
                     | Some d => dict_set (st_namespace st) d v
                     | None => st_namespace st
                     end;
     st_seen := action_id a :: st_seen st;
     st_seen_non_default := action_id a :: st_seen_non_default st;
     st_extras := st_extras st;
     st_positionals := st_positionals st |}.

(** [take_action]: the value is checked against [choices], then the action
    against the actions seen of its exclusive groups, then it runs.  An
    argument value read from the command line is an object of its own, so
    it never is the action's default. *)
Definition take_action (p : parser) (st : parse_state) (a : action)
           (argument_strings : list string) : step :=
  let value_ok :=
    match kind a, choices a, argument_strings with
    | Store, Some cs, [v] => mem_string v cs
    | _, _, _ => true
    end in
  if negb value_ok then Halt ArgError
  else if existsb (fun c => mem_string c (st_seen_non_default st)) (action_conflicts p a)
  then Halt ArgError
  else
    match kind a with
    | Store =>
        match argument_strings with
        | [v] => Go (store st a (AStr v))
        | _ => Halt ArgError
        end
    | StoreTrue => Go (store st a (ABool true))
    | StoreFalse => Go (store st a (ABool false))
    | Help => Halt HelpExit
    end.

Fixpoint take_actions (p : parser) (st : parse_state)
         (action_tuples : list (action * list string)) : step :=
  match action_tuples with
  | [] => Go st
  | (a, args) :: rest =>
      match take_action p st a args with
      | Go st' => take_actions p st' rest
      | Halt r => Halt r
      end
  end.

(** What an option string amounts to before the following strings are
    looked at: the actions already complete, and possibly a last action
    whose arguments are still to be matched. *)
Inductive option_group : Type :=
| GroupError
| GroupDone (action_tuples : list (action * list string))
| GroupOpen (action_tuples : list (action * list string)) (a : action).

Definition takes_argument (a : action) : bool :=
  match kind a with
  | Store => true
  | _ => false
  end.

(** The loop of [consume_optional] on an explicit argument: an option with a
    single dash that takes no argument is followed by further single-dash
    options ([-xyz]). *)
Fixpoint explicit_loop (p : parser) (a : action) (single_dash : bool)
         (explicit_arg : string) (action_tuples : list (action * list string))
  : option_group :=
  if takes_argument a then
    GroupDone (action_tuples ++ [(a, [explicit_arg])])%list
  else if single_dash then
    match explicit_arg with
    | "" => GroupError
    | String c new_explicit_arg =>
        match lookup_option p (String "-" (String c "")) with
        | Some a' =>
            match new_explicit_arg with
            | "" => GroupOpen (action_tuples ++ [(a, [])])%list a'
            | _ => explicit_loop p a' (negb (c =? "-")%char) new_explicit_arg
                                 (action_tuples ++ [(a, [])])%list
            end
        | None => GroupError
        end
    end
  else GroupError.

Definition single_dash_option (o : string) : bool :=
  match o with
  | String _ (String "-" _) => false
  | _ => true
  end.

Definition add_extra (st : parse_state) (s : string) : parse_state :=
  {| st_namespace := st_namespace st;
     st_seen := st_seen st;
     st_seen_non_default := st_seen_non_default st;
     st_extras := (st_extras st ++ [s])%list;
     st_positionals := st_positionals st |}.

Definition pop_positional (st : parse_state) : parse_state :=
  {| st_namespace := st_namespace st;
     st_seen := st_seen st;
     st_seen_non_default := st_seen_non_default st;
     st_extras := st_extras st;
     st_positionals := tl (st_positionals st) |}.

(** After the last string: the required actions must have been seen, and
    [parse_args] rejects strings that no action took. *)
Definition finish (p : parser) (st : parse_state) : parse_result :=
  if existsb (fun a => required a && negb (mem_string (action_id a) (st_seen st)))
             (actions p)
  then ArgError
  else match st_extras st with
       | [] => Parsed (st_namespace st)
       | _ :: _ => ArgError
       end.

(** [consume p l pending after_positional st] reads the classified strings
    from left to right.  [pending] holds an option that waits for its one
    argument, with the actions of its option string that are already
    complete; [after_positional] tells that the previous string went to a
    positional, which then also takes a following [--]. *)
Fixpoint consume (p : parser) (l : list (string * arg_class))
         (pending : option (list (action * list string) * action))
         (after_positional : bool) (st : parse_state) : parse_result :=
  match l with
  | [] =>
      match pending with
      | Some _ => ArgError
      | None => finish p st
      end
  | (s, c) :: rest =>
      match pending with
      | Some (tuples, a) =>
          match c with
          | ClassA =>
              match take_actions p st (tuples ++ [(a, [s])])%list with
              | Go st' => consume p rest None false st'
              | Halt r => r
              end
          | _ => ArgError
          end
      | None =>
          match c with
          | ClassA =>
              match st_positionals st with
              | a :: _ =>
                  match take_action p (pop_positional st) a [s] with
                  | Go st' => consume p rest None true st'
                  | Halt r => r
                  end
              | [] => consume p rest None false (add_extra st s)
              end
          | ClassDash =>
              let taken :=
                after_positional
                || match rest, st_positionals st with
                   | _ :: _, _ :: _ => true
                   | _, _ => false
                   end in
              consume p rest None false (if taken then st else add_extra st s)
          | ClassO None _ _ => consume p rest None false (add_extra st s)
          | ClassO (Some a) o explicit_arg =>
              let group :=
                match explicit_arg with
                | Some e => explicit_loop p a (single_dash_option o) e []
                | None => GroupOpen [] a
                end in
              match group with
              | GroupError => ArgError
              | GroupDone tuples =>
                  match take_actions p st tuples with
                  | Go st' => consume p rest None false st'
                  | Halt r => r
                  end
              | GroupOpen tuples a' =>
                  if takes_argument a' then consume p rest (Some (tuples, a')) false st
                  else
                    match take_actions p st (tuples ++ [(a', [])])%list with
                    | Go st' => consume p rest None false st'
                    | Halt r => r
                    end
              end
          end
      end
  end.

(** The namespace before parsing: the defaults of the actions, first action
    first, then the defaults of the parser, for the destinations not yet
    set. *)
Definition has_attr (ns : namespace) (name : string) : bool :=
  existsb (fun kv => (fst kv =? name)%string) ns.

Definition initial_namespace (p : parser) : namespace :=
  let ns := fold_left (fun ns a =>
                         match dest a with
                         | Some d => if has_attr ns d then ns else dict_set ns d (default a)
                         | None => ns
                         end) (actions p) [] in
  fold_left (fun ns kv => if has_attr ns (fst kv) then ns
                          else dict_set ns (fst kv) (snd kv)) (defaults p) ns.

Definition is_positional (a : action) : bool :=
  match option_strings a with
  | [] => true
  | _ :: _ => false
  end.

Definition parse_args (p : parser) (arg_strings : list string) : parse_result :=
  match classify p arg_strings with
  | None => ArgError
  | Some l =>
      consume p l None false
              {| st_namespace := initial_namespace p;
                 st_seen := [];
                 st_seen_non_default := [];
                 st_extras := [];
                 st_positionals := filter is_positional (actions p) |}
  end.

(** *** The parsers of the program *)

Definition _parser : parser :=
  let p := ArgumentParser false [] in
  let p := add_argument p ["-u"; "--user"] None Store None true None in
  let p := add_argument p ["-p"; "--password"] None Store None true None in
  let p := add_argument p ["-r"; "--remote"] None Store (Some (AStr "origin")) false None in
  let p := add_argument p ["--teamcity"] None Store
                        (Some (AStr "https://build.neohq.net")) false None in
  let p := add_mutually_exclusive_group p ["--personal"; "--no-personal"] in
  let p := add_argument p ["--personal"] (Some "personal") StoreTrue None false None in
  let p := add_argument p ["--no-personal"] (Some "personal") StoreFalse None false None in
  set_defaults p [("personal", ABool false)].

Definition _neo4jparserbase : parser :=
  let p := ArgumentParser false [] in
  let p := add_argument p ["--maven-goals"] None Store (Some (AStr "clean verify")) false None in
  let p := add_argument p ["--maven-args"] None Store
                        (Some (AStr "-DrunITs -DskipBrowser")) false None in
  add_argument p ["-b"; "--branch"] None Store None true None.

(** The parser of [TC.__init__]. *)
Definition command_parser : parser :=
  add_argument (ArgumentParser true []) ["command"] None Store None false None.

(** The parser of [TC.linux]. *)
Definition linux_parser : parser :=
  let p := ArgumentParser true [_parser; _neo4jparserbase] in
  add_argument p ["--jdk"] None Store (Some (AStr (hd "" _linux_jdks))) false
               (Some _linux_jdks).

(** The parser of [TC.har], which first adds [-b/--branch] to the shared
    [_parser]; a run calls [TC.har] at most once. *)
Definition har_parser : parser :=
  let _parser := add_argument _parser ["-b"; "--branch"] None Store None true None in
  ArgumentParser true [_parser].

(** ** Decoded JSON, responses and what the program does to the outside *)

(** The objects [json] decoding yields, which are also what [print]
    receives. *)
#[warnings="-register-all"]
Inductive pyobj : Type :=
| PyNone
| PyBool (b : bool)
| PyInt (z : Z)
| PyFloat (literal : string)
| PyStr (s : string)
| PyList (l : list pyobj)
| PyDict (d : list (string * pyobj)).

(** [o.get(key)]: the value of [key] in a dictionary, [None] when absent;
    the other objects have no method [get]. *)
Definition get (o : pyobj) (key : string) : result pyobj :=
  match o with
  | PyDict d =>
      match find (fun kv => (fst kv =? key)%string) d with
      | Some kv => Return (snd kv)
      | None => Return PyNone
      end
  | _ => Raise AttributeError
  end.

(** A [requests.Response]: [json] is what [resp.json()] returns, [None] when
    the body does not decode and the call raises [ValueError]. *)
Record Response : Type := {
  status_code : Z;
  text : string;
  json : option pyobj
}.

(** [resp.ok]: [raise_for_status] raises for the codes from 400 to 599. *)
Definition ok (resp : Response) : bool :=
  negb ((400 <=? status_code resp)%Z && (status_code resp <? 600)%Z).

Inductive event : Type :=
| Printed (args : list pyobj)                 (* [print(...)] *)
| PrintHelp                                 (* the help text, on standard output *)
| PrintUsageError                           (* usage and error, on standard error *)
| Post (url : string) (auth : argval * argval)
       (headers : list (string * string)) (data : string).   (* [requests.post] *)

(** A computation of the program: the events it causes, in order, and its
    outcome. *)
Definition M (A : Type) : Type := list event * result A.

Definition ret {A : Type} (a : A) : M A := ([], Return a).

Definition raise {A : Type} (e : exn) : M A := ([], Raise e).

Definition bind {A B : Type} (m : M A) (k : A -> M B) : M B :=
  match m with
  | (t, Return a) => let (t', r) := k a in ((t ++ t')%list, r)
  | (t, Raise e) => (t, Raise e)
  end.

Definition lift {A : Type} (r : result A) : M A := ([], r).

Definition emit (e : event) : M unit := ([e], Return tt).

Declare Scope prog_scope.
Delimit Scope prog_scope with prog.
Notation "x <- m ;; k" := (bind m (fun x => k))
  (at level 61, m at next level, right associativity) : prog_scope.
Notation "m ;; k" := (bind m (fun _ => k))
  (at level 61, right associativity) : prog_scope.

(** [try: body except: handler], with a bare [except]. *)
Definition try_except {A : Type} (body handler : M A) : M A :=
  match body with
  | (t, Return a) => (t, Return a)
  | (t, Raise _) => let (t', r) := handler in ((t ++ t')%list, r)
  end.

Definition print (args : list pyobj) : M unit := emit (Printed args).

(** [exit(code)] raises [SystemExit]. *)
Definition exit {A : Type} (code : Z) : M A := raise (SystemExit code).

(** The status the interpreter exits with: that of [SystemExit], 1 after any
    other exception that nothing caught, 0 at the end of the script. *)
Definition exit_status {A : Type} (m : M A) : Z :=
  match snd m with
  | Return _ => 0
  | Raise (SystemExit code) => code
  | Raise _ => 1
  end.

Definition trace {A : Type} (m : M A) : list event := fst m.

Definition is_post (e : event) : bool :=
  match e with
  | Post _ _ _ _ => true
  | _ => false
  end.

(** The [requests.post] calls of a run. *)
Definition posts {A : Type} (m : M A) : list event := filter is_post (trace m).

(** [parser.parse_args(args)] as the program sees it. *)
Definition run_parser (p : parser) (arg_strings : list string) : M namespace :=
  match parse_args p arg_strings with
  | Parsed ns => ret ns
  | HelpExit => (emit PrintHelp ;; exit 0)%prog
  | ArgError => (emit PrintUsageError ;; exit 2)%prog
  end.

(** [args.name]. *)
Definition getattr (ns : namespace) (name : string) : M argval :=
  match find (fun kv => (fst kv =? name)%string) ns with
  | Some kv => ret (snd kv)
  | None => raise AttributeError
  end.

(** ** The attributes of a [TC] object

    [hasattr(self, name)] holds for the methods of the class and for what
    every object inherits from [object]; the table tells, for each of these
    names, what calling the attribute with one list as argument does. *)
Inductive attribute : Type :=
| Linux                 (* [TC.linux] *)
| Har                   (* [TC.har] *)
| Init                  (* [TC.__init__] *)
| Class                 (* [__class__], the class [TC] *)
| ReturnsQuietly        (* calling it with one list returns a value *)
| RaisesTypeError.      (* calling it with one list raises [TypeError] *)

Definition TC_attributes : list (string * attribute) :=
  [("linux", Linux); ("har", Har); ("__init__", Init); ("__class__", Class);
   ("__delattr__", RaisesTypeError); ("__dict__", RaisesTypeError);
   ("__dir__", RaisesTypeError); ("__doc__", RaisesTypeError);
   ("__eq__", ReturnsQuietly); ("__format__", RaisesTypeError);
   ("__ge__", ReturnsQuietly); ("__getattribute__", RaisesTypeError);
   ("__getstate__", RaisesTypeError); ("__gt__", ReturnsQuietly);
   ("__hash__", RaisesTypeError); ("__init_subclass__", RaisesTypeError);
   ("__le__", ReturnsQuietly); ("__lt__", ReturnsQuietly);
   ("__module__", RaisesTypeError); ("__ne__", ReturnsQuietly);
   ("__new__", RaisesTypeError); ("__reduce__", RaisesTypeError);
   ("__reduce_ex__", RaisesTypeError); ("__repr__", RaisesTypeError);
   ("__setattr__", RaisesTypeError); ("__sizeof__", RaisesTypeError);
   ("__str__", RaisesTypeError); ("__subclasshook__", ReturnsQuietly);
   ("__weakref__", RaisesTypeError)].

Definition TC_attribute (name : string) : option attribute :=
  match find (fun na => (fst na =? name)%string) TC_attributes with
  | Some na => Some (snd na)
  | None => None
  end.

Definition hasattr_TC (name : string) : bool :=
  match TC_attribute name with
  | Some _ => true
  | None => false
  end.

(** ** [urllib.parse] *)

(** [_splitparams]. *)
Definition _splitparams (url : string) : string * string :=
  match split_last "/" url with
  | Some (head, tail) =>
      match split_first ";" tail with
      | Some (b, a) => (head ++ "/" ++ b, a)
      | None => (url, "")
      end
  | None =>
      match split_first ";" url with
      | Some (b, a) => (b, a)
      | None => (url, "")
      end
  end.

(** [urlunsplit] and [urlunparse]. *)
Definition urlunsplit (scheme netloc url query fragment : string) : string :=
  let url :=
    if negb (netloc =? "")
       || (negb (scheme =? "") && mem_string scheme uses_netloc
           && negb (startswith url "//"))
    then "//" ++ netloc ++
         (if negb (url =? "") && negb (startswith url "/") then "/" ++ url else url)
    else url in
  let url := if negb (scheme =? "") then scheme ++ ":" ++ url else url in
  let url := if negb (query =? "") then url ++ "?" ++ query else url in
  if negb (fragment =? "") then url ++ "#" ++ fragment else url.

Definition urlunparse (scheme netloc url params query fragment : string) : string :=
  let url := if negb (params =? "") then url ++ ";" ++ params else url in
  urlunsplit scheme netloc url query fragment.

(** [segments[1:-1] = filter(None, segments[1:-1])]. *)
Definition filter_inner (segments : list string) : list string :=
  match segments with
  | first :: (_ :: _) as rest =>
      first :: (filter (fun w => negb (w =? "")) (removelast rest) ++ [last rest ""])%list
  | _ => segments
  end.

(** The loop of [urljoin] over the segments. *)
Definition resolve_segments (segments : list string) : list string :=
  fold_left (fun resolved_path seg =>
               if seg =? ".." then removelast resolved_path
               else if seg =? "." then resolved_path
               else (resolved_path ++ [seg])%list)
            segments [].

(** ** Well-formed XML

    A recogniser for the documents the program can send: elements with
    attributes, character data and references, as the XML 1.0 grammar
    defines them.  Comments, processing instructions, CDATA sections and
    document type declarations are reported as [Unsupported]. *)

Definition is_space (c : ascii) : bool :=
  (c =? " ")%char || (c =? "009")%char || (c =? "010")%char || (c =? "013")%char.

Definition name_start_char (c : ascii) : bool :=
  is_alpha c || (c =? "_")%char || (c =? ":")%char || negb (is_ascii c).

Definition name_char (c : ascii) : bool :=
  name_start_char c || is_digit c || (c =? "-")%char || (c =? ".")%char.

(** The characters XML 1.0 allows in a document. *)
Definition xml_char (c : ascii) : bool :=
  is_space c || (32 <=? nat_of_ascii c)%nat.

Definition is_hex_digit (c : ascii) : bool :=
  let n := nat_of_ascii c in
  is_digit c || ((65 <=? n) && (n <=? 70) || (97 <=? n) && (n <=? 102))%nat.

(** The text between [&] and [;] of a reference: a predefined entity or a
    character reference. *)
Definition valid_reference (r : string) : bool :=
  mem_string r ["amp"; "lt"; "gt"; "apos"; "quot"]
  || match r with
     | String "#" (String "x" h) => negb (h =? "") && string_forall is_hex_digit h
     | String "#" d => negb (d =? "") && all_digits d
     | _ => false
     end.

Inductive xml_state : Type :=
| XContent                                         (* between tags *)
| XReference (r : string)                          (* after [&], in content *)
| XTagStart                                        (* after [<] *)
| XOpenName (n : string)                           (* in the name of a start tag *)
| XInTag (n : string) (attrs : list string)        (* in a start tag, after white space *)
| XAttrName (n : string) (attrs : list string) (a : string)
| XAfterAttrName (n : string) (attrs : list string)
| XAfterEq (n : string) (attrs : list string)
| XAttrValue (n : string) (attrs : list string) (quote : ascii)
| XAttrReference (n : string) (attrs : list string) (quote : ascii) (r : string)
| XAfterValue (n : string) (attrs : list string)   (* after the closing quote *)
| XEmptyTag (n : string)                           (* after [/] in a start tag *)
| XCloseStart                                      (* after [</] *)
| XCloseName (n : string)
| XAfterCloseName (n : string).

Inductive xml_verdict : Type := WellFormed | NotWellFormed | Unsupported.

(** A configuration: the state, the names of the open elements, innermost
    first, and whether the root element has been closed. *)
Definition xml_config : Type := xml_state * list string * bool.

Definition xml_open (n : string) (stack : list string) (root_done : bool)
  : xml_config + xml_verdict :=
  inl (XContent, n :: stack, root_done).

Definition xml_close (n : string) (stack : list string)
  : xml_config + xml_verdict :=
  match stack with
  | top :: below =>
      if top =? n
      then inl (XContent, below, match below with [] => true | _ => false end)
      else inr NotWellFormed
  | [] => inr NotWellFormed
  end.

Definition xml_empty (stack : list string) (root_done : bool)
  : xml_config + xml_verdict :=
  inl (XContent, stack, match stack with [] => true | _ => root_done end).

Definition xml_step (cfg : xml_config) (c : ascii) : xml_config + xml_verdict :=
  let '(state, stack, root_done) := cfg in
  let go st := inl (st, stack, root_done) in
  let bad := inr NotWellFormed in
  if negb (xml_char c) then bad
  else
    match state with
    | XContent =>
        if (c =? "<")%char then go XTagStart
        else if is_space c then go XContent
        else match stack with
             | [] => bad
             | _ :: _ => if (c =? "&")%char then go (XReference "") else go XContent
             end
    | XReference r =>
        if (c =? ";")%char then (if valid_reference r then go XContent else bad)
        else if name_char c || (c =? "#")%char then go (XReference (r ++ String c ""))
        else bad
    | XTagStart =>
        if (c =? "/")%char then go XCloseStart
        else if (c =? "!")%char || (c =? "?")%char then inr Unsupported
        else if name_start_char c
             then (if root_done then bad else go (XOpenName (String c "")))
             else bad
    | XOpenName n =>
        if name_char c then go (XOpenName (n ++ String c ""))
        else if is_space c then go (XInTag n [])
        else if (c =? "/")%char then go (XEmptyTag n)
        else if (c =? ">")%char then xml_open n stack root_done
        else bad
    | XInTag n attrs =>
        if is_space c then go (XInTag n attrs)
        else if (c =? "/")%char then go (XEmptyTag n)
        else if (c =? ">")%char then xml_open n stack root_done
        else if name_start_char c then go (XAttrName n attrs (String c ""))
        else bad
    | XAttrName n attrs a =>
        if name_char c then go (XAttrName n attrs (a ++ String c ""))
        else if mem_string a attrs then bad
        else if is_space c then go (XAfterAttrName n (a :: attrs))
        else if (c =? "=")%char then go (XAfterEq n (a :: attrs))
        else bad
    | XAfterAttrName n attrs =>
        if is_space c then go (XAfterAttrName n attrs)
        else if (c =? "=")%char then go (XAfterEq n attrs)
        else bad
    | XAfterEq n attrs =>
        if is_space c then go (XAfterEq n attrs)
        else if (c =? "034")%char || (c =? "'")%char then go (XAttrValue n attrs c)
        else bad
    | XAttrValue n attrs quote =>
        if (c =? quote)%char then go (XAfterValue n attrs)
        else if (c =? "<")%char then bad
        else if (c =? "&")%char then go (XAttrReference n attrs quote "")
        else go (XAttrValue n attrs quote)
    | XAttrReference n attrs quote r =>
        if (c =? ";")%char
        then (if valid_reference r then go (XAttrValue n attrs quote) else bad)
        else if name_char c || (c =? "#")%char
             then go (XAttrReference n attrs quote (r ++ String c ""))
             else bad
    | XAfterValue n attrs =>
        if is_space c then go (XInTag n attrs)
        else if (c =? "/")%char then go (XEmptyTag n)
        else if (c =? ">")%char then xml_open n stack root_done
        else bad
    | XEmptyTag n =>
        if (c =? ">")%char then xml_empty stack root_done else bad
    | XCloseStart =>
        if name_start_char c then go (XCloseName (String c "")) else bad
    | XCloseName n =>
        if name_char c then go (XCloseName (n ++ String c ""))
        else if is_space c then go (XAfterCloseName n)
        else if (c =? ">")%char then xml_close n stack
        else bad
    | XAfterCloseName n =>
        if is_space c then go (XAfterCloseName n)
        else if (c =? ">")%char then xml_close n stack
        else bad
    end.

Fixpoint xml_run (cfg : xml_config) (s : string) : xml_verdict :=
  match s with
  | "" =>
      match cfg with
      | (XContent, [], true) => WellFormed
      | _ => NotWellFormed
      end
  | String c s' =>
      match xml_step cfg c with
      | inl cfg' => xml_run cfg' s'
      | inr v => v
      end
  end.

Definition xml_check (document : string) : xml_verdict :=
  xml_run (XContent, [], false) document.

(** The strings of a list, one after the other. *)
Fixpoint concat_strings (l : list string) : string :=
  match l with
  | [] => ""
  | x :: xs => x ++ concat_strings xs
  end.

(** ** The document the request builder is to produce

    One [property] element per entry, in the order of the entries, inside
    the [properties] element of the root [build]. *)
Definition property_element (entry : string * argval) : string :=
  nl ++ "    <property name=" ++ quoted (fst entry)
     ++ " value=" ++ quoted (str (snd entry)) ++ "/>".

Definition build_document (buildid personal branch : argval)
           (properties : list (string * argval)) : string :=
  nl ++
  "<build personal=" ++ quoted (lower (str personal))
    ++ " branchName=" ++ quoted (str branch) ++ ">" ++ nl ++
  "  <buildType id=" ++ quoted (str buildid) ++ "/>" ++ nl ++
  "  <comment><text>Triggered from CLI</text></comment>" ++ nl ++
  "  <properties>" ++ concat_strings (map property_element properties) ++ nl ++
  "  </properties>" ++ nl ++
  "</build>" ++ nl.

(** The number of places of [s] where [pat] starts. *)
Fixpoint count_occurrences (pat s : string) : nat :=
  match s with
  | "" => 0
  | String c s' => (if startswith s pat then 1 else 0) + count_occurrences pat s'
  end.

(** [s] has no [<]. *)
Definition no_lt (s : string) : Prop := contains_char "<" s = false.

(** [xml_steps cfg s]: the configuration after reading [s], or the verdict
    that ends the reading before the end of [s]. *)
Fixpoint xml_steps (cfg : xml_config) (s : string) : xml_config + xml_verdict :=
  match s with
  | "" => inl cfg
  | String c s' =>
      match xml_step cfg c with
      | inl cfg' => xml_steps cfg' s'
      | inr v => inr v
      end
  end.

(** The characters that may stand in an attribute value between double
    quotes as they are: those of XML other than [<], [&] and the double
    quote. *)
Definition xml_safe_char (c : ascii) : bool :=
  xml_char c && negb (c =? "<")%char && negb (c =? "&")%char && negb (c =? "034")%char.

Definition xml_safe (s : string) : bool := string_forall xml_safe_char s.


(** ** Environments to run the program in *)

(** A check of network locations that lets every location pass. *)
Definition accept_netloc (_ : string) : bool := true.

(** The server that answers every request with [resp]. *)
Definition answering (resp : Response)
  : string -> argval * argval -> list (string * string) -> string -> result Response :=
  fun _ _ _ _ => Return resp.

(** The transport that fails with an exception on every request. *)
Definition unreachable_server
  : string -> argval * argval -> list (string * string) -> string -> result Response :=
  fun _ _ _ _ => Raise RequestException.

(** A command line for the HA build and one for the Linux build. *)
Definition har_argv : list string := ["har"; "-u"; "U"; "-p"; "P"; "-b"; "B"].

Definition linux_argv : list string :=
  ["linux"; "-u"; "U"; "-p"; "P"; "-b"; "B"; "--maven-args=-DrunITs"].

(** The documents these two command lines send. *)
Definition har_document : string :=
  build_document (AStr _har_id) (ABool false) (AStr "B")
                 [("remote", AStr "origin"); ("branch", AStr "B")].

Definition linux_document : string :=
  build_document (AStr _neo4jlinux_id) (ABool false) (AStr "B")
    [("remote", AStr "origin"); ("branch", AStr "B");
     ("project-default-jdk", AStr "%openjdk-8%");
     ("maven-goals", AStr "clean verify");
     ("maven-args",
      AStr "-DfailIfNoTests=false -Dmaven.test.failure.ignore=true --show-version -DrunITs")].

(** Responses: a build that was queued, one whose body has no [webUrl], a
    refusal whose body is not JSON, a refusal with a JSON body, a 300 and a
    200 whose body is not JSON. *)
Definition queued : Response :=
  {| status_code := 200;
     text := "{" ++ quoted "webUrl" ++ ": " ++ quoted "https://x/y" ++ "}";
     json := Some (PyDict [("webUrl", PyStr "https://x/y")]) |}.

Definition queued_without_url : Response :=
  {| status_code := 200;
     text := "{" ++ quoted "id" ++ ": 7}";
     json := Some (PyDict [("id", PyInt 7)]) |}.

Definition forbidden : Response :=
  {| status_code := 403; text := "Forbidden"; json := None |}.

Definition not_found : Response :=
  {| status_code := 404;
     text := "{" ++ quoted "error" ++ ": " ++ quoted "no such build type" ++ "}";
     json := Some (PyDict [("error", PyStr "no such build type")]) |}.

Definition multiple_choices : Response :=
  {| status_code := 300;
     text := "{" ++ quoted "webUrl" ++ ": " ++ quoted "https://x/y" ++ "}";
     json := Some (PyDict [("webUrl", PyStr "https://x/y")]) |}.

Definition garbled : Response :=
  {| status_code := 200; text := "<html>"; json := None |}.

Section Program.

(** The two checks of a network location that are not modelled: that of a
    bracketed host ([_check_bracketed_netloc]) and that of a non-ASCII
    location under NFKC normalisation ([_checknetloc]); each tells whether
    the location passes. *)
Variable check_bracketed_netloc : string -> bool.
Variable check_nfkc_netloc : string -> bool.

(** What [requests.post] returns or raises for a request. *)
Variable server : string -> argval * argval -> list (string * string) -> string
                  -> result Response.

(** [urlsplit(url, scheme)]: scheme, netloc, path, query, fragment. *)
Definition urlsplit (url scheme : string)
  : result (string * string * string * string * string) :=
  let url := lstrip c0_control_or_space url in
  let scheme := rstrip c0_control_or_space (lstrip c0_control_or_space scheme) in
  let url := string_filter (fun c => negb (unsafe_url_byte c)) url in
  let scheme := string_filter (fun c => negb (unsafe_url_byte c)) scheme in
  let (scheme, url) :=
    match split_first ":" url with
    | Some (String c0 s, rest) =>
        if is_ascii c0 && is_alpha c0 && string_forall scheme_char (String c0 s)
        then (lower (String c0 s), rest)
        else (scheme, url)
    | _ => (scheme, url)
    end in
  let split_netloc :=
    match url with
    | String "/" (String "/" rest) =>
        let (netloc, url) := span_until netloc_delimiter rest in
        if xorb (contains_char "[" netloc) (contains_char "]" netloc)
        then Raise ValueError
        else if contains_char "[" netloc && negb (check_bracketed_netloc netloc)
             then Raise ValueError
             else Return (netloc, url)
    | _ => Return ("", url)
    end in
  (nu <- split_netloc ;;
   let (netloc, url) := nu : string * string in
   let (url, fragment) :=
     match split_first "#" url with
     | Some (u, f) => (u, f)
     | None => (url, "")
     end in
   let (url, query) :=
     match split_first "?" url with
     | Some (u, q) => (u, q)
     | None => (url, "")
     end in
   if negb (netloc =? "") && negb (string_forall is_ascii netloc)
      && negb (check_nfkc_netloc netloc)
   then Raise ValueError
   else Return (scheme, netloc, url, query, fragment))%result.

(** [urlparse(url, scheme)]: scheme, netloc, path, params, query,
    fragment. *)
Definition urlparse (url scheme : string)
  : result (string * string * string * string * string * string) :=
  (r <- urlsplit url scheme ;;
   let '(scheme, netloc, url, query, fragment) := r in
   let (url, params) :=
     if mem_string scheme uses_params && contains_char ";" url
     then _splitparams url
     else (url, "") in
   Return (scheme, netloc, url, params, query, fragment))%result.

Definition urljoin (base url : string) : result string :=
  if base =? "" then Return url
  else if url =? "" then Return base
  else
    (b <- urlparse base "" ;;
     let '(bscheme, bnetloc, bpath, bparams, bquery, bfragment) := b in
     u <- urlparse url bscheme ;;
     let '(scheme, netloc, path, params, query, fragment) := u in
     if negb (scheme =? bscheme) || negb (mem_string scheme uses_relative)
     then Return url
     else if mem_string scheme uses_netloc && negb (netloc =? "")
     then Return (urlunparse scheme netloc path params query fragment)
     else
       let netloc := if mem_string scheme uses_netloc then bnetloc else netloc in
       if (path =? "") && (params =? "")
       then Return (urlunparse scheme netloc bpath bparams
                               (if query =? "" then bquery else query) fragment)
       else
         let base_parts := split "/" bpath in
         let base_parts := if negb (last base_parts "" =? "")
                           then removelast base_parts else base_parts in
         let segments := if startswith path "/" then split "/" path
                         else filter_inner (base_parts ++ split "/" path)%list in
         let resolved_path := resolve_segments segments in
         let resolved_path :=
           if mem_string (last segments "") ["."; ".."]
           then (resolved_path ++ [""])%list else resolved_path in
         let joined := join "/" resolved_path in
         Return (urlunparse scheme netloc (if joined =? "" then "/" else joined)
                            params query fragment))%result.


(** ** The transport *)

Definition post (url : string) (auth : argval * argval)
           (headers : list (string * string)) (data : string) : M Response :=
  (emit (Post url auth headers data) ;; lift (server url auth headers data))%prog.

(** [urlparse.urljoin(url, "httpAuth/app/rest/buildQueue")] on the value of
    the [teamcity] option: [urljoin] returns its second argument when the
    first is false, and refuses to mix a string with another object. *)
Definition build_queue_url (url : argval) : result string :=
  match url with
  | AStr base => urljoin base "httpAuth/app/rest/buildQueue"
  | ANone | ABool false => Return "httpAuth/app/rest/buildQueue"
  | ABool true => Raise TypeError
  end.

Definition resp_json (resp : Response) : M pyobj :=
  match json resp with
  | Some o => ret o
  | None => raise ValueError
  end.

Definition send_request (user password url : argval) (data : string) : M unit :=
  (target <- lift (build_queue_url url) ;;
   resp <- post target (user, password) _headers data ;;
   if ok resp then
     print [PyStr "Build started. View status at"] ;;
     body <- resp_json resp ;;
     web_url <- lift (get body "webUrl") ;;
     print [web_url]
   else
     print [PyStr "Could not start build:"] ;;
     print [PyInt (status_code resp)] ;;
     try_except (body <- resp_json resp ;; print [body])
                (print [PyStr (text resp)]) ;;
     exit 1)%prog.

(** ** The builds *)

Definition start_linux (user password url personal branch remote
                        mvngoals mvnargs jdk : argval) : M unit :=
  (default_jdk <- lift (format "%{}%" [jdk] []) ;;
   props <- lift (dict_as_properties
                    (dict_display [("project-default-jdk", AStr default_jdk);
                                   ("maven-goals", mvngoals);
                                   ("maven-args", mvnargs)])) ;;
   data <- lift (request_xml (AStr _neo4jlinux_id) personal branch remote (AStr props)) ;;
   send_request user password url data)%prog.

Definition start_ha (user password url personal branch remote : argval) : M unit :=
  (data <- lift (request_xml (AStr _har_id) personal branch remote ANone) ;;
   send_request user password url data)%prog.

(** ** The dispatcher *)

Definition TC_linux (subargs : list string) : M unit :=
  (args <- run_parser linux_parser subargs ;;
   user <- getattr args "user" ;;
   password <- getattr args "password" ;;
   teamcity <- getattr args "teamcity" ;;
   personal <- getattr args "personal" ;;
   branch <- getattr args "branch" ;;
   remote <- getattr args "remote" ;;
   maven_goals <- getattr args "maven_goals" ;;
   maven_args <- getattr args "maven_args" ;;
   mvnargs <- lift (tc_mvn_args maven_args) ;;
   jdk <- getattr args "jdk" ;;
   start_linux user password teamcity personal branch remote
               maven_goals (AStr mvnargs) jdk)%prog.

Definition TC_har (subargs : list string) : M unit :=
  (args <- run_parser har_parser subargs ;;
   user <- getattr args "user" ;;
   password <- getattr args "password" ;;
   teamcity <- getattr args "teamcity" ;;
   personal <- getattr args "personal" ;;
   branch <- getattr args "branch" ;;
   remote <- getattr args "remote" ;;
   start_ha user password teamcity personal branch remote)%prog.

(** The body of [TC.__init__]; [again] is what [TC.__init__(cliargs[1:])]
    does, for the commands [__init__] and [__class__] that lead back to
    it. *)
Definition TC_init_body (again : M unit) (cliargs : list string) : M unit :=
  (args <- run_parser command_parser (firstn 1 cliargs) ;;
   command <- getattr args "command" ;;
   match command with
   | AStr name =>
       match TC_attribute name with
       | None =>
           print [PyStr "Unrecognized command:"; PyStr name] ;;
           emit PrintHelp ;;
           exit 1
       | Some Linux => TC_linux (tl cliargs)
       | Some Har => TC_har (tl cliargs)
       | Some Init => again
       | Some Class => again
       | Some ReturnsQuietly => ret tt
       | Some RaisesTypeError => raise TypeError
       end
   | _ => raise TypeError
   end)%prog.

(** [TC(cliargs)].  With no argument at all the parser stops the program
    before any dispatch, so nothing is to be done again. *)
Fixpoint TC_init (cliargs : list string) : M unit :=
  match cliargs with
  | [] => TC_init_body (ret tt) cliargs
  | _ :: rest => TC_init_body (TC_init rest) cliargs
  end.

(** The script: [TC(sys.argv[1:])]. *)
Definition main (argv : list string) : M unit := TC_init argv.

(** ** Typed namespaces

    [ty d v] tells that the value [v] is admissible for the destination
    [d].  A namespace is typed when it has the attributes of the initial
    namespace of the parser, in their order, with admissible values. *)

Definition keys (p : parser) : list string := map fst (initial_namespace p).

Definition typed (p : parser) (ty : string -> argval -> bool) (ns : namespace) : Prop :=
  map fst ns = keys p /\ Forall (fun kv => ty (fst kv) (snd kv) = true) ns.

(** An action is typed when what it stores is admissible for its
    destination. *)
Definition action_typed (p : parser) (ty : string -> argval -> bool) (a : action)
  : Prop :=
  match dest a with
  | None => True
  | Some d =>
      In d (keys p)
      /\ match kind a with
         | Store =>
             forall s, match choices a with
                       | Some cs => mem_string s cs
                       | None => true
                       end = true -> ty d (AStr s) = true
         | StoreTrue => ty d (ABool true) = true
         | StoreFalse => ty d (ABool false) = true
         | Help => True
         end
  end.

Definition class_known (p : parser) (sc : string * arg_class) : Prop :=
  match snd sc with
  | ClassO (Some a) _ _ => In a (actions p)
  | _ => True
  end.

Definition tuples_known (p : parser) (tuples : list (action * list string)) : Prop :=
  Forall (fun t => In (fst t) (actions p)) tuples.

Definition pending_known (p : parser)
           (pending : option (list (action * list string) * action)) : Prop :=
  match pending with
  | Some (tuples, a) => tuples_known p tuples /\ In a (actions p)
  | None => True
  end.

(** [attr ns d]: the value of the attribute [d], [None] when there is no
    such attribute. *)
Definition attr (ns : namespace) (d : string) : argval :=
  match find (fun kv => fst kv =? d) ns with
  | Some kv => snd kv
  | None => ANone
  end.

(** The destination of an action that has been seen is set. *)
Definition seen_set (p : parser) (st : parse_state) : Prop :=
  forall a d, In a (actions p) -> In (action_id a) (st_seen st) ->
              dest a = Some d -> attr (st_namespace st) d <> ANone.

(** The destinations of the required actions. *)
Definition required_dests (p : parser) : list string :=
  flat_map (fun a => if required a
                     then match dest a with Some d => [d] | None => [] end
                     else [])
           (actions p).

Definition required_set (p : parser) (ns : namespace) : Prop :=
  Forall (fun d => attr ns d <> ANone) (required_dests p).

Definition state_typed (p : parser) (ty : string -> argval -> bool)
           (st : parse_state) : Prop :=
  typed p ty (st_namespace st)
  /\ Forall (fun a => In a (actions p)) (st_positionals st)
  /\ seen_set p st.

Definition is_str (v : argval) : bool :=
  match v with
  | AStr _ => true
  | _ => false
  end.

Definition is_bool (v : argval) : bool :=
  match v with
  | ABool _ => true
  | _ => false
  end.

(** The types of the destinations of the three parsers: [personal] is a
    boolean, [jdk] one of the supported names, an option with a default is a
    string, and a required option or positional is a string once seen. *)
Definition dest_type (d : string) (v : argval) : bool :=
  if d =? "personal" then is_bool v
  else if d =? "jdk" then
         match v with
         | AStr s => mem_string s _linux_jdks
         | _ => false
         end
  else if mem_string d ["user"; "password"; "branch"; "command"] then
         match v with
         | ABool _ => false
         | _ => true
         end
  else is_str v.

(** ** Plain network locations

    A network location is plain when it consists of printable ASCII
    characters other than the delimiters [/], [?] and [#] and the brackets:
    a host name or an IPv4 address, with or without user information and
    port. *)
Definition plain_netloc_char (c : ascii) : bool :=
  negb (c0_control_or_space c) && is_ascii c && negb (netloc_delimiter c)
  && negb (c =? "[")%char && negb (c =? "]")%char.

Definition plain_netloc (netloc : string) : bool :=
  string_forall plain_netloc_char netloc.

(** ** Plain paths

    The characters of a segment of a path: any but the slash, the
    delimiters [?], [#] and [;] and the three bytes [urlsplit] removes.  A
    segment is plain when it is not empty and not [.] or [..]. *)
Definition plain_path_char (c : ascii) : bool :=
  negb (unsafe_url_byte c) && negb (c =? "/")%char && negb (c =? "?")%char
  && negb (c =? "#")%char && negb (c =? ";")%char.

Definition plain_name (s : string) : bool := string_forall plain_path_char s.

Definition plain_segment (s : string) : bool :=
  plain_name s && negb (s =? "") && negb (s =? ".") && negb (s =? "..").

(** The characters of a path of plain segments. *)
Definition path_char (c : ascii) : bool :=
  negb (unsafe_url_byte c) && negb (c =? "?")%char
  && negb (c =? "#")%char && negb (c =? ";")%char.

(** ** The kinds of run

    What a run of the script can come to: the usage error of a parser, the
    help text of a parser, the report of an unrecognized command, an
    attribute of the object that returns or that cannot be called, and the
    request of one of the two builds, with strings as credentials, server
    and branch. *)
Inductive run_kind : M unit -> Prop :=
| UsageError :
    run_kind ([PrintUsageError], Raise (SystemExit 2))
| HelpShown :
    run_kind ([PrintHelp], Raise (SystemExit 0))
| UnrecognizedCommand (name : string) :
    run_kind ([Printed [PyStr "Unrecognized command:"; PyStr name]; PrintHelp],
              Raise (SystemExit 1))
| QuietAttribute :
    run_kind (ret tt)
| UncallableAttribute :
    run_kind (raise TypeError)
| LinuxBuild (user password teamcity branch remote maven_goals maven_args jdk : string)
             (personal : bool) :
    In jdk _linux_jdks ->
    run_kind (send_request (AStr user) (AStr password) (AStr teamcity)
                (build_document (AStr _neo4jlinux_id) (ABool personal) (AStr branch)
                   [("remote", AStr remote); ("branch", AStr branch);
                    ("project-default-jdk", AStr ("%" ++ jdk ++ "%"));
                    ("maven-goals", AStr maven_goals);
                    ("maven-args",
                     AStr ("-DfailIfNoTests=false -Dmaven.test.failure.ignore=true --show-version "
                             ++ maven_args))]))
| HarBuild (user password teamcity branch remote : string) (personal : bool) :
    run_kind (send_request (AStr user) (AStr password) (AStr teamcity)
                (build_document (AStr _har_id) (ABool personal) (AStr branch)
                   [("remote", AStr remote); ("branch", AStr branch)])).

(** The transport never raises [SystemExit]. *)
Definition transport_never_exits : Prop :=
  forall (target : string) (auth : argval * argval) (headers : list (string * string))
         (data : string) (code : Z),
    server target auth headers data <> Raise (SystemExit code).

(** A run that a parser ends: with the usage error, or with the help text
    when [-h] comes before the error. *)
Definition stopped_by_parser (m : M unit) : Prop :=
  m = ([PrintUsageError], Raise (SystemExit 2))
  \/ m = ([PrintHelp], Raise (SystemExit 0)).

(** ** Classes that end a parse

    For a parser without positionals: [--], an option string that no action
    has, an option with a value outside its choices, and the help option. *)
Definition fatal_class (c : arg_class) : Prop :=
  match c with
  | ClassDash => True
  | ClassO None _ _ => True
  | ClassO (Some a) _ (Some e) =>
      kind a = Store /\ exists cs, choices a = Some cs /\ mem_string e cs = false
  | ClassO (Some a) _ None => kind a = Help
  | ClassA => False
  end.


(** The flag [a] occurs in the classified command line. *)
Definition flag_entry (a : action) (l : list (string * arg_class)) : Prop :=
  exists s o, In (s, ClassO (Some a) o None) l.

(** The option strings of a parser that take a value: for the Linux build
    [-u], [--user], [-p], [--password], [-r], [--remote], [--teamcity],
    [--maven-goals], [--maven-args], [-b], [--branch] and [--jdk], and for
    the HA build the same without the three of Maven and the jdk. *)
Definition value_options (p : parser) : list string :=
  map fst (filter (fun oa => takes_argument (snd oa)) (option_string_actions p)).


(** [s] starts with [-c] or [--c]. *)
Definition mentions (c : ascii) (s : string) : bool :=
  startswith s (String "-" (String c ""))
  || startswith s (String "-" (String "-" (String c ""))).

(** Taking the tuples cannot make the action [rid] seen: none of them is
    that action, or the first one shows the help and ends the parse. *)
Definition harmless (p : parser) (rid : string) (tuples : list (action * list string))
  : Prop :=
  Forall (fun t => action_id (fst t) <> rid) tuples
  \/ exists a args rest,
      tuples = (a, args) :: rest
      /\ forall st, take_action p st a args = Halt HelpExit.

(** The entry is not an occurrence of the action [rid]. *)
Definition entry_avoids (p : parser) (rid : string) (sc : string * arg_class) : Prop :=
  match snd sc with
  | ClassO (Some a) o _ => In (o, a) (option_string_actions p) /\ action_id a <> rid
  | _ => True
  end.

(** * Properties *)

(** ** Strings *)

Lemma append_assoc (a b c : string) : (a ++ b) ++ c = a ++ (b ++ c).
Proof.
  induction a as [|x a IH]; simpl; [reflexivity | now rewrite IH].
Qed.

Lemma append_nil_r (a : string) : a ++ "" = a.
Proof.
  induction a as [|x a IH]; simpl; [reflexivity | now rewrite IH].
Qed.

(** ** The monad *)

Lemma bind_ret {A B : Type} (a : A) (k : A -> M B) : bind (ret a) k = k a.
Proof.
  unfold bind, ret. destruct (k a) as [t r]. reflexivity.
Qed.

Lemma bind_lift_return {A B : Type} (a : A) (k : A -> M B) :
  bind (lift (Return a)) k = k a.
Proof. apply bind_ret. Qed.

(** ** The request builder *)

Lemma format_property (k : string) (v : argval) :
  format _requestpropertybase [] [("name", AStr k); ("value", v)]
  = Return (property_element (k, v)).
Proof.
  unfold property_element, quoted. cbn [fst snd str].
  rewrite !append_assoc. reflexivity.
Qed.

Lemma dict_as_properties_loop_spec (its : list (string * argval)) :
  forall xml,
    dict_as_properties_loop xml its
    = Return (xml ++ concat_strings (map property_element its)).
Proof.
  induction its as [|[k v] its IH]; intros xml.
  - simpl. now rewrite append_nil_r.
  - cbn [dict_as_properties_loop]. rewrite format_property.
    cbn [rbind]. rewrite IH. cbn [map concat_strings].
    now rewrite append_assoc.
Qed.

Lemma dict_as_properties_spec (props : dict) :
  dict_as_properties props = Return (concat_strings (map property_element (items props))).
Proof.
  unfold dict_as_properties. now rewrite dict_as_properties_loop_spec.
Qed.

Lemma request_xml_document (buildid personal branch remote : argval)
      (entries : list (string * argval)) :
  request_xml buildid personal branch remote
              (AStr (concat_strings (map property_element entries)))
  = Return (build_document buildid personal branch
                           (("remote", remote) :: ("branch", branch) :: entries)).
Proof.
  unfold build_document, property_element, quoted.
  cbn [map concat_strings fst snd].
  rewrite !append_assoc. reflexivity.
Qed.

Lemma request_xml_no_props (buildid personal branch remote : argval) :
  request_xml buildid personal branch remote ANone
  = Return (build_document buildid personal branch
                           [("remote", remote); ("branch", branch)]).
Proof.
  exact (request_xml_document buildid personal branch remote []).
Qed.

Lemma start_linux_sends (user password url personal branch remote
                         mvngoals mvnargs jdk : argval) :
  start_linux user password url personal branch remote mvngoals mvnargs jdk
  = send_request user password url
      (build_document (AStr _neo4jlinux_id) personal branch
         [("remote", remote); ("branch", branch);
          ("project-default-jdk", AStr ("%" ++ str jdk ++ "%"));
          ("maven-goals", mvngoals); ("maven-args", mvnargs)]).
Proof.
  unfold start_linux.
  change (format "%{}%" [jdk] []) with (Return ("%" ++ str jdk ++ "%")).
  rewrite bind_lift_return, dict_as_properties_spec, bind_lift_return.
  change (items (dict_display ?l)) with l.
  rewrite request_xml_document. now rewrite bind_lift_return.
Qed.

Lemma start_ha_sends (user password url personal branch remote : argval) :
  start_ha user password url personal branch remote
  = send_request user password url
      (build_document (AStr _har_id) personal branch
                      [("remote", remote); ("branch", branch)]).
Proof.
  unfold start_ha. rewrite request_xml_no_props. now rewrite bind_lift_return.
Qed.

(** *** Counting the [property] elements of a document *)

Lemma count_no_lt (v t : string) :
  no_lt v -> count_occurrences "<property " (v ++ t) = count_occurrences "<property " t.
Proof.
  unfold no_lt. induction v as [|c v IH]; [reflexivity|].
  cbn [contains_char]. intros H. apply orb_false_iff in H. destruct H as [Hc Hv].
  cbn [append count_occurrences startswith].
  rewrite Ascii.eqb_sym, Hc. now apply IH.
Qed.

(** Walking through the literal text of a template, up to the next value. *)
Ltac count_literal :=
  cbn [nl dq append count_occurrences startswith Ascii.eqb Bool.eqb andb Nat.add].

Lemma count_property_element (entry : string * argval) (t : string) :
  no_lt (fst entry) -> no_lt (str (snd entry)) ->
  count_occurrences "<property " (property_element entry ++ t)
  = S (count_occurrences "<property " t).
Proof.
  intros Hk Hv. unfold property_element, quoted.
  rewrite !append_assoc. count_literal.
  rewrite (count_no_lt _ _ Hk). count_literal.
  rewrite (count_no_lt _ _ Hv). count_literal.
  reflexivity.
Qed.

Lemma count_property_elements (entries : list (string * argval)) (t : string) :
  Forall (fun entry => no_lt (fst entry) /\ no_lt (str (snd entry))) entries ->
  count_occurrences "<property " (concat_strings (map property_element entries) ++ t)
  = length entries + count_occurrences "<property " t.
Proof.
  induction 1 as [|entry entries [Hk Hv] _ IH]; [reflexivity|].
  cbn [map concat_strings length]. rewrite append_assoc.
  rewrite (count_property_element _ _ Hk Hv), IH. reflexivity.
Qed.

Lemma count_build_document (buildid personal branch : argval)
      (entries : list (string * argval)) :
  no_lt (str buildid) -> no_lt (lower (str personal)) -> no_lt (str branch) ->
  Forall (fun entry => no_lt (fst entry) /\ no_lt (str (snd entry))) entries ->
  count_occurrences "<property " (build_document buildid personal branch entries)
  = length entries.
Proof.
  intros Hi Hp Hb He. unfold build_document, quoted.
  rewrite !append_assoc. count_literal.
  rewrite (count_no_lt _ _ Hp). count_literal.
  rewrite (count_no_lt _ _ Hb). count_literal.
  rewrite (count_no_lt _ _ Hi). count_literal.
  rewrite (count_property_elements _ _ He). count_literal.
  now rewrite Nat.add_0_r.
Qed.

(** C1: the builder renders one [property] element per entry of the
    properties mapping, in the order of the mapping, after the two elements
    [remote] and [branch] that every request has; the Linux build sends
    three entries ([project-default-jdk], [maven-goals], [maven-args]) and
    the HA build none.  When no value has a [<], the document of a mapping
    with N entries has N + 2 places where a [property] element starts. *)
Theorem C1_property_elements :
  (forall props : dict,
      dict_as_properties props
      = Return (concat_strings (map property_element (items props))))
  /\ (forall (buildid personal branch remote : argval) (props : dict),
         (xml <- dict_as_properties props ;;
          request_xml buildid personal branch remote (AStr xml))%result
         = Return (build_document buildid personal branch
                     (("remote", remote) :: ("branch", branch) :: items props)))
  /\ (forall user password url personal branch remote mvngoals mvnargs jdk,
         start_linux user password url personal branch remote mvngoals mvnargs jdk
         = send_request user password url
             (build_document (AStr _neo4jlinux_id) personal branch
                [("remote", remote); ("branch", branch);
                 ("project-default-jdk", AStr ("%" ++ str jdk ++ "%"));
                 ("maven-goals", mvngoals); ("maven-args", mvnargs)]))
  /\ (forall user password url personal branch remote,
         start_ha user password url personal branch remote
         = send_request user password url
             (build_document (AStr _har_id) personal branch
                             [("remote", remote); ("branch", branch)]))
  /\ (forall (buildid personal branch remote : argval) (props : dict),
         no_lt (str buildid) -> no_lt (lower (str personal)) ->
         no_lt (str branch) -> no_lt (str remote) ->
         Forall (fun entry => no_lt (fst entry) /\ no_lt (str (snd entry)))
                (items props) ->
         count_occurrences "<property "
           (build_document buildid personal branch
              (("remote", remote) :: ("branch", branch) :: items props))
         = 2 + length (items props)).
Proof.
  split; [exact dict_as_properties_spec|].
  split.
  - intros. rewrite dict_as_properties_spec. cbn [rbind].
    apply request_xml_document.
  - split; [exact start_linux_sends|]. split; [exact start_ha_sends|].
    intros buildid personal branch remote props Hi Hp Hb Hr He.
    rewrite count_build_document; try assumption; [reflexivity|].
    repeat (constructor; [split; [reflexivity | assumption]|]). exact He.
Qed.

(** ** The namespace of a successful parse

    Parsing never adds or removes an attribute of the initial namespace,
    and a value stored by an action has the type of its destination. *)

Section Namespace.

Variable p : parser.

(** [ty d v]: the value [v] is admissible for the destination [d]. *)
Variable ty : string -> argval -> bool.

Hypothesis actions_typed : Forall (action_typed p ty) (actions p).
Hypothesis initial_typed : Forall (fun kv => ty (fst kv) (snd kv) = true)
                                  (initial_namespace p).
Hypothesis ids_unique : NoDup (map action_id (actions p)).

Lemma action_id_injective (a b : action) :
  In a (actions p) -> In b (actions p) -> action_id a = action_id b -> a = b.
Proof.
  revert ids_unique. generalize (actions p) as l.
  induction l as [|x l IH]; simpl; [tauto|].
  intros Hnd Ha Hb Heq. inversion Hnd as [|y l' Hx Hl]; subst.
  destruct Ha as [->|Ha], Hb as [->|Hb]; auto.
  - exfalso. apply Hx. rewrite Heq. now apply in_map.
  - exfalso. apply Hx. rewrite <- Heq. now apply in_map.
Qed.

Lemma attr_dict_set_same (ns : dict) (d : string) (v : argval) :
  attr (dict_set ns d v) d = v.
Proof.
  unfold attr. induction ns as [|[k w] ns IH]; simpl.
  - now rewrite String.eqb_refl.
  - destruct (k =? d) eqn:Hk; simpl.
    + now rewrite String.eqb_refl.
    + now rewrite Hk.
Qed.

Lemma attr_dict_set_other (ns : dict) (d d' : string) (v : argval) :
  d <> d' -> attr (dict_set ns d v) d' = attr ns d'.
Proof.
  intros Hne. apply String.eqb_neq in Hne.
  unfold attr. induction ns as [|[k w] ns IH]; simpl.
  - now rewrite Hne.
  - destruct (String.eqb_spec k d) as [->|Hk]; simpl.
    + now rewrite Hne.
    + destruct (k =? d'); [reflexivity | exact IH].
Qed.

Lemma dict_set_keys (ns : dict) (d : string) (v : argval) :
  In d (map fst ns) -> map fst (dict_set ns d v) = map fst ns.
Proof.
  induction ns as [|[k w] ns IH]; simpl; [tauto|].
  intros H. destruct (String.eqb_spec k d) as [->|Hne]; simpl; [reflexivity|].
  f_equal. apply IH. destruct H as [H|H]; [contradiction | exact H].
Qed.

Lemma dict_set_typed (ns : dict) (d : string) (v : argval) :
  ty d v = true ->
  Forall (fun kv => ty (fst kv) (snd kv) = true) ns ->
  Forall (fun kv => ty (fst kv) (snd kv) = true) (dict_set ns d v).
Proof.
  intros Hv. induction 1 as [|[k w] ns Hk Hns IH]; simpl.
  - constructor; [exact Hv | constructor].
  - destruct (k =? d); constructor; simpl; auto.
Qed.

Lemma typed_dict_set (ns : namespace) (d : string) (v : argval) :
  typed p ty ns -> In d (keys p) -> ty d v = true -> typed p ty (dict_set ns d v).
Proof.
  intros [Hk Ht] Hd Hv. split.
  - rewrite dict_set_keys; [exact Hk | now rewrite Hk].
  - now apply dict_set_typed.
Qed.

Lemma lookup_option_in (o : string) (a : action) :
  lookup_option p o = Some a -> In a (actions p).
Proof.
  unfold lookup_option.
  destruct (find _ (option_string_actions p)) as [[o' a']|] eqn:Hf; [|discriminate].
  intros [= <-]. apply find_some in Hf. destruct Hf as [Hin _].
  unfold option_string_actions in Hin. apply in_flat_map in Hin.
  destruct Hin as [b [Hb Hin]]. apply in_map_iff in Hin.
  destruct Hin as [o'' [[= _ <-] _]]. exact Hb.
Qed.

Lemma get_option_tuples_in (s : string) (a : action) (o : string) (e : option string) :
  In (a, o, e) (get_option_tuples p s) -> In a (actions p).
Proof.
  assert (Htable : forall oa, In oa (option_string_actions p) -> In (snd oa) (actions p)).
  { intros [o' a'] Hin. unfold option_string_actions in Hin.
    apply in_flat_map in Hin. destruct Hin as [b [Hb Hin]].
    apply in_map_iff in Hin. destruct Hin as [o'' [[= _ <-] _]]. exact Hb. }
  assert (Hmatch : forall (f : string * action -> list (action * string * option string)),
             (forall oa t, In t (f oa) -> fst (fst t) = snd oa) ->
             In (a, o, e) (flat_map f (option_string_actions p)) -> In a (actions p)).
  { intros f Hf Hin. apply in_flat_map in Hin. destruct Hin as [oa [Hoa Hin]].
    apply Hf in Hin. simpl in Hin. subst a. now apply Htable. }
  unfold get_option_tuples. destruct s as [|c0 [|c1 rest]]; try (intros []).
  destruct (c1 =? "-")%char.
  - destruct (split_first "=" (String c0 (String c1 rest))) as [[b a0]|];
      apply Hmatch; intros oa t; destruct (startswith _ _); simpl;
      intuition (subst; reflexivity).
  - apply Hmatch. intros oa t.
    destruct (fst oa =? _); [simpl; intuition (subst; reflexivity)|].
    destruct (startswith _ _); simpl; intuition (subst; reflexivity).
Qed.

Lemma parse_optional_in (s : string) (a : action) (o : string) (e : option string) :
  parse_optional p s = Optional (Some a) o e -> In a (actions p).
Proof.
  unfold parse_optional. destruct s as [|c0 tail]; [discriminate|].
  destruct (negb (c0 =? "-")%char); [discriminate|].
  destruct (lookup_option p (String c0 tail)) as [a0|] eqn:Hl.
  - intros [= <- _ _]. now apply lookup_option_in in Hl.
  - destruct (tail =? ""); [discriminate|].
    destruct (split_first "=" (String c0 tail)) as [[o' e']|].
    + destruct (lookup_option p o') as [a0|] eqn:Hl'.
      * intros [= <- _ _]. now apply lookup_option_in in Hl'.
      * destruct (get_option_tuples p (String c0 tail)) as [|[[a1 o1] e1] [|]] eqn:Ht.
        -- destruct (negative_number _); [discriminate|].
           destruct (contains_char _ _); discriminate.
        -- intros [= <- <- <-]. apply (get_option_tuples_in (String c0 tail) a1 o1 e1).
           rewrite Ht. now left.
        -- discriminate.
    + destruct (get_option_tuples p (String c0 tail)) as [|[[a1 o1] e1] [|]] eqn:Ht.
      * destruct (negative_number _); [discriminate|].
        destruct (contains_char _ _); discriminate.
      * intros [= <- <- <-]. apply (get_option_tuples_in (String c0 tail) a1 o1 e1).
        rewrite Ht. now left.
      * discriminate.
Qed.

Lemma classify_known (arg_strings : list string) :
  forall l, classify p arg_strings = Some l -> Forall (class_known p) l.
Proof.
  induction arg_strings as [|s rest IH]; simpl; intros l.
  - intros [= <-]. constructor.
  - destruct (s =? "--").
    + intros [= <-]. constructor; [exact I|].
      apply Forall_forall. intros sc Hin. apply in_map_iff in Hin.
      destruct Hin as [r [<- _]]. exact I.
    + destruct (parse_optional p s) as [|a o e|] eqn:Hp; [| |discriminate];
        destruct (classify p rest) as [l'|]; try discriminate;
        intros [= <-]; constructor; auto.
      * exact I.
      * unfold class_known; simpl. destruct a as [a|]; [|exact I].
        now apply parse_optional_in in Hp.
Qed.

Lemma action_typed_in (a : action) : In a (actions p) -> action_typed p ty a.
Proof.
  intros Hin. exact (proj1 (Forall_forall _ _) actions_typed a Hin).
Qed.

Lemma store_typed (st : parse_state) (a : action) (v : argval) :
  In a (actions p) -> v <> ANone ->
  state_typed p ty st ->
  (forall d, dest a = Some d -> In d (keys p) /\ ty d v = true) ->
  state_typed p ty (store st a v).
Proof.
  intros Ha Hv (Hns & Hpos & Hseen) Hd. split; [|split; [exact Hpos|]].
  - unfold store; simpl. destruct (dest a) as [d|]; [|exact Hns].
    destruct (Hd d eq_refl). now apply typed_dict_set.
  - intros b d Hb Hin Hdest. unfold store in *; simpl in *.
    assert (Hold : b <> a -> attr (st_namespace st) d <> ANone).
    { intros Hne. apply (Hseen b d Hb); [|exact Hdest].
      destruct Hin as [Hid|Hin]; [|exact Hin].
      exfalso. apply Hne. now apply action_id_injective. }
    destruct (dest a) as [d0|] eqn:Hd0.
    + destruct (String.eqb_spec d0 d) as [->|Hne].
      * now rewrite attr_dict_set_same.
      * rewrite attr_dict_set_other by exact Hne.
        apply Hold. intros ->. congruence.
    + apply Hold. intros ->. congruence.
Qed.

Lemma take_action_typed (st st' : parse_state) (a : action) (args : list string) :
  In a (actions p) -> state_typed p ty st ->
  take_action p st a args = Go st' -> state_typed p ty st'.
Proof.
  intros Ha Hst. pose proof (action_typed_in a Ha) as Hin.
  unfold take_action, action_typed in *.
  destruct (negb _) eqn:Hok; [discriminate|].
  destruct (existsb _ _); [discriminate|].
  apply negb_false_iff in Hok.
  destruct (kind a) eqn:Hk.
  - destruct args as [|v [|]]; try discriminate.
    intros [= <-]. apply store_typed; [exact Ha | discriminate | exact Hst|].
    intros d Hd. rewrite Hd in Hin. destruct Hin as [Hkeys Hty].
    split; [exact Hkeys|]. apply Hty.
    destruct (choices a); [exact Hok | reflexivity].
  - intros [= <-]. apply store_typed; [exact Ha | discriminate | exact Hst|].
    intros d Hd. now rewrite Hd in Hin.
  - intros [= <-]. apply store_typed; [exact Ha | discriminate | exact Hst|].
    intros d Hd. now rewrite Hd in Hin.
  - discriminate.
Qed.

Lemma take_actions_typed (tuples : list (action * list string)) :
  forall st st', tuples_known p tuples -> state_typed p ty st ->
                 take_actions p st tuples = Go st' -> state_typed p ty st'.
Proof.
  induction tuples as [|[a args] tuples IH]; simpl; intros st st' Hk Hst.
  - now intros [= <-].
  - inversion Hk as [|t ts Ha Hts]; subst.
    destruct (take_action p st a args) as [st1|r] eqn:Hta; [|discriminate].
    apply IH; [exact Hts|]. eapply take_action_typed; eauto.
Qed.

Lemma take_action_halt (st : parse_state) (a : action) (args : list string)
      (r : parse_result) (ns : namespace) :
  take_action p st a args = Halt r -> r <> Parsed ns.
Proof.
  unfold take_action. destruct (negb _); [now intros [= <-]|].
  destruct (existsb _ _); [now intros [= <-]|].
  destruct (kind a); try discriminate; try (now intros [= <-]).
  destruct args as [|v [|]]; try discriminate; now intros [= <-].
Qed.

Lemma take_actions_halt (tuples : list (action * list string)) :
  forall st r ns, take_actions p st tuples = Halt r -> r <> Parsed ns.
Proof.
  induction tuples as [|[a args] tuples IH]; simpl; intros st r ns; [discriminate|].
  destruct (take_action p st a args) as [st1|r1] eqn:Hta.
  - apply IH.
  - intros [= <-]. eapply take_action_halt; eauto.
Qed.

Lemma tuples_known_snoc (tuples : list (action * list string)) (a : action)
      (args : list string) :
  tuples_known p tuples -> In a (actions p) -> tuples_known p (tuples ++ [(a, args)]).
Proof.
  intros Hk Ha. apply Forall_app. split; [exact Hk|].
  constructor; [exact Ha | constructor].
Qed.

Lemma explicit_loop_known (e : string) :
  forall a single_dash tuples,
    In a (actions p) -> tuples_known p tuples ->
    match explicit_loop p a single_dash e tuples with
    | GroupError => True
    | GroupDone ts => tuples_known p ts
    | GroupOpen ts a' => tuples_known p ts /\ In a' (actions p)
    end.
Proof.
  induction e as [|c e IH]; intros a single_dash tuples Ha Hk; simpl.
  - destruct (takes_argument a); [now apply tuples_known_snoc|].
    now destruct single_dash.
  - destruct (takes_argument a); [now apply tuples_known_snoc|].
    destruct single_dash; [|exact I].
    destruct (lookup_option p (String "-" (String c ""))) as [a'|] eqn:Hl; [|exact I].
    apply lookup_option_in in Hl.
    destruct e as [|c' e'].
    + split; [now apply tuples_known_snoc | exact Hl].
    + apply IH; [exact Hl | now apply tuples_known_snoc].
Qed.

Lemma add_extra_typed (st : parse_state) (s : string) :
  state_typed p ty st -> state_typed p ty (add_extra st s).
Proof. intros H; exact H. Qed.

Lemma pop_positional_typed (st : parse_state) :
  state_typed p ty st -> state_typed p ty (pop_positional st).
Proof.
  intros (Hns & Hpos & Hseen). split; [exact Hns|]. split; [|exact Hseen]. simpl.
  destruct (st_positionals st); [constructor | now inversion Hpos].
Qed.

Lemma mem_string_in (x : string) (l : list string) :
  mem_string x l = true -> In x l.
Proof.
  unfold mem_string. intros H. apply existsb_exists in H.
  destruct H as [y [Hy Heq]]. apply String.eqb_eq in Heq. now subst y.
Qed.

(** When the parse ends well, the namespace is that of the last state and
    every required action has been seen. *)
Lemma finish_namespace (st : parse_state) (ns : namespace) :
  finish p st = Parsed ns ->
  ns = st_namespace st
  /\ forall a, In a (actions p) -> required a = true -> In (action_id a) (st_seen st).
Proof.
  unfold finish. destruct (existsb _ _) eqn:He; [discriminate|].
  destruct (st_extras st); [|discriminate]. intros [= <-]. split; [reflexivity|].
  intros a Ha Hr. apply mem_string_in.
  destruct (mem_string (action_id a) (st_seen st)) eqn:Hm; [reflexivity|].
  assert (Hex : existsb (fun a => required a && negb (mem_string (action_id a) (st_seen st)))
                        (actions p) = true).
  { apply existsb_exists. exists a. split; [exact Ha|]. now rewrite Hr, Hm. }
  rewrite He in Hex. discriminate.
Qed.

Lemma finish_typed (st : parse_state) (ns : namespace) :
  state_typed p ty st -> finish p st = Parsed ns ->
  typed p ty ns /\ required_set p ns.
Proof.
  intros (Hns & _ & Hseen) Hf. apply finish_namespace in Hf.
  destruct Hf as [-> Hreq]. split; [exact Hns|].
  apply Forall_forall. intros d Hd. unfold required_dests in Hd.
  apply in_flat_map in Hd. destruct Hd as [a [Ha Hd]].
  destruct (required a) eqn:Hr; [|contradiction].
  destruct (dest a) as [d'|] eqn:Hdest; [|contradiction].
  destruct Hd as [<-|[]]. apply (Hseen a d' Ha); [|exact Hdest].
  now apply Hreq.
Qed.

Lemma consume_typed (l : list (string * arg_class)) :
  forall pending after st ns,
    Forall (class_known p) l -> pending_known p pending -> state_typed p ty st ->
    consume p l pending after st = Parsed ns ->
    typed p ty ns /\ required_set p ns.
Proof.
  induction l as [|[s c] l IH]; intros pending after st ns Hl Hp Hst; simpl.
  - destruct pending; [discriminate|]. now apply finish_typed.
  - inversion Hl as [|sc l' Hc Hl']; subst. unfold class_known in Hc; simpl in Hc.
    destruct pending as [[tuples a]|].
    + destruct Hp as [Hk Ha].
      destruct c; try discriminate.
      destruct (take_actions p st (tuples ++ [(a, [s])])) as [st'|r] eqn:Hta.
      * apply IH; [exact Hl' | exact I|].
        eapply take_actions_typed; [|exact Hst|exact Hta].
        now apply tuples_known_snoc.
      * intros ->. now apply take_actions_halt with (ns := ns) in Hta.
    + destruct c as [|[a|] o e|].
      * destruct (st_positionals st) as [|a pos] eqn:Hpos.
        -- apply IH; [exact Hl' | exact I | now apply add_extra_typed].
        -- destruct (take_action p (pop_positional st) a [s]) as [st'|r] eqn:Hta.
           ++ apply IH; [exact Hl' | exact I|].
              eapply take_action_typed; [|apply pop_positional_typed; exact Hst|exact Hta].
              destruct Hst as (_ & Hf & _). rewrite Hpos in Hf. now inversion Hf.
           ++ intros ->. now apply take_action_halt with (ns := ns) in Hta.
      * assert (Hg : match (match e with
                            | Some e0 => explicit_loop p a (single_dash_option o) e0 []
                            | None => GroupOpen [] a
                            end) with
                     | GroupError => True
                     | GroupDone ts => tuples_known p ts
                     | GroupOpen ts a' => tuples_known p ts /\ In a' (actions p)
                     end).
        { destruct e as [e0|].
          - apply explicit_loop_known; [exact Hc | constructor].
          - split; [constructor | exact Hc]. }
        destruct (match e with
                  | Some e0 => explicit_loop p a (single_dash_option o) e0 []
                  | None => GroupOpen [] a
                  end) as [|tuples|tuples a'].
        -- discriminate.
        -- destruct (take_actions p st tuples) as [st'|r] eqn:Hta.
           ++ apply IH; [exact Hl' | exact I|].
              eapply take_actions_typed; [exact Hg|exact Hst|exact Hta].
           ++ intros ->. now apply take_actions_halt with (ns := ns) in Hta.
        -- destruct Hg as [Hk Ha'].
           destruct (takes_argument a').
           ++ apply IH; [exact Hl' | now split | exact Hst].
           ++ destruct (take_actions p st (tuples ++ [(a', [])])) as [st'|r] eqn:Hta.
              ** apply IH; [exact Hl' | exact I|].
                 eapply take_actions_typed; [|exact Hst|exact Hta].
                 now apply tuples_known_snoc.
              ** intros ->. now apply take_actions_halt with (ns := ns) in Hta.
      * apply IH; [exact Hl' | exact I | now apply add_extra_typed].
      * apply IH; [exact Hl' | exact I|].
        destruct (_ || _); [exact Hst | now apply add_extra_typed].
Qed.

(** The namespace of a successful parse has the attributes of the initial
    namespace, in the same order, with admissible values, and the
    destinations of the required actions are set. *)
Lemma parse_args_typed (arg_strings : list string) (ns : namespace) :
  parse_args p arg_strings = Parsed ns -> typed p ty ns /\ required_set p ns.
Proof.
  unfold parse_args. destruct (classify p arg_strings) as [l|] eqn:Hc; [|discriminate].
  apply consume_typed; [now apply (classify_known arg_strings) | exact I|].
  split; [|split]; simpl.
  - split; [reflexivity | exact initial_typed].
  - apply Forall_forall. intros a Ha. apply filter_In in Ha. tauto.
  - intros a d _ [].
Qed.

End Namespace.

(** ** The namespaces of the three parsers *)

Ltac typed_actions p :=
  let acts := eval vm_compute in (actions p) in
  let ks := eval vm_compute in (keys p) in
  change (actions p) with acts;
  repeat (apply Forall_cons || apply Forall_nil);
  unfold action_typed; cbn [dest kind choices];
  change (keys p) with ks;
  try exact I;
  (split; [simpl; tauto
          | first [reflexivity
                  | intros s Hs; first [reflexivity | exact Hs]]]).

Ltac unique_ids p :=
  let ids := eval vm_compute in (map action_id (actions p)) in
  change (map action_id (actions p)) with ids;
  repeat (apply NoDup_cons; [simpl; intuition discriminate|]); apply NoDup_nil.

Lemma linux_parser_typed (subargs : list string) (ns : namespace) :
  parse_args linux_parser subargs = Parsed ns ->
  typed linux_parser dest_type ns /\ required_set linux_parser ns.
Proof.
  apply parse_args_typed.
  - typed_actions linux_parser.
  - repeat constructor.
  - unique_ids linux_parser.
Qed.

Lemma har_parser_typed (subargs : list string) (ns : namespace) :
  parse_args har_parser subargs = Parsed ns ->
  typed har_parser dest_type ns /\ required_set har_parser ns.
Proof.
  apply parse_args_typed.
  - typed_actions har_parser.
  - repeat constructor.
  - unique_ids har_parser.
Qed.

Lemma command_parser_typed (args : list string) (ns : namespace) :
  parse_args command_parser args = Parsed ns ->
  typed command_parser dest_type ns /\ required_set command_parser ns.
Proof.
  apply parse_args_typed.
  - typed_actions command_parser.
  - repeat constructor.
  - unique_ids command_parser.
Qed.

(** Reading the entries of a namespace off its list of keys. *)
Ltac namespace_entries Hk ns :=
  repeat (let k := fresh "k" in
          let v := fresh "v" in
          destruct ns as [|[k v] ns]; [discriminate Hk|];
          cbn [map fst] in Hk;
          injection Hk as -> Hk);
  destruct ns; [clear Hk | discriminate Hk].

Ltac namespace_types Ht :=
  repeat match type of Ht with
         | Forall _ (_ :: _) =>
             let H := fresh "Hv" in
             let H' := fresh "Ht" in
             apply Forall_cons_iff in Ht; destruct Ht as [H H'];
             cbn -[mem_string] in H; rename H' into Ht
         end.

Ltac required_values Hr p :=
  let ds := eval vm_compute in (required_dests p) in
  unfold required_set in Hr; change (required_dests p) with ds in Hr;
  repeat match type of Hr with
         | Forall _ (_ :: _) =>
             let H := fresh "Hset" in
             let H' := fresh "Hr" in
             apply Forall_cons_iff in Hr; destruct Hr as [H H'];
             cbn in H; rename H' into Hr
         end.

Lemma linux_namespace_shape (ns : namespace) :
  typed linux_parser dest_type ns /\ required_set linux_parser ns ->
  exists (user password branch remote teamcity : string) (personal : bool)
         (maven_goals maven_args jdk : string),
    ns = [("user", AStr user); ("password", AStr password); ("remote", AStr remote);
          ("teamcity", AStr teamcity); ("personal", ABool personal);
          ("maven_goals", AStr maven_goals); ("maven_args", AStr maven_args);
          ("branch", AStr branch); ("jdk", AStr jdk)]
    /\ In jdk _linux_jdks.
Proof.
  intros [[Hk Ht] Hr].
  change (keys linux_parser)
    with ["user"; "password"; "remote"; "teamcity"; "personal"; "maven_goals";
          "maven_args"; "branch"; "jdk"] in Hk.
  namespace_entries Hk ns. namespace_types Ht. required_values Hr linux_parser.
  destruct v as [| |user]; try discriminate; try contradiction.
  destruct v0 as [| |password]; try discriminate; try contradiction.
  destruct v1 as [| |remote]; try discriminate.
  destruct v2 as [| |teamcity]; try discriminate.
  destruct v3 as [|personal|]; try discriminate.
  destruct v4 as [| |maven_goals]; try discriminate.
  destruct v5 as [| |maven_args]; try discriminate.
  destruct v6 as [| |branch]; try discriminate; try contradiction.
  destruct v7 as [| |jdk]; try discriminate.
  exists user, password, branch, remote, teamcity, personal, maven_goals, maven_args, jdk.
  split; [reflexivity|]. now apply mem_string_in.
Qed.

Lemma har_namespace_shape (ns : namespace) :
  typed har_parser dest_type ns /\ required_set har_parser ns ->
  exists (user password branch remote teamcity : string) (personal : bool),
    ns = [("user", AStr user); ("password", AStr password); ("remote", AStr remote);
          ("teamcity", AStr teamcity); ("personal", ABool personal);
          ("branch", AStr branch)].
Proof.
  intros [[Hk Ht] Hr].
  change (keys har_parser)
    with ["user"; "password"; "remote"; "teamcity"; "personal"; "branch"] in Hk.
  namespace_entries Hk ns. namespace_types Ht. required_values Hr har_parser.
  destruct v as [| |user]; try discriminate; try contradiction.
  destruct v0 as [| |password]; try discriminate; try contradiction.
  destruct v1 as [| |remote]; try discriminate.
  destruct v2 as [| |teamcity]; try discriminate.
  destruct v3 as [|personal|]; try discriminate.
  destruct v4 as [| |branch]; try discriminate; try contradiction.
  now exists user, password, branch, remote, teamcity, personal.
Qed.

Lemma run_parser_parsed (p : parser) (arg_strings : list string) (ns : namespace) :
  parse_args p arg_strings = Parsed ns -> run_parser p arg_strings = ret ns.
Proof.
  unfold run_parser. now intros ->.
Qed.

Ltac run_handler :=
  repeat first [ rewrite bind_ret
               | rewrite bind_lift_return
               | progress cbn [getattr find fst snd String.eqb Ascii.eqb Bool.eqb
                               tc_mvn_args] ].

(** What [TC.linux] does once its arguments parse: every attribute it reads
    is there, the required ones are strings, and it sends the document of
    the Linux build with the values of the namespace. *)
Lemma TC_linux_parsed (subargs : list string) (ns : namespace) :
  parse_args linux_parser subargs = Parsed ns ->
  exists (user password branch remote teamcity : string) (personal : bool)
         (maven_goals maven_args jdk : string),
    ns = [("user", AStr user); ("password", AStr password); ("remote", AStr remote);
          ("teamcity", AStr teamcity); ("personal", ABool personal);
          ("maven_goals", AStr maven_goals); ("maven_args", AStr maven_args);
          ("branch", AStr branch); ("jdk", AStr jdk)]
    /\ In jdk _linux_jdks
    /\ TC_linux subargs
       = send_request (AStr user) (AStr password) (AStr teamcity)
           (build_document (AStr _neo4jlinux_id) (ABool personal) (AStr branch)
              [("remote", AStr remote); ("branch", AStr branch);
               ("project-default-jdk", AStr ("%" ++ jdk ++ "%"));
               ("maven-goals", AStr maven_goals);
               ("maven-args",
                AStr ("-DfailIfNoTests=false -Dmaven.test.failure.ignore=true --show-version "
                        ++ maven_args))]).
Proof.
  intros Hp.
  destruct (linux_namespace_shape _ (linux_parser_typed subargs _ Hp))
    as (user & password & branch & remote & teamcity & personal
        & maven_goals & maven_args & jdk & -> & Hjdk).
  exists user, password, branch, remote, teamcity, personal, maven_goals, maven_args, jdk.
  split; [reflexivity|]. split; [exact Hjdk|].
  unfold TC_linux. rewrite (run_parser_parsed _ _ _ Hp).
  run_handler. apply start_linux_sends.
Qed.

(** What [TC.har] does once its arguments parse. *)
Lemma TC_har_parsed (subargs : list string) (ns : namespace) :
  parse_args har_parser subargs = Parsed ns ->
  exists (user password branch remote teamcity : string) (personal : bool),
    ns = [("user", AStr user); ("password", AStr password); ("remote", AStr remote);
          ("teamcity", AStr teamcity); ("personal", ABool personal);
          ("branch", AStr branch)]
    /\ TC_har subargs
       = send_request (AStr user) (AStr password) (AStr teamcity)
           (build_document (AStr _har_id) (ABool personal) (AStr branch)
              [("remote", AStr remote); ("branch", AStr branch)]).
Proof.
  intros Hp.
  destruct (har_namespace_shape _ (har_parser_typed subargs _ Hp))
    as (user & password & branch & remote & teamcity & personal & ->).
  exists user, password, branch, remote, teamcity, personal.
  split; [reflexivity|].
  unfold TC_har. rewrite (run_parser_parsed _ _ _ Hp).
  run_handler. apply start_ha_sends.
Qed.

(** ** The dispatcher *)

Lemma parse_optional_positional (p : parser) (s : string) :
  is_flag s = false -> parse_optional p s = NotOptional.
Proof.
  destruct s as [|c tail]; [reflexivity|]. simpl. now intros ->.
Qed.

Lemma not_flag_not_dashes (s : string) : is_flag s = false -> (s =? "--") = false.
Proof.
  destruct s as [|c tail]; [reflexivity|]. simpl. now intros ->.
Qed.

(** A first argument that does not start with a dash is the command. *)
Lemma parse_command (name : string) :
  is_flag name = false ->
  parse_args command_parser [name] = Parsed [("command", AStr name)].
Proof.
  intros Hf.
  assert (Hc : classify command_parser [name] = Some [(name, ClassA)]).
  { cbn [classify]. rewrite (not_flag_not_dashes _ Hf).
    now rewrite (parse_optional_positional _ _ Hf). }
  unfold parse_args. rewrite Hc. reflexivity.
Qed.

(** The command line without any argument is a usage error. *)
Lemma TC_init_no_argument (again : M unit) :
  TC_init_body again [] = ([PrintUsageError], Raise (SystemExit 2)).
Proof. reflexivity. Qed.

Lemma TC_init_command (name : string) (subargs : list string) :
  is_flag name = false ->
  TC_init (name :: subargs)
  = match TC_attribute name with
    | None =>
        ([Printed [PyStr "Unrecognized command:"; PyStr name]; PrintHelp],
         Raise (SystemExit 1))
    | Some Linux => TC_linux subargs
    | Some Har => TC_har subargs
    | Some Init | Some Class => TC_init subargs
    | Some ReturnsQuietly => ret tt
    | Some RaisesTypeError => raise TypeError
    end.
Proof.
  intros Hf. cbn [TC_init]. unfold TC_init_body. cbn [firstn tl].
  rewrite (run_parser_parsed _ _ _ (parse_command _ Hf)).
  run_handler.
  destruct (TC_attribute name) as [[]|]; reflexivity.
Qed.

Lemma main_linux (subargs : list string) : main ("linux" :: subargs) = TC_linux subargs.
Proof. unfold main. now rewrite TC_init_command. Qed.

Lemma main_har (subargs : list string) : main ("har" :: subargs) = TC_har subargs.
Proof. unfold main. now rewrite TC_init_command. Qed.

(** ** The transport *)

(** The outcomes of [send_request], case by case. *)
Lemma send_request_cases (user password url : argval) (data : string) :
  send_request user password url data
  = match build_queue_url url with
    | Raise e => ([], Raise e)
    | Return target =>
        let sent := Post target (user, password) _headers data in
        match server target (user, password) _headers data with
        | Raise e => ([sent], Raise e)
        | Return resp =>
            if ok resp then
              let started := Printed [PyStr "Build started. View status at"] in
              match json resp with
              | None => ([sent; started], Raise ValueError)
              | Some body =>
                  match get body "webUrl" with
                  | Return web_url => ([sent; started; Printed [web_url]], Return tt)
                  | Raise e => ([sent; started], Raise e)
                  end
              end
            else
              ([sent;
                Printed [PyStr "Could not start build:"];
                Printed [PyInt (status_code resp)];
                Printed [match json resp with
                       | Some body => body
                       | None => PyStr (text resp)
                       end]],
               Raise (SystemExit 1))
        end
    end.
Proof.
  unfold send_request, post, resp_json.
  destruct (build_queue_url url) as [target|e]; [|reflexivity].
  cbn [lift bind emit]. 
  destruct (server target (user, password) _headers data) as [resp|e]; [|reflexivity].
  cbn. destruct (ok resp).
  - destruct (json resp) as [body|]; [|reflexivity].
    cbn. destruct (get body "webUrl"); reflexivity.
  - destruct (json resp); reflexivity.
Qed.

Lemma string_filter_id (keep : ascii -> bool) (s : string) :
  string_forall keep s = true -> string_filter keep s = s.
Proof.
  induction s as [|c s IH]; simpl; [reflexivity|].
  intros H. apply andb_true_iff in H. destruct H as [-> H]. now rewrite IH.
Qed.

Lemma string_forall_impl (f g : ascii -> bool) (s : string) :
  (forall c, f c = true -> g c = true) ->
  string_forall f s = true -> string_forall g s = true.
Proof.
  intros Hfg. induction s as [|c s IH]; simpl; [reflexivity|].
  intros H. apply andb_true_iff in H. destruct H as [Hc H].
  now rewrite (Hfg c Hc), IH.
Qed.


Lemma contains_char_none (x : ascii) (s : string) :
  string_forall (fun c => negb (c =? x)%char) s = true -> contains_char x s = false.
Proof.
  induction s as [|c s IH]; simpl; [reflexivity|].
  intros H. apply andb_true_iff in H. destruct H as [Hc H].
  apply negb_true_iff in Hc. now rewrite Hc, IH.
Qed.

Lemma plain_netloc_char_facts (c : ascii) :
  plain_netloc_char c = true ->
  negb (unsafe_url_byte c) = true /\ negb (netloc_delimiter c) = true
  /\ negb (c =? "[")%char = true /\ negb (c =? "]")%char = true
  /\ is_ascii c = true.
Proof.
  unfold plain_netloc_char. intros H.
  repeat (apply andb_true_iff in H; destruct H as [H ?]).
  repeat split; try assumption.
  apply negb_true_iff in H. apply negb_true_iff.
  unfold c0_control_or_space in H. unfold unsafe_url_byte.
  destruct (Ascii.eqb_spec c "009") as [->|]; [discriminate H|].
  destruct (Ascii.eqb_spec c "013") as [->|]; [discriminate H|].
  destruct (Ascii.eqb_spec c "010") as [->|]; [discriminate H|].
  reflexivity.
Qed.

Lemma string_filter_app (keep : ascii -> bool) (a b : string) :
  string_filter keep (a ++ b) = string_filter keep a ++ string_filter keep b.
Proof.
  induction a as [|c a IH]; simpl; [reflexivity|].
  destruct (keep c); simpl; now rewrite IH.
Qed.




Lemma ok_success (resp : Response) :
  (200 <= status_code resp < 300)%Z -> ok resp = true.
Proof.
  intros H. unfold ok. destruct (Z.leb_spec 400 (status_code resp)); [lia | reflexivity].
Qed.

Lemma ok_failure (resp : Response) :
  (400 <= status_code resp < 600)%Z -> ok resp = false.
Proof.
  intros H. unfold ok.
  destruct (Z.leb_spec 400 (status_code resp)); [|lia].
  destruct (Z.ltb_spec (status_code resp) 600); [reflexivity | lia].
Qed.


Lemma send_request_failure (user password url : argval) (data target : string)
      (resp : Response) :
  build_queue_url url = Return target ->
  server target (user, password) _headers data = Return resp ->
  (400 <= status_code resp < 600)%Z ->
  send_request user password url data
  = ([Post target (user, password) _headers data;
      Printed [PyStr "Could not start build:"];
      Printed [PyInt (status_code resp)];
      Printed [match json resp with
             | Some body => body
             | None => PyStr (text resp)
             end]],
     Raise (SystemExit 1)).
Proof.
  intros Hu Hs Hc. rewrite send_request_cases, Hu. cbv zeta.
  now rewrite Hs, (ok_failure _ Hc).
Qed.

Lemma send_request_started (user password url : argval) (data target : string)
      (resp : Response) (body web_url : pyobj) :
  build_queue_url url = Return target ->
  server target (user, password) _headers data = Return resp ->
  ok resp = true ->
  json resp = Some body ->
  get body "webUrl" = Return web_url ->
  send_request user password url data
  = ([Post target (user, password) _headers data;
      Printed [PyStr "Build started. View status at"];
      Printed [web_url]],
     Return tt).
Proof.
  intros Hu Hs Hok Hj Hg. rewrite send_request_cases, Hu. cbv zeta.
  now rewrite Hs, Hok, Hj, Hg.
Qed.

Lemma get_absent (d : list (string * pyobj)) (key : string) :
  find (fun kv => fst kv =? key) d = None -> get (PyDict d) key = Return PyNone.
Proof. unfold get. now intros ->. Qed.

Lemma run_parser_error (p : parser) (arg_strings : list string) :
  parse_args p arg_strings = ArgError ->
  run_parser p arg_strings = ([PrintUsageError], Raise (SystemExit 2)).
Proof. unfold run_parser. now intros ->. Qed.

Lemma TC_init_usage_error (argv : list string) :
  parse_args command_parser (firstn 1 argv) = ArgError ->
  TC_init argv = ([PrintUsageError], Raise (SystemExit 2)).
Proof.
  intros H. destruct argv as [|a rest]; cbn [TC_init]; unfold TC_init_body;
    now rewrite (run_parser_error _ _ H).
Qed.

Lemma TC_linux_usage_error (subargs : list string) :
  parse_args linux_parser subargs = ArgError ->
  TC_linux subargs = ([PrintUsageError], Raise (SystemExit 2)).
Proof. intros H. unfold TC_linux. now rewrite (run_parser_error _ _ H). Qed.

Lemma TC_har_usage_error (subargs : list string) :
  parse_args har_parser subargs = ArgError ->
  TC_har subargs = ([PrintUsageError], Raise (SystemExit 2)).
Proof. intros H. unfold TC_har. now rewrite (run_parser_error _ _ H). Qed.

(** ** The claims about the transport and the exit status *)


(** C3 (as amended): when the status code of the response is between 400
    and 599, the program prints the code, then the decoded JSON body if the
    body decodes and the text of the response otherwise, and exits with
    status 1. *)
Theorem C3_failure_report :
  forall (argv : list string) (user password url : argval) (data target : string)
         (resp : Response),
    main argv = send_request user password url data ->
    build_queue_url url = Return target ->
    server target (user, password) _headers data = Return resp ->
    (400 <= status_code resp < 600)%Z ->
    trace (main argv)
    = [Post target (user, password) _headers data;
       Printed [PyStr "Could not start build:"];
       Printed [PyInt (status_code resp)];
       Printed [match json resp with
              | Some body => body
              | None => PyStr (text resp)
              end]]
    /\ exit_status (main argv) = 1%Z.
Proof.
  intros argv user password url data target resp Hm Hu Hs Hc.
  rewrite Hm, (send_request_failure _ _ _ _ _ _ Hu Hs Hc). split; reflexivity.
Qed.

(** C4: when the response has a 2xx status and its body is a JSON object
    with a string field [webUrl], the program prints the success message and
    that URL, and the process exits with status 0. *)
Theorem C4_success :
  forall (argv : list string) (user password url : argval) (data target : string)
         (resp : Response) (d : list (string * pyobj)) (web_url : string),
    main argv = send_request user password url data ->
    build_queue_url url = Return target ->
    server target (user, password) _headers data = Return resp ->
    (200 <= status_code resp < 300)%Z ->
    json resp = Some (PyDict d) ->
    get (PyDict d) "webUrl" = Return (PyStr web_url) ->
    trace (main argv)
    = [Post target (user, password) _headers data;
       Printed [PyStr "Build started. View status at"];
       Printed [PyStr web_url]]
    /\ exit_status (main argv) = 0%Z.
Proof.
  intros argv user password url data target resp d web_url Hm Hu Hs Hc Hj Hg.
  rewrite Hm, (send_request_started _ _ _ _ _ _ _ _ Hu Hs (ok_success _ Hc) Hj Hg).
  split; reflexivity.
Qed.

(** C5 (as amended): the exit status is 0 on success, 1 for an unrecognized
    command, for a response with a status from 400 to 599 and for a
    transport that raises, and 2 when the command line does not parse, be it
    that of the command or that of [linux] or [har]. *)
Theorem C5_exit_status :
  (forall (argv : list string) (user password url : argval) (data target : string)
          (resp : Response) (d : list (string * pyobj)),
      main argv = send_request user password url data ->
      build_queue_url url = Return target ->
      server target (user, password) _headers data = Return resp ->
      (200 <= status_code resp < 300)%Z ->
      json resp = Some (PyDict d) ->
      exit_status (main argv) = 0%Z)
  /\ (forall (name : string) (subargs : list string),
         is_flag name = false -> hasattr_TC name = false ->
         exit_status (main (name :: subargs)) = 1%Z)
  /\ (forall (argv : list string) (user password url : argval) (data target : string)
             (resp : Response),
         main argv = send_request user password url data ->
         build_queue_url url = Return target ->
         server target (user, password) _headers data = Return resp ->
         (400 <= status_code resp < 600)%Z ->
         exit_status (main argv) = 1%Z)
  /\ (forall (argv : list string) (user password url : argval) (data target : string),
         main argv = send_request user password url data ->
         build_queue_url url = Return target ->
         server target (user, password) _headers data = Raise RequestException ->
         exit_status (main argv) = 1%Z)
  /\ (forall argv : list string,
         parse_args command_parser (firstn 1 argv) = ArgError ->
         exit_status (main argv) = 2%Z)
  /\ (forall subargs : list string,
         parse_args linux_parser subargs = ArgError ->
         exit_status (main ("linux" :: subargs)) = 2%Z)
  /\ (forall subargs : list string,
         parse_args har_parser subargs = ArgError ->
         exit_status (main ("har" :: subargs)) = 2%Z).
Proof.
  repeat split.
  - intros argv user password url data target resp d Hm Hu Hs Hc Hj.
    rewrite Hm, send_request_cases, Hu. cbv zeta.
    rewrite Hs, (ok_success _ Hc), Hj. unfold get.
    destruct (find _ d); reflexivity.
  - intros name subargs Hf Ha. unfold main, hasattr_TC in *.
    rewrite (TC_init_command _ _ Hf).
    destruct (TC_attribute name); [discriminate | reflexivity].
  - intros argv user password url data target resp Hm Hu Hs Hc.
    now rewrite Hm, (send_request_failure _ _ _ _ _ _ Hu Hs Hc).
  - intros argv user password url data target Hm Hu Hs.
    rewrite Hm, send_request_cases, Hu. cbv zeta. now rewrite Hs.
  - intros argv H. unfold main. now rewrite (TC_init_usage_error _ H).
  - intros subargs H. now rewrite main_linux, (TC_linux_usage_error _ H).
  - intros subargs H. now rewrite main_har, (TC_har_usage_error _ H).
Qed.



(** C10: when the response has a 2xx status and its body is a JSON object
    without the field [webUrl], the program does not fail: it prints the
    success message, then [None], and the process exits with status 0. *)
Theorem C10_missing_web_url :
  forall (argv : list string) (user password url : argval) (data target : string)
         (resp : Response) (d : list (string * pyobj)),
    main argv = send_request user password url data ->
    build_queue_url url = Return target ->
    server target (user, password) _headers data = Return resp ->
    (200 <= status_code resp < 300)%Z ->
    json resp = Some (PyDict d) ->
    find (fun kv => fst kv =? "webUrl") d = None ->
    trace (main argv)
    = [Post target (user, password) _headers data;
       Printed [PyStr "Build started. View status at"];
       Printed [PyNone]]
    /\ exit_status (main argv) = 0%Z.
Proof.
  intros argv user password url data target resp d Hm Hu Hs Hc Hj Hg.
  rewrite Hm, (send_request_started _ _ _ _ _ _ _ _ Hu Hs (ok_success _ Hc) Hj (get_absent _ _ Hg)).
  split; reflexivity.
Qed.

(** * Further properties of the program *)

(** ** Every run *)

Lemma run_parser_help (p : parser) (arg_strings : list string) :
  parse_args p arg_strings = HelpExit ->
  run_parser p arg_strings = ([PrintHelp], Raise (SystemExit 0)).
Proof. unfold run_parser. now intros ->. Qed.

Lemma command_namespace_shape (ns : namespace) :
  typed command_parser dest_type ns /\ required_set command_parser ns ->
  exists name : string, ns = [("command", AStr name)].
Proof.
  intros [[Hk Ht] Hr].
  change (keys command_parser) with ["command"] in Hk.
  namespace_entries Hk ns. namespace_types Ht. required_values Hr command_parser.
  destruct v as [| |name]; try discriminate; try contradiction.
  now exists name.
Qed.

Lemma TC_linux_kind (subargs : list string) : run_kind (TC_linux subargs).
Proof.
  destruct (parse_args linux_parser subargs) as [ns| |] eqn:Hp.
  - destruct (TC_linux_parsed subargs _ Hp)
      as (user & password & branch & remote & teamcity & personal
          & maven_goals & maven_args & jdk & _ & Hjdk & ->).
    now apply LinuxBuild.
  - unfold TC_linux. rewrite (run_parser_help _ _ Hp). apply HelpShown.
  - rewrite (TC_linux_usage_error _ Hp). apply UsageError.
Qed.

Lemma TC_har_kind (subargs : list string) : run_kind (TC_har subargs).
Proof.
  destruct (parse_args har_parser subargs) as [ns| |] eqn:Hp.
  - destruct (TC_har_parsed subargs _ Hp)
      as (user & password & branch & remote & teamcity & personal & _ & ->).
    apply HarBuild.
  - unfold TC_har. rewrite (run_parser_help _ _ Hp). apply HelpShown.
  - rewrite (TC_har_usage_error _ Hp). apply UsageError.
Qed.

Lemma TC_init_kind (argv : list string) : run_kind (TC_init argv).
Proof.
  induction argv as [|a rest IH].
  - cbn [TC_init]. rewrite TC_init_no_argument. apply UsageError.
  - cbn [TC_init]. unfold TC_init_body. cbn [firstn tl].
    destruct (parse_args command_parser [a]) as [ns| |] eqn:Hp.
    + destruct (command_namespace_shape _ (command_parser_typed _ _ Hp)) as [name ->].
      rewrite (run_parser_parsed _ _ _ Hp). run_handler.
      destruct (TC_attribute name) as [[]|].
      * apply TC_linux_kind.
      * apply TC_har_kind.
      * exact IH.
      * exact IH.
      * apply QuietAttribute.
      * apply UncallableAttribute.
      * apply UnrecognizedCommand.
    + rewrite (run_parser_help _ _ Hp). apply HelpShown.
    + rewrite (run_parser_error _ _ Hp). apply UsageError.
Qed.

(** The events of [send_request]: none, or the request and then what is
    printed. *)
Lemma send_request_trace (user password url : argval) (data : string) :
  (exists e : exn,
      build_queue_url url = Raise e
      /\ send_request user password url data = ([], Raise e))
  \/ (exists (target : string) (printed : list event),
         build_queue_url url = Return target
         /\ trace (send_request user password url data)
            = Post target (user, password) _headers data :: printed
         /\ filter is_post printed = []).
Proof.
  rewrite send_request_cases.
  destruct (build_queue_url url) as [target|e]; [right | left; now exists e].
  cbv zeta. exists target.
  destruct (server target (user, password) _headers data) as [resp|e];
    [|now exists []].
  destruct (ok resp); [|now eexists].
  destruct (json resp) as [body|]; [|now eexists].
  destruct (get body "webUrl"); now eexists.
Qed.

(** [urlsplit], [urlparse] and [urljoin] raise nothing but [ValueError]. *)
Lemma urlsplit_raises (url scheme : string) (e : exn) :
  urlsplit url scheme = Raise e -> e = ValueError.
Proof.
  unfold urlsplit. cbv zeta.
  destruct (match split_first ":" _ with Some (String c0 s, rest) => _ | _ => _ end)
    as [scheme' url'].
  match goal with
  | |- rbind ?m _ = _ -> _ =>
      assert (Hn : forall e', m = Raise e' -> e' = ValueError);
      [|destruct m as [[netloc u]|e']; cbn [rbind]]
  end.
  - intros e'. destruct url' as [|c1 [|c2 rest]]; try discriminate.
    + destruct c1 as [[] [] [] [] [] [] [] []]; discriminate.
    + destruct c1 as [[] [] [] [] [] [] [] []]; try discriminate.
      destruct c2 as [[] [] [] [] [] [] [] []]; try discriminate.
      destruct (span_until netloc_delimiter rest) as [netloc u].
      destruct (xorb (contains_char "[" netloc) (contains_char "]" netloc));
        [intros H; now injection H|].
      destruct (contains_char "[" netloc && negb (check_bracketed_netloc netloc));
        [intros H; now injection H | discriminate].
  - destruct (match split_first "#" u with Some (u', f) => _ | None => _ end)
      as [u1 fragment].
    destruct (match split_first "?" u1 with Some (u', q) => _ | None => _ end)
      as [u2 query].
    destruct (_ && _); [intros H; now injection H | discriminate].
  - intros H. injection H as <-. now apply Hn.
Qed.

Lemma urlparse_raises (url scheme : string) (e : exn) :
  urlparse url scheme = Raise e -> e = ValueError.
Proof.
  unfold urlparse.
  destruct (urlsplit url scheme) as [[[[[s n] u] q] f]|e'] eqn:Hs; cbn [rbind].
  - destruct (mem_string s uses_params && contains_char ";" u);
      [destruct (_splitparams u) | ]; discriminate.
  - intros H. injection H as <-. exact (urlsplit_raises _ _ _ Hs).
Qed.

Lemma urljoin_raises (base url : string) (e : exn) :
  urljoin base url = Raise e -> e = ValueError.
Proof.
  unfold urljoin.
  destruct (base =? ""); [discriminate|].
  destruct (url =? ""); [discriminate|].
  destruct (urlparse base "") as [[[[[[bs bn] bp] bpa] bq] bf]|e'] eqn:Hb; cbn [rbind].
  - destruct (urlparse url bs) as [[[[[[s n] p] pa] q] f]|e''] eqn:Hu; cbn [rbind].
    + repeat match goal with
             | |- context [if ?b then _ else _] => destruct b
             end; discriminate.
    + intros H. injection H as <-. exact (urlparse_raises _ _ _ Hu).
  - intros H. injection H as <-. exact (urlparse_raises _ _ _ Hb).
Qed.

Lemma build_queue_url_raises (teamcity : string) (e : exn) :
  build_queue_url (AStr teamcity) = Raise e -> e = ValueError.
Proof. apply urljoin_raises. Qed.

(** The events of a run of each kind: no request at all, or the request of
    a build first and then what is printed. *)
Lemma run_kind_events (m : M unit) :
  run_kind m ->
  filter is_post (trace m) = []
  \/ exists (user password teamcity target data : string) (printed : list event),
       build_queue_url (AStr teamcity) = Return target
       /\ trace m = Post target (AStr user, AStr password) _headers data :: printed
       /\ filter is_post printed = []
       /\ ((exists (branch remote : string) (personal : bool),
               data = build_document (AStr _har_id) (ABool personal) (AStr branch)
                        [("remote", AStr remote); ("branch", AStr branch)])
           \/ (exists (branch remote maven_goals maven_args jdk : string)
                      (personal : bool),
                  In jdk _linux_jdks
                  /\ data
                     = build_document (AStr _neo4jlinux_id) (ABool personal) (AStr branch)
                         [("remote", AStr remote); ("branch", AStr branch);
                          ("project-default-jdk", AStr ("%" ++ jdk ++ "%"));
                          ("maven-goals", AStr maven_goals);
                          ("maven-args",
                           AStr ("-DfailIfNoTests=false -Dmaven.test.failure.ignore=true --show-version "
                                   ++ maven_args))])).
Proof.
  intros [ | | name | |
           | user password teamcity branch remote maven_goals maven_args jdk personal Hjdk
           | user password teamcity branch remote personal];
    try (left; reflexivity).
  - match goal with
    | |- context [send_request ?u ?p ?t ?d] =>
        destruct (send_request_trace u p t d)
          as [(e & _ & ->) | (target & printed & Hu & Ht & Hp)]
    end; [left; reflexivity | right].
    eexists user, password, teamcity, target, _, printed.
    split; [exact Hu|]. split; [exact Ht|]. split; [exact Hp|].
    right. now exists branch, remote, maven_goals, maven_args, jdk, personal.
  - match goal with
    | |- context [send_request ?u ?p ?t ?d] =>
        destruct (send_request_trace u p t d)
          as [(e & _ & ->) | (target & printed & Hu & Ht & Hp)]
    end; [left; reflexivity | right].
    eexists user, password, teamcity, target, _, printed.
    split; [exact Hu|]. split; [exact Ht|]. split; [exact Hp|].
    left. now exists branch, remote, personal.
Qed.

Lemma get_raises (body : pyobj) (key : string) (e : exn) :
  get body key = Raise e -> e = AttributeError.
Proof.
  destruct body; simpl; try (intros H; now injection H).
  destruct (find _ d); discriminate.
Qed.

(** The exit status of [send_request] is 0 or 1 unless the transport itself
    raises [SystemExit]. *)
Lemma send_request_status (user password : argval) (teamcity data : string) :
  transport_never_exits ->
  exit_status (send_request user password (AStr teamcity) data) = 0%Z
  \/ exit_status (send_request user password (AStr teamcity) data) = 1%Z.
Proof.
  intros Hserver. rewrite send_request_cases.
  destruct (build_queue_url (AStr teamcity)) as [target|e] eqn:Hu.
  - cbv zeta.
    destruct (server target (user, password) _headers data) as [resp|e] eqn:Hs.
    + destruct (ok resp); [|right; reflexivity].
      destruct (json resp) as [body|]; [|right; reflexivity].
      destruct (get body "webUrl") as [web_url|e] eqn:Hg; [left; reflexivity|].
      rewrite (get_raises _ _ _ Hg). right. reflexivity.
    + destruct e as [code| | | | | |]; try (right; reflexivity).
      now destruct (Hserver _ _ _ _ _ Hs).
  - rewrite (build_queue_url_raises _ _ Hu). right. reflexivity.
Qed.

Lemma run_kind_status (m : M unit) :
  transport_never_exits -> run_kind m ->
  exit_status m = 0%Z \/ exit_status m = 1%Z \/ exit_status m = 2%Z.
Proof.
  intros Hserver
         [ | | name | |
           | user password teamcity branch remote maven_goals maven_args jdk personal Hjdk
           | user password teamcity branch remote personal];
    try (cbn; tauto);
    match goal with
    | |- context [send_request ?u ?p (AStr ?t) ?d] =>
        destruct (send_request_status u p t d Hserver) as [-> | ->]; tauto
    end.
Qed.

Lemma ok_outside (resp : Response) :
  (status_code resp < 400 \/ 600 <= status_code resp)%Z -> ok resp = true.
Proof.
  intros H. unfold ok.
  destruct (Z.leb_spec 400 (status_code resp)); [|reflexivity].
  destruct (Z.ltb_spec (status_code resp) 600); [lia | reflexivity].
Qed.

(** ** What every run does *)


(** X2: a run calls [requests.post] at most once, and the call comes before
    anything is printed: a run that prints a usage error, a help text or the
    report of an unrecognized command sends nothing. *)
Theorem X2_single_request :
  forall argv : list string,
    (length (posts (main argv)) <= 1)%nat
    /\ (forall e : event,
           In e (posts (main argv)) ->
           exists printed : list event,
             trace (main argv) = e :: printed /\ filter is_post printed = []).
Proof.
  intros argv. unfold posts.
  destruct (run_kind_events _ (TC_init_kind argv))
    as [H | (user & password & teamcity & target & data & printed & _ & Ht & Hp & _)];
    unfold main.
  - rewrite H. split; [simpl; lia | contradiction].
  - rewrite Ht. cbn [filter is_post]. rewrite Hp. split; [simpl; lia|].
    intros e [<- | []]. now exists printed.
Qed.


(** X4: with a transport that does not itself raise [SystemExit], the exit
    status of a run is 0, 1 or 2, whatever the command line and the
    response. *)
Theorem X4_exit_status_range :
  transport_never_exits ->
  forall argv : list string,
    exit_status (main argv) = 0%Z
    \/ exit_status (main argv) = 1%Z
    \/ exit_status (main argv) = 2%Z.
Proof.
  intros Hserver argv. apply run_kind_status; [exact Hserver | apply TC_init_kind].
Qed.

(** ** The edges of [send_request] *)

(** X5: [send_request] takes every status code outside 400..599 for a
    success, also 1xx and 3xx: when the body is a JSON object, it prints the
    success message and the [webUrl] of the body, [None] without one, and
    returns. *)
Theorem X5_success_outside_failure_codes :
  forall (user password url : argval) (data target : string) (resp : Response)
         (d : list (string * pyobj)),
    build_queue_url url = Return target ->
    server target (user, password) _headers data = Return resp ->
    (status_code resp < 400 \/ 600 <= status_code resp)%Z ->
    json resp = Some (PyDict d) ->
    send_request user password url data
    = ([Post target (user, password) _headers data;
        Printed [PyStr "Build started. View status at"];
        Printed [match find (fun kv => fst kv =? "webUrl") d with
                 | Some kv => snd kv
                 | None => PyNone
                 end]],
       Return tt).
Proof.
  intros user password url data target resp d Hu Hs Hc Hj.
  rewrite send_request_cases, Hu. cbv zeta.
  rewrite Hs, (ok_outside _ Hc), Hj. unfold get.
  destruct (find _ d); reflexivity.
Qed.

(** X6: when the status code is outside 400..599 and the body is not a JSON
    object, be it not JSON at all or a JSON value of another kind,
    [send_request] prints the success message and then fails: the exception
    ([ValueError], [AttributeError]) is not caught and the exit status
    is 1. *)
Theorem X6_success_with_unusable_body :
  forall (user password url : argval) (data target : string) (resp : Response),
    build_queue_url url = Return target ->
    server target (user, password) _headers data = Return resp ->
    (status_code resp < 400 \/ 600 <= status_code resp)%Z ->
    (forall d : list (string * pyobj), json resp <> Some (PyDict d)) ->
    send_request user password url data
    = ([Post target (user, password) _headers data;
        Printed [PyStr "Build started. View status at"]],
       Raise (match json resp with
              | None => ValueError
              | Some _ => AttributeError
              end))
    /\ exit_status (send_request user password url data) = 1%Z.
Proof.
  intros user password url data target resp Hu Hs Hc Hj.
  rewrite send_request_cases, Hu. cbv zeta.
  rewrite Hs, (ok_outside _ Hc).
  destruct (json resp) as [body|]; [|split; reflexivity].
  destruct body; try (split; reflexivity).
  now destruct (Hj d).
Qed.

(** X7: nothing catches what the transport or [urljoin] raises.  With a
    transport that raises [e] on every request, a run that gets to its
    request prints nothing and ends with [e]; and when [urljoin] refuses the
    server string, the run ends with [ValueError] without any request and
    without any output. *)
Theorem X7_exceptions_propagate :
  forall argv : list string,
    (forall e : exn,
        (forall target auth headers data, server target auth headers data = Raise e) ->
        posts (main argv) = []
        \/ exists (target : string) (auth : argval * argval) (data : string),
             main argv = ([Post target auth _headers data], Raise e))
    /\ (forall (user password teamcity data : string),
           main argv = send_request (AStr user) (AStr password) (AStr teamcity) data ->
           (exists target : string, build_queue_url (AStr teamcity) = Return target)
           \/ main argv = ([], Raise ValueError)).
Proof.
  intros argv. split.
  - intros e Hserver. unfold main.
    destruct (TC_init_kind argv)
      as [ | | name | |
           | user password teamcity branch remote maven_goals maven_args jdk personal Hjdk
           | user password teamcity branch remote personal];
      try (left; reflexivity);
      rewrite send_request_cases;
      (destruct (build_queue_url (AStr teamcity)) as [target|e'];
       [|left; reflexivity]);
      cbv zeta; rewrite Hserver; right; now eexists _, _, _.
  - intros user password teamcity data ->. rewrite send_request_cases.
    destruct (build_queue_url (AStr teamcity)) as [target|e] eqn:Hu.
    + left. now exists target.
    + right. now rewrite (build_queue_url_raises _ _ Hu).
Qed.

(** ** Command lines that the parsers refuse

    For any parser [p]: what the actions keep of a state, and the strings
    after which a parse cannot succeed, wherever they stand on the command
    line. *)

Section Rejections.

Variable p : parser.

Lemma take_action_frame (st st' : parse_state) (a : action) (args : list string) :
  take_action p st a args = Go st' ->
  st_extras st' = st_extras st /\ st_positionals st' = st_positionals st
  /\ incl (st_seen_non_default st) (st_seen_non_default st').
Proof.
  unfold take_action. destruct (negb _); [discriminate|].
  destruct (existsb _ _); [discriminate|].
  destruct (kind a); try discriminate.
  - destruct args as [|v [|]]; try discriminate.
    intros [= <-]. repeat split. apply incl_tl, incl_refl.
  - intros [= <-]. repeat split. apply incl_tl, incl_refl.
  - intros [= <-]. repeat split. apply incl_tl, incl_refl.
Qed.

Lemma take_actions_frame (tuples : list (action * list string)) :
  forall st st',
    take_actions p st tuples = Go st' ->
    st_extras st' = st_extras st /\ st_positionals st' = st_positionals st
    /\ incl (st_seen_non_default st) (st_seen_non_default st').
Proof.
  induction tuples as [|[a args] tuples IH]; simpl; intros st st'.
  - intros [= <-]. repeat split. apply incl_refl.
  - destruct (take_action p st a args) as [st1|r] eqn:Hta; [|discriminate].
    intros H. apply IH in H. apply take_action_frame in Hta.
    destruct H as (He & Hp & Hs), Hta as (He1 & Hp1 & Hs1).
    repeat split; try congruence. eapply incl_tran; eauto.
Qed.

Lemma add_extra_not_empty (st : parse_state) (s : string) :
  st_extras (add_extra st s) <> [].
Proof. simpl. now destruct (st_extras st). Qed.

(** Once a string has been left over, the parse does not succeed. *)
Lemma consume_extras (l : list (string * arg_class)) :
  forall pending after st ns,
    st_extras st <> [] -> consume p l pending after st <> Parsed ns.
Proof.
  induction l as [|[s c] rest IH]; intros pending after st ns Hx.
  - simpl. destruct pending; [discriminate|].
    unfold finish. destruct (existsb _ _); [discriminate|].
    destruct (st_extras st); [contradiction | discriminate].
  - cbn [consume]. destruct pending as [[tuples a]|].
    + destruct c; try discriminate.
      destruct (take_actions p st _) as [st'|r] eqn:Ht.
      * apply IH. apply take_actions_frame in Ht. destruct Ht as [-> _]. exact Hx.
      * eapply take_actions_halt; eauto.
    + destruct c as [|[a|] o e|].
      * destruct (st_positionals st) as [|a ps] eqn:Hps.
        -- apply IH, add_extra_not_empty.
        -- destruct (take_action p _ a [s]) as [st'|r] eqn:Ht.
           ++ apply IH. apply take_action_frame in Ht. destruct Ht as [-> _]. exact Hx.
           ++ eapply take_action_halt; eauto.
      * destruct (match e with Some e' => _ | None => _ end) as [|tuples|tuples a'].
        -- discriminate.
        -- destruct (take_actions p st tuples) as [st'|r] eqn:Ht.
           ++ apply IH. apply take_actions_frame in Ht. destruct Ht as [-> _]. exact Hx.
           ++ eapply take_actions_halt; eauto.
        -- destruct (takes_argument a'); [now apply IH|].
           destruct (take_actions p st _) as [st'|r] eqn:Ht.
           ++ apply IH. apply take_actions_frame in Ht. destruct Ht as [-> _]. exact Hx.
           ++ eapply take_actions_halt; eauto.
      * apply IH, add_extra_not_empty.
      * apply IH. destruct (_ || _); [exact Hx | apply add_extra_not_empty].
Qed.

(** Without positionals, a [--], an unknown option or a value outside the
    choices of its option makes the parse fail, wherever it stands. *)
Lemma consume_fatal (l : list (string * arg_class)) :
  forall pending st ns,
    st_positionals st = [] ->
    (exists s c, In (s, c) l /\ fatal_class c) ->
    consume p l pending false st <> Parsed ns.
Proof.
  induction l as [|[s c] rest IH]; intros pending st ns Hps (s0 & c0 & Hin & Hf).
  - contradiction.
  - cbn [consume]. destruct pending as [[tuples a]|].
    + destruct c; try discriminate.
      destruct Hin as [[= <- <-]|Hin]; [contradiction|].
      destruct (take_actions p st _) as [st'|r] eqn:Ht.
      * apply IH; [|eauto]. apply take_actions_frame in Ht.
        destruct Ht as (_ & -> & _). exact Hps.
      * eapply take_actions_halt; eauto.
    + destruct c as [|[a|] o e|].
      * rewrite Hps. destruct Hin as [[= <- <-]|Hin]; [contradiction|].
        apply IH; eauto.
      * destruct Hin as [[= <- <-]|Hin].
        -- destruct e as [e|].
           ++ destruct Hf as (Hk & cs & Hc & Hm).
              assert (Hta : takes_argument a = true)
                by (unfold takes_argument; now rewrite Hk).
              destruct e as [|x e]; cbn [explicit_loop]; rewrite Hta;
                cbn [app take_actions];
                unfold take_action; rewrite Hk, Hc, Hm; discriminate.
           ++ cbn [fatal_class] in Hf.
              assert (Hta : takes_argument a = false)
                by (unfold takes_argument; now rewrite Hf).
              rewrite Hta. cbn [app take_actions]. unfold take_action. rewrite Hf.
              cbn [negb].
              destruct (existsb _ (action_conflicts p a)); discriminate.
        -- destruct (match e with Some e' => _ | None => _ end) as [|tuples|tuples a'].
           ++ discriminate.
           ++ destruct (take_actions p st tuples) as [st'|r] eqn:Ht.
              ** apply IH; [|eauto]. apply take_actions_frame in Ht.
                 destruct Ht as (_ & -> & _). exact Hps.
              ** eapply take_actions_halt; eauto.
           ++ destruct (takes_argument a'); [apply IH; eauto|].
              destruct (take_actions p st _) as [st'|r] eqn:Ht.
              ** apply IH; [|eauto]. apply take_actions_frame in Ht.
                 destruct Ht as (_ & -> & _). exact Hps.
              ** eapply take_actions_halt; eauto.
      * apply consume_extras, add_extra_not_empty.
      * rewrite Hps. cbn [orb].
        replace (match rest with [] => false | _ :: _ => false end) with false
          by now destruct rest.
        apply consume_extras, add_extra_not_empty.
Qed.



Lemma in_mem_string (x : string) (l : list string) :
  In x l -> mem_string x l = true.
Proof.
  intros H. unfold mem_string. apply existsb_exists. exists x.
  split; [exact H | apply String.eqb_refl].
Qed.

Lemma take_action_seen (st st' : parse_state) (a : action) (args : list string) :
  take_action p st a args = Go st' -> In (action_id a) (st_seen_non_default st').
Proof.
  unfold take_action. destruct (negb _); [discriminate|].
  destruct (existsb _ _); [discriminate|].
  destruct (kind a); try discriminate.
  - destruct args as [|v [|]]; try discriminate. intros [= <-]. now left.
  - intros [= <-]. now left.
  - intros [= <-]. now left.
Qed.

Lemma take_action_conflict (x : action) (y : string) (st : parse_state) :
  In y (action_conflicts p x) -> In y (st_seen_non_default st) ->
  take_action p st x [] = Halt ArgError.
Proof.
  intros Hc Hs. unfold take_action.
  replace (match kind x, choices x, @nil string with
           | Store, Some cs, [v] => mem_string v cs
           | _, _, _ => true
           end) with true by (destruct (kind x), (choices x); reflexivity).
  cbn [negb].
  assert (He : existsb (fun c => mem_string c (st_seen_non_default st))
                       (action_conflicts p x) = true).
  { apply existsb_exists. exists y. split; [exact Hc | now apply in_mem_string]. }
  now rewrite He.
Qed.

Lemma flag_entry_cons (x : action) (s : string) (c : arg_class)
      (rest : list (string * arg_class)) :
  flag_entry x ((s, c) :: rest) ->
  (exists o, c = ClassO (Some x) o None) \/ flag_entry x rest.
Proof.
  intros (s1 & o1 & [[= _ ->]|H]); [left; now exists o1 | right; now exists s1, o1].
Qed.

(** Two flags that exclude each other make the parse fail, wherever they
    stand. *)
Lemma consume_exclusive (a b : action) (l : list (string * arg_class)) :
  takes_argument a = false -> takes_argument b = false ->
  In (action_id b) (action_conflicts p a) ->
  In (action_id a) (action_conflicts p b) ->
  forall pending after st ns,
    (In (action_id a) (st_seen_non_default st) \/ flag_entry a l) ->
    (In (action_id b) (st_seen_non_default st) \/ flag_entry b l) ->
    (flag_entry a l \/ flag_entry b l) ->
    consume p l pending after st <> Parsed ns.
Proof.
  intros Hta Htb Hab Hba.
  induction l as [|[s c] rest IH]; intros pending after st ns Ha Hb Hab'.
  - destruct Hab' as [(s & o & [])|(s & o & [])].
  - (* what holds of a state that has seen at least as much, when the head
       is an entry of neither flag *)
    assert (Hother : forall st' pending' after',
               incl (st_seen_non_default st) (st_seen_non_default st') ->
               (forall o, c <> ClassO (Some a) o None) ->
               (forall o, c <> ClassO (Some b) o None) ->
               consume p rest pending' after' st' <> Parsed ns).
    { intros st' pending' after' Hi Hna Hnb.
      assert (Hrest : forall x, (forall o, c <> ClassO (Some x) o None) ->
                                flag_entry x ((s, c) :: rest) -> flag_entry x rest).
      { intros x Hn H. destruct (flag_entry_cons _ _ _ _ H) as [[o Ho]|H'];
          [now destruct (Hn o) | exact H']. }
      apply IH.
      - destruct Ha as [H|H]; [left; now apply Hi | right; now apply Hrest].
      - destruct Hb as [H|H]; [left; now apply Hi | right; now apply Hrest].
      - destruct Hab' as [H|H]; [left | right]; now apply Hrest. }
    cbn [consume]. destruct pending as [[tuples a0]|].
    + destruct c; try discriminate.
      destruct (take_actions p st _) as [st'|r] eqn:Ht;
        [|eapply take_actions_halt; eauto].
      apply take_actions_frame in Ht. destruct Ht as (_ & _ & Hi).
      apply Hother; [exact Hi | discriminate | discriminate].
    + destruct c as [|[a0|] o e|].
      * destruct (st_positionals st) as [|a0 ps].
        -- apply Hother; [apply incl_refl | discriminate | discriminate].
        -- destruct (take_action p _ a0 [s]) as [st'|r] eqn:Ht;
             [|eapply take_action_halt; eauto].
           apply take_action_frame in Ht. destruct Ht as (_ & _ & Hi).
           apply Hother; [exact Hi | discriminate | discriminate].
      * destruct e as [e|].
        -- destruct (explicit_loop p a0 (single_dash_option o) e [])
             as [|tuples|tuples a'].
           ++ discriminate.
           ++ destruct (take_actions p st tuples) as [st'|r] eqn:Ht;
                [|eapply take_actions_halt; eauto].
              apply take_actions_frame in Ht. destruct Ht as (_ & _ & Hi).
              apply Hother; [exact Hi | discriminate | discriminate].
           ++ destruct (takes_argument a').
              ** apply Hother; [apply incl_refl | discriminate | discriminate].
              ** destruct (take_actions p st _) as [st'|r] eqn:Ht;
                   [|eapply take_actions_halt; eauto].
                 apply take_actions_frame in Ht. destruct Ht as (_ & _ & Hi).
                 apply Hother; [exact Hi | discriminate | discriminate].
        -- destruct (takes_argument a0) eqn:Hta0.
           ++ apply Hother; [apply incl_refl | |]; intros o' [= -> _]; congruence.
           ++ cbn [app take_actions].
              destruct (take_action p st a0 []) as [st'|r] eqn:Ht;
                [|eapply take_action_halt; eauto].
              pose proof (take_action_seen _ _ _ _ Ht) as Hseen.
              pose proof (take_action_frame _ _ _ _ Ht) as (_ & _ & Hi).
              (* a flag that is seen is the head or was seen before *)
              assert (Hgo : forall x y,
                         In (action_id y) (action_conflicts p x) ->
                         In (action_id x) (action_conflicts p y) ->
                         In (action_id x) (st_seen_non_default st)
                         \/ flag_entry x ((s, ClassO (Some a0) o None) :: rest) ->
                         In (action_id y) (st_seen_non_default st)
                         \/ flag_entry y ((s, ClassO (Some a0) o None) :: rest) ->
                         (In (action_id x) (st_seen_non_default st')
                          \/ flag_entry x rest)
                         /\ (a0 = x -> flag_entry y rest)).
              { intros x y Hxy Hyx Hx Hy. split.
                - destruct Hx as [H|H]; [left; now apply Hi|].
                  destruct (flag_entry_cons _ _ _ _ H) as [[o' [= ->]]|H'];
                    [now left | now right].
                - intros ->. destruct Hy as [H|H].
                  + rewrite (take_action_conflict _ _ _ Hxy H) in Ht. discriminate.
                  + destruct (flag_entry_cons _ _ _ _ H) as [[o' [= Heq]]|H'];
                      [|exact H'].
                    subst y. exfalso. revert Hxy. unfold action_conflicts.
                    intros Hin. apply in_flat_map in Hin.
                    destruct Hin as (g & _ & Hin).
                    destruct (mem_string (action_id x) g); [|contradiction].
                    apply filter_In in Hin. destruct Hin as [_ Hne].
                    now rewrite String.eqb_refl in Hne. }
              destruct (Hgo a b Hab Hba Ha Hb) as [Ha' Hab1].
              destruct (Hgo b a Hba Hab Hb Ha) as [Hb' Hba1].
              apply IH; [exact Ha' | exact Hb' |].
              destruct Hab' as [H|H].
              ** destruct (flag_entry_cons _ _ _ _ H) as [[o' [= Heq]]|H'];
                   [right; now apply Hab1 | now left].
              ** destruct (flag_entry_cons _ _ _ _ H) as [[o' [= Heq]]|H'];
                   [left; now apply Hba1 | now right].
      * apply consume_extras, add_extra_not_empty.
      * apply Hother; [|discriminate|discriminate].
        destruct (_ || _); apply incl_refl.
Qed.


(** *** From the argument strings to their classes *)

Lemma classify_cons (s : string) (rest : list string) (l : list (string * arg_class)) :
  classify p (s :: rest) = Some l ->
  In ("--", ClassDash) l
  \/ exists (c : arg_class) (l' : list (string * arg_class)),
       l = (s, c) :: l' /\ classify p rest = Some l'
       /\ match parse_optional p s with
          | NotOptional => c = ClassA
          | Optional a o e => c = ClassO a o e
          | Ambiguous => False
          end.
Proof.
  cbn [classify]. destruct (s =? "--") eqn:Hs.
  - apply String.eqb_eq in Hs. subst s. intros [= <-]. left. now left.
  - destruct (parse_optional p s) as [|a o e|]; [| |discriminate];
      (destruct (classify p rest) as [l'|]; [|discriminate]);
      intros [= <-]; right; eexists _, l'; now repeat split.
Qed.

Lemma classify_entry (args : list string) :
  forall (l : list (string * arg_class)) (s : string),
    classify p args = Some l -> In s args ->
    In ("--", ClassDash) l
    \/ match parse_optional p s with
       | NotOptional => In (s, ClassA) l
       | Optional a o e => In (s, ClassO a o e) l
       | Ambiguous => False
       end.
Proof.
  induction args as [|s0 rest IH]; intros l s Hc Hin; [contradiction|].
  destruct (classify_cons _ _ _ Hc) as [Hd | (c & l' & -> & Hrest & Hclass)];
    [now left|].
  destruct Hin as [<- | Hin].
  - right. destruct (parse_optional p s0); [subst c; now left | subst c; now left | exact Hclass].
  - destruct (IH _ _ Hrest Hin) as [Hd | H]; [left; now right | right].
    destruct (parse_optional p s); [now right | now right | exact H].
Qed.


(** *** Command lines that do not parse *)

Hypothesis no_positional : filter is_positional (actions p) = [].

Lemma parse_args_fatal (args : list string) (s : string) (a : option action)
      (o : string) (e : option string) (ns : namespace) :
  In s args -> parse_optional p s = Optional a o e -> fatal_class (ClassO a o e) ->
  parse_args p args <> Parsed ns.
Proof.
  intros Hin Hs Hf. unfold parse_args.
  destruct (classify p args) as [l|] eqn:Hc; [|discriminate].
  apply consume_fatal; [exact no_positional|].
  destruct (classify_entry _ _ _ Hc Hin) as [Hd | H].
  - now exists "--", ClassDash.
  - rewrite Hs in H. now exists s, (ClassO a o e).
Qed.

Lemma parse_args_exclusive (args : list string) (sa sb oa ob : string) (a b : action)
      (ns : namespace) :
  In sa args -> In sb args ->
  parse_optional p sa = Optional (Some a) oa None ->
  parse_optional p sb = Optional (Some b) ob None ->
  takes_argument a = false -> takes_argument b = false ->
  In (action_id b) (action_conflicts p a) ->
  In (action_id a) (action_conflicts p b) ->
  parse_args p args <> Parsed ns.
Proof.
  intros Hina Hinb Hsa Hsb Hta Htb Hab Hba. unfold parse_args.
  destruct (classify p args) as [l|] eqn:Hc; [|discriminate].
  destruct (classify_entry _ _ _ Hc Hina) as [Hd | Ha];
    [apply consume_fatal; [exact no_positional | now exists "--", ClassDash]|].
  destruct (classify_entry _ _ _ Hc Hinb) as [Hd | Hb];
    [apply consume_fatal; [exact no_positional | now exists "--", ClassDash]|].
  rewrite Hsa in Ha. rewrite Hsb in Hb.
  apply (consume_exclusive a b); try assumption.
  - right. now exists sa, oa.
  - right. now exists sb, ob.
  - left. now exists sa, oa.
Qed.


End Rejections.

(** ** The command lines of the two builds *)

Lemma classify_positional (p : parser) (s : string) (rest : list string) :
  is_flag s = false ->
  classify p (s :: rest)
  = match classify p rest with
    | Some l => Some ((s, ClassA) :: l)
    | None => None
    end.
Proof.
  intros Hf. cbn [classify].
  now rewrite (not_flag_not_dashes _ Hf), (parse_optional_positional _ _ Hf).
Qed.

Lemma classify_option (p : parser) (s : string) (rest : list string)
      (a : option action) (o : string) (e : option string) :
  (s =? "--") = false -> parse_optional p s = Optional a o e ->
  classify p (s :: rest)
  = match classify p rest with
    | Some l => Some ((s, ClassO a o e) :: l)
    | None => None
    end.
Proof. intros Hd Hs. cbn [classify]. now rewrite Hd, Hs. Qed.

(** Classifying a command line whose values do not start with a dash. *)
Ltac classify_args p :=
  unfold parse_args;
  repeat match goal with
         | |- context [classify p (?s :: ?rest)] =>
             first [ rewrite (classify_positional p s rest) by (assumption || reflexivity)
                   | let r := eval vm_compute in (parse_optional p s) in
                     match r with
                     | Optional ?a ?o ?e =>
                         rewrite (classify_option p s rest a o e eq_refl)
                           by (vm_compute; reflexivity)
                     end ]
         end;
  cbn [classify].

Lemma har_minimal_parse (u pw b : string) :
  is_flag u = false -> is_flag pw = false -> is_flag b = false ->
  parse_args har_parser ["-u"; u; "-p"; pw; "-b"; b]
  = Parsed [("user", AStr u); ("password", AStr pw); ("remote", AStr "origin");
            ("teamcity", AStr "https://build.neohq.net"); ("personal", ABool false);
            ("branch", AStr b)].
Proof. intros Hu Hp Hb. classify_args har_parser. vm_compute. reflexivity. Qed.

Lemma linux_minimal_parse (u pw b : string) :
  is_flag u = false -> is_flag pw = false -> is_flag b = false ->
  parse_args linux_parser ["-u"; u; "-p"; pw; "-b"; b]
  = Parsed [("user", AStr u); ("password", AStr pw); ("remote", AStr "origin");
            ("teamcity", AStr "https://build.neohq.net"); ("personal", ABool false);
            ("maven_goals", AStr "clean verify");
            ("maven_args", AStr "-DrunITs -DskipBrowser");
            ("branch", AStr b); ("jdk", AStr "openjdk-8")].
Proof. intros Hu Hp Hb. classify_args linux_parser. vm_compute. reflexivity. Qed.



Lemma no_positional_linux : filter is_positional (actions linux_parser) = [].
Proof. vm_compute. reflexivity. Qed.

Lemma no_positional_har : filter is_positional (actions har_parser) = [].
Proof. vm_compute. reflexivity. Qed.

Lemma run_parser_refused (p : parser) (arg_strings : list string) :
  (forall ns, parse_args p arg_strings <> Parsed ns) ->
  run_parser p arg_strings = ([PrintUsageError], Raise (SystemExit 2))
  \/ run_parser p arg_strings = ([PrintHelp], Raise (SystemExit 0)).
Proof.
  intros H. unfold run_parser.
  destruct (parse_args p arg_strings) as [ns| |];
    [now destruct (H ns) | now right | now left].
Qed.

Lemma main_linux_refused (subargs : list string) :
  (forall ns, parse_args linux_parser subargs <> Parsed ns) ->
  stopped_by_parser (main ("linux" :: subargs)).
Proof.
  intros H. rewrite main_linux. unfold TC_linux, stopped_by_parser.
  destruct (run_parser_refused _ _ H) as [-> | ->]; [now left | now right].
Qed.

Lemma main_har_refused (subargs : list string) :
  (forall ns, parse_args har_parser subargs <> Parsed ns) ->
  stopped_by_parser (main ("har" :: subargs)).
Proof.
  intros H. rewrite main_har. unfold TC_har, stopped_by_parser.
  destruct (run_parser_refused _ _ H) as [-> | ->]; [now left | now right].
Qed.



(** X8: the HA build has none of the options of the Linux build: with
    [--jdk], [--maven-goals] or [--maven-args] anywhere on its command line,
    [tc.py har] is stopped by the parser and requests no build. *)
Theorem X8_har_has_no_linux_options :
  forall (subargs : list string) (s : string),
    In s ["--jdk"; "--maven-goals"; "--maven-args"] ->
    In s subargs ->
    stopped_by_parser (main ("har" :: subargs))
    /\ posts (main ("har" :: subargs)) = [].
Proof.
  intros subargs s Hs Hin.
  assert (H : stopped_by_parser (main ("har" :: subargs))).
  { apply main_har_refused. intros ns.
    apply (parse_args_fatal har_parser no_positional_har subargs s None s None);
      [exact Hin | | exact I].
    simpl in Hs. destruct Hs as [<-|[<-|[<-|[]]]]; vm_compute; reflexivity. }
  split; [exact H|]. now destruct H as [-> | ->].
Qed.

(** X9: [--personal] and [--no-personal] exclude each other: with both
    anywhere on the command line, either build is stopped by the parser and
    nothing is requested. *)
Theorem X9_personal_flags_exclusive :
  forall subargs : list string,
    In "--personal" subargs -> In "--no-personal" subargs ->
    (stopped_by_parser (main ("linux" :: subargs))
     /\ posts (main ("linux" :: subargs)) = [])
    /\ (stopped_by_parser (main ("har" :: subargs))
        /\ posts (main ("har" :: subargs)) = []).
Proof.
  intros subargs Hp Hn.
  assert (Hl : stopped_by_parser (main ("linux" :: subargs))).
  { apply main_linux_refused. intros ns.
    let ra := eval vm_compute in (parse_optional linux_parser "--personal") in
    let rb := eval vm_compute in (parse_optional linux_parser "--no-personal") in
    match ra with
    | Optional (Some ?a) ?oa None =>
        match rb with
        | Optional (Some ?b) ?ob None =>
            apply (parse_args_exclusive linux_parser no_positional_linux subargs
                     "--personal" "--no-personal" oa ob a b);
            try assumption; try (vm_compute; reflexivity); vm_compute; tauto
        end
    end. }
  assert (Hh : stopped_by_parser (main ("har" :: subargs))).
  { apply main_har_refused. intros ns.
    let ra := eval vm_compute in (parse_optional har_parser "--personal") in
    let rb := eval vm_compute in (parse_optional har_parser "--no-personal") in
    match ra with
    | Optional (Some ?a) ?oa None =>
        match rb with
        | Optional (Some ?b) ?ob None =>
            apply (parse_args_exclusive har_parser no_positional_har subargs
                     "--personal" "--no-personal" oa ob a b);
            try assumption; try (vm_compute; reflexivity); vm_compute; tauto
        end
    end. }
  split; (split; [assumption|]).
  - now destruct Hl as [-> | ->].
  - now destruct Hh as [-> | ->].
Qed.


Lemma value_options_of_builds :
  value_options linux_parser
  = ["-u"; "--user"; "-p"; "--password"; "-r"; "--remote"; "--teamcity";
     "--maven-goals"; "--maven-args"; "-b"; "--branch"; "--jdk"]
  /\ value_options har_parser
     = ["-u"; "--user"; "-p"; "--password"; "-r"; "--remote"; "--teamcity";
        "-b"; "--branch"].
Proof. split; vm_compute; reflexivity. Qed.


(** X22: asking for help never requests a build: with [-h] or [--help]
    anywhere on its command line, either build is stopped by the parser. *)
Theorem X22_help_requests_nothing :
  forall (subargs : list string) (h : string),
    h = "-h" \/ h = "--help" -> In h subargs ->
    (stopped_by_parser (main ("linux" :: subargs))
     /\ posts (main ("linux" :: subargs)) = [])
    /\ (stopped_by_parser (main ("har" :: subargs))
        /\ posts (main ("har" :: subargs)) = []).
Proof.
  intros subargs h Hh Hin.
  assert (Hl : stopped_by_parser (main ("linux" :: subargs))).
  { apply main_linux_refused. intros ns.
    destruct Hh as [-> | ->];
      match goal with
      | H : In ?s subargs |- _ =>
          let r := eval vm_compute in (parse_optional linux_parser s) in
          match r with
          | Optional ?a ?o ?e =>
              apply (parse_args_fatal linux_parser no_positional_linux subargs s a o e);
              [exact H | vm_compute; reflexivity | reflexivity]
          end
      end. }
  assert (Hr : stopped_by_parser (main ("har" :: subargs))).
  { apply main_har_refused. intros ns.
    destruct Hh as [-> | ->];
      match goal with
      | H : In ?s subargs |- _ =>
          let r := eval vm_compute in (parse_optional har_parser s) in
          match r with
          | Optional ?a ?o ?e =>
              apply (parse_args_fatal har_parser no_positional_har subargs s a o e);
              [exact H | vm_compute; reflexivity | reflexivity]
          end
      end. }
  split; (split; [assumption|]).
  - now destruct Hl as [-> | ->].
  - now destruct Hr as [-> | ->].
Qed.

(** ** Command lines that the parsers accept *)

(** X12: the shortest command line of the HA build, with values that do
    not start with a dash: the request goes to the default server
    [https://build.neohq.net] with the user and password given, for a build
    that is not personal, of the branch given on the remote [origin]. *)
Theorem X12_har_defaults :
  forall user password branch : string,
    is_flag user = false -> is_flag password = false -> is_flag branch = false ->
    main ["har"; "-u"; user; "-p"; password; "-b"; branch]
    = send_request (AStr user) (AStr password) (AStr "https://build.neohq.net")
        (build_document (AStr "JonasHaRequests_HarBranchArtifacts") (ABool false)
           (AStr branch)
           [("remote", AStr "origin"); ("branch", AStr branch)]).
Proof.
  intros user password branch Hu Hp Hb. rewrite main_har.
  destruct (TC_har_parsed _ _ (har_minimal_parse user password branch Hu Hp Hb))
    as (u & pw & b & r & t & personal & Hns & ->).
  now injection Hns as <- <- <- <- <- <-.
Qed.

(** X13: the shortest command line of the Linux build, with values that do
    not start with a dash: the request goes to the default server for a
    build that is not personal, on the remote [origin], with the jdk
    [%openjdk-8%], the goals [clean verify] and the default arguments
    [-DrunITs -DskipBrowser] after the fixed prefix. *)
Theorem X13_linux_defaults :
  forall user password branch : string,
    is_flag user = false -> is_flag password = false -> is_flag branch = false ->
    main ["linux"; "-u"; user; "-p"; password; "-b"; branch]
    = send_request (AStr user) (AStr password) (AStr "https://build.neohq.net")
        (build_document (AStr "JonasHaRequests_Neo4jCustom") (ABool false)
           (AStr branch)
           [("remote", AStr "origin"); ("branch", AStr branch);
            ("project-default-jdk", AStr "%openjdk-8%");
            ("maven-goals", AStr "clean verify");
            ("maven-args",
             AStr "-DfailIfNoTests=false -Dmaven.test.failure.ignore=true --show-version -DrunITs -DskipBrowser")]).
Proof.
  intros user password branch Hu Hp Hb. rewrite main_linux.
  destruct (TC_linux_parsed _ _ (linux_minimal_parse user password branch Hu Hp Hb))
    as (u & pw & b & r & t & personal & g & a & j & Hns & _ & ->).
  now injection Hns as <- <- <- <- <- <- <- <- <-.
Qed.


(** ** The documents as XML *)

Lemma xml_run_app (a b : string) :
  forall cfg,
    xml_run cfg (a ++ b)
    = match xml_steps cfg a with
      | inl cfg' => xml_run cfg' b
      | inr v => v
      end.
Proof.
  induction a as [|c a IH]; intros cfg; [reflexivity|].
  cbn [append xml_run xml_steps]. destruct (xml_step cfg c); [apply IH | reflexivity].
Qed.

Lemma xml_steps_app (a b : string) :
  forall cfg,
    xml_steps cfg (a ++ b)
    = match xml_steps cfg a with
      | inl cfg' => xml_steps cfg' b
      | inr v => inr v
      end.
Proof.
  induction a as [|c a IH]; intros cfg; [reflexivity|].
  cbn [append xml_steps]. destruct (xml_step cfg c); [apply IH | reflexivity].
Qed.

Lemma xml_steps_safe (v : string) (n : string) (attrs stack : list string) (rd : bool) :
  xml_safe v = true ->
  xml_steps (XAttrValue n attrs "034", stack, rd) v
  = inl (XAttrValue n attrs "034", stack, rd).
Proof.
  induction v as [|c v IH]; [reflexivity|].
  unfold xml_safe. cbn [string_forall]. intros H.
  apply andb_true_iff in H. destruct H as [Hc Hv].
  unfold xml_safe_char in Hc.
  repeat (apply andb_true_iff in Hc; destruct Hc as [Hc ?]).
  repeat match goal with
         | H : negb _ = true |- _ => apply negb_true_iff in H
         end.
  cbn [xml_steps xml_step]. rewrite Hc. cbn [negb].
  match goal with
  | H1 : (c =? "034")%char = false, H2 : (c =? "<")%char = false,
    H3 : (c =? "&")%char = false |- _ => rewrite H1, H2, H3
  end.
  now apply IH.
Qed.

(** Reading a document piece by piece: a value without special characters
    leaves the configuration as it is, and the text of the template is
    read by computation. *)
Ltac is_literal s :=
  lazymatch s with
  | EmptyString => idtac
  | String _ ?s' => is_literal s'
  end.

Ltac xml_read_piece cfg a :=
  first [ rewrite xml_steps_safe by assumption
        | let a' := eval cbv in a in
          is_literal a';
          let r := eval vm_compute in (xml_steps cfg a) in
          replace (xml_steps cfg a) with r by (vm_compute; reflexivity) ];
  cbv beta iota.

Ltac xml_read :=
  repeat match goal with
         | |- context [xml_run ?cfg (?a ++ ?b)] =>
             rewrite (xml_run_app a b cfg); xml_read_piece cfg a
         | |- context [xml_steps ?cfg (?a ++ ?b)] =>
             rewrite (xml_steps_app a b cfg); xml_read_piece cfg a
         end.




(** In an attribute value, a [<] that no double quote precedes ends the
    reading, whatever stands between the two. *)
Lemma xml_steps_lt (v : string) (n : string) (attrs stack : list string) (rd : bool) :
  contains_char "<" v = true -> contains_char "034" v = false ->
  xml_steps (XAttrValue n attrs "034", stack, rd) v = inr NotWellFormed
  /\ (forall r, xml_steps (XAttrReference n attrs "034" r, stack, rd) v
                = inr NotWellFormed).
Proof.
  induction v as [|c v IH]; [discriminate|].
  cbn [contains_char]. intros Hlt Hq.
  apply orb_false_iff in Hq. destruct Hq as [Hcq Hq].
  assert (Hrest : (c =? "<")%char = false -> contains_char "<" v = true).
  { intros Hc. now rewrite Hc in Hlt. }
  split.
  - cbn [xml_steps xml_step].
    destruct (xml_char c); [|reflexivity]. cbn [negb].
    rewrite Hcq. destruct (c =? "<")%char eqn:Hc; [reflexivity|].
    destruct (c =? "&")%char; apply (IH (Hrest eq_refl) Hq).
  - intros r. cbn [xml_steps xml_step].
    destruct (xml_char c); [|reflexivity]. cbn [negb].
    destruct (c =? "<")%char eqn:Hc.
    + apply Ascii.eqb_eq in Hc. subst c. reflexivity.
    + destruct (c =? ";")%char.
      * destruct (valid_reference r); [apply (IH (Hrest eq_refl) Hq) | reflexivity].
      * destruct (name_char c || (c =? "#")%char);
          [apply (IH (Hrest eq_refl) Hq) | reflexivity].
Qed.

Lemma build_document_lt (buildid personal : argval) (branch : string)
      (entries : list (string * argval)) :
  xml_safe (lower (str personal)) = true ->
  contains_char "<" branch = true -> contains_char "034" branch = false ->
  xml_check (build_document buildid personal (AStr branch) entries) = NotWellFormed.
Proof.
  intros Hp Hlt Hq. unfold xml_check, build_document, quoted.
  rewrite !append_assoc. cbn [str].
  xml_read.
  now rewrite xml_run_app, (proj1 (xml_steps_lt _ _ _ _ _ Hlt Hq)).
Qed.


(** X16: a branch with a [<] and without a double quote never gives
    well-formed XML, whatever the other values are: the builder copies the
    [<] into the [branchName] attribute. *)
Theorem X16_lt_in_branch :
  forall (buildid remote : argval) (personal : bool) (branch : string) (props : dict),
    contains_char "<" branch = true -> contains_char "034" branch = false ->
    (exists document : string,
        (xml <- dict_as_properties props ;;
         request_xml buildid (ABool personal) (AStr branch) remote (AStr xml))%result
        = Return document
        /\ xml_check document = NotWellFormed)
    /\ (exists document : string,
           request_xml buildid (ABool personal) (AStr branch) remote ANone
           = Return document
           /\ xml_check document = NotWellFormed).
Proof.
  intros buildid remote personal branch props Hlt Hq.
  assert (Hp : xml_safe (lower (str (ABool personal))) = true)
    by (destruct personal; reflexivity).
  split.
  - eexists. split.
    + rewrite dict_as_properties_spec. cbn [rbind]. apply request_xml_document.
    + now apply build_document_lt.
  - eexists. split; [apply request_xml_no_props | now apply build_document_lt].
Qed.

(** X17: the personal flag is rendered in lower case, [true] or [false],
    as the first attribute of the root element. *)
Theorem X17_personal_in_lower_case :
  forall (buildid branch remote : argval) (personal : bool) (props : dict),
    (exists document : string,
        (xml <- dict_as_properties props ;;
         request_xml buildid (ABool personal) branch remote (AStr xml))%result
        = Return document
        /\ startswith document
             (nl ++ "<build personal="
                 ++ quoted (if personal then "true" else "false") ++ " branchName=")
           = true)
    /\ (exists document : string,
           request_xml buildid (ABool personal) branch remote ANone = Return document
           /\ startswith document
                (nl ++ "<build personal="
                    ++ quoted (if personal then "true" else "false") ++ " branchName=")
              = true).
Proof.
  intros buildid branch remote personal props. split.
  - eexists. split.
    + rewrite dict_as_properties_spec. cbn [rbind]. apply request_xml_document.
    + destruct personal; reflexivity.
  - eexists. split; [apply request_xml_no_props|].
    destruct personal; reflexivity.
Qed.



(** ** The server given with a path *)

Lemma span_until_stop (stop : ascii -> bool) (a b : string) (c : ascii) :
  string_forall (fun d => negb (stop d)) a = true -> stop c = true ->
  span_until stop (a ++ String c b) = (a, String c b).
Proof.
  intros Ha Hc. induction a as [|d a IH]; simpl.
  - now rewrite Hc.
  - simpl in Ha. apply andb_true_iff in Ha. destruct Ha as [Hd Ha].
    apply negb_true_iff in Hd. now rewrite Hd, (IH Ha).
Qed.

Lemma split_first_none (x : ascii) (s : string) :
  string_forall (fun c => negb (c =? x)%char) s = true -> split_first x s = None.
Proof.
  induction s as [|c s IH]; simpl; [reflexivity|].
  intros H. apply andb_true_iff in H. destruct H as [Hc H].
  apply negb_true_iff in Hc. now rewrite Hc, IH.
Qed.

Lemma string_forall_app (f : ascii -> bool) (a b : string) :
  string_forall f (a ++ b) = string_forall f a && string_forall f b.
Proof.
  induction a as [|c a IH]; simpl; [reflexivity|]. now rewrite IH, andb_assoc.
Qed.

Ltac split_path_url scheme url netloc path Hf Hfp Hd Ho Hc Ha Hh Hq :=
  change (lstrip c0_control_or_space (scheme ++ "://" ++ netloc ++ "/" ++ path))
    with (url ++ netloc ++ "/" ++ path);
  rewrite !string_filter_app, Hf, Hfp;
  change (string_filter _ url) with url;
  change (string_filter _ "/") with "/";
  change (split_first ":" (url ++ netloc ++ "/" ++ path))
    with (Some (scheme, "//" ++ netloc ++ "/" ++ path));
  cbv beta iota;
  match goal with
  | |- context [is_ascii ?c && is_alpha ?c && string_forall scheme_char scheme] =>
      change (is_ascii c && is_alpha c && string_forall scheme_char scheme) with true
  end;
  cbv beta iota;
  change ("//" ++ netloc ++ "/" ++ path)
    with (String "/" (String "/" (netloc ++ "/" ++ path)));
  cbv beta iota; rewrite Hd, Ho, Hc; cbn [xorb andb rbind];
  rewrite Hh, Hq, Ha, andb_false_r; reflexivity.

(** [urlsplit] on [scheme://netloc/path]. *)
Lemma urlsplit_path (scheme netloc path : string) :
  scheme = "http" \/ scheme = "https" -> plain_netloc netloc = true ->
  string_forall path_char path = true ->
  urlsplit (scheme ++ "://" ++ netloc ++ "/" ++ path) ""
  = Return (scheme, netloc, "/" ++ path, "", "").
Proof.
  intros Hs Hn Hp.
  assert (Hf : string_filter (fun c => negb (unsafe_url_byte c)) netloc = netloc).
  { apply string_filter_id. revert Hn. apply string_forall_impl.
    intros c Hc. now apply plain_netloc_char_facts in Hc. }
  assert (Hfp : string_filter (fun c => negb (unsafe_url_byte c)) path = path).
  { apply string_filter_id. revert Hp. apply string_forall_impl.
    intros c Hc. unfold path_char in Hc.
    now repeat (apply andb_true_iff in Hc; destruct Hc as [Hc ?]). }
  assert (Hd : span_until netloc_delimiter (netloc ++ "/" ++ path) = (netloc, "/" ++ path)).
  { apply span_until_stop; [|reflexivity]. revert Hn. apply string_forall_impl.
    intros c Hc. now apply plain_netloc_char_facts in Hc. }
  assert (Ho : contains_char "[" netloc = false).
  { apply contains_char_none. revert Hn. apply string_forall_impl.
    intros c Hc. now apply plain_netloc_char_facts in Hc. }
  assert (Hc : contains_char "]" netloc = false).
  { apply contains_char_none. revert Hn. apply string_forall_impl.
    intros c Hc. now apply plain_netloc_char_facts in Hc. }
  assert (Ha : string_forall is_ascii netloc = true).
  { revert Hn. apply string_forall_impl.
    intros c Hc'. now apply plain_netloc_char_facts in Hc'. }
  assert (Hh : split_first "#" ("/" ++ path) = None).
  { apply split_first_none. cbn [append string_forall]. cbn [Ascii.eqb Bool.eqb negb andb].
    revert Hp. apply string_forall_impl. intros c Hc'. unfold path_char in Hc'.
    now repeat (apply andb_true_iff in Hc'; destruct Hc' as [Hc' ?]). }
  assert (Hq : split_first "?" ("/" ++ path) = None).
  { apply split_first_none. cbn [append string_forall]. cbn [Ascii.eqb Bool.eqb negb andb].
    revert Hp. apply string_forall_impl. intros c Hc'. unfold path_char in Hc'.
    now repeat (apply andb_true_iff in Hc'; destruct Hc' as [Hc' ?]). }
  unfold urlsplit. cbv zeta.
  destruct Hs as [-> | ->].
  - split_path_url "http" "http://" netloc path Hf Hfp Hd Ho Hc Ha Hh Hq.
  - split_path_url "https" "https://" netloc path Hf Hfp Hd Ho Hc Ha Hh Hq.
Qed.

Lemma contains_char_forall (x : ascii) (f : ascii -> bool) (s : string) :
  (forall c, f c = true -> (c =? x)%char = false) ->
  string_forall f s = true -> contains_char x s = false.
Proof.
  intros Hf H. apply contains_char_none. revert H. apply string_forall_impl.
  intros c Hc. now rewrite (Hf c Hc).
Qed.

Lemma path_char_semicolon (c : ascii) : path_char c = true -> (c =? ";")%char = false.
Proof.
  unfold path_char. intros H.
  repeat (apply andb_true_iff in H; destruct H as [H ?]).
  now apply negb_true_iff.
Qed.

Lemma plain_path_char_facts (c : ascii) :
  plain_path_char c = true -> path_char c = true /\ (c =? "/")%char = false.
Proof.
  unfold plain_path_char, path_char. intros H.
  repeat (apply andb_true_iff in H; destruct H as [H ?]).
  repeat match goal with
         | H : negb _ = true |- _ => apply negb_true_iff in H
         end.
  split; [|assumption].
  repeat (apply andb_true_iff; split); now apply negb_true_iff.
Qed.

Lemma urlparse_path (scheme netloc path : string) :
  scheme = "http" \/ scheme = "https" -> plain_netloc netloc = true ->
  string_forall path_char path = true ->
  urlparse (scheme ++ "://" ++ netloc ++ "/" ++ path) ""
  = Return (scheme, netloc, "/" ++ path, "", "", "").
Proof.
  intros Hs Hn Hp. unfold urlparse.
  rewrite (urlsplit_path _ _ _ Hs Hn Hp). cbn [rbind].
  assert (Hsc : contains_char ";" ("/" ++ path) = false).
  { cbn [append contains_char]. cbn [Ascii.eqb Bool.eqb orb].
    revert Hp. apply contains_char_forall. exact path_char_semicolon. }
  now rewrite Hsc, andb_false_r.
Qed.

(** *** Splitting and joining the segments of a path *)

Lemma split_plain_name (s : string) :
  plain_name s = true -> split "/" s = [s].
Proof.
  unfold plain_name. induction s as [|c s IH]; [reflexivity|].
  cbn [string_forall split]. intros H. apply andb_true_iff in H. destruct H as [Hc H].
  apply plain_path_char_facts in Hc. destruct Hc as [_ ->]. now rewrite (IH H).
Qed.

Lemma split_segment (s t : string) :
  plain_name s = true -> split "/" (s ++ "/" ++ t) = s :: split "/" t.
Proof.
  unfold plain_name. induction s as [|c s IH]; [reflexivity|].
  cbn [string_forall]. intros H. apply andb_true_iff in H. destruct H as [Hc H].
  apply plain_path_char_facts in Hc. destruct Hc as [_ Hc].
  change ((String c s) ++ "/" ++ t) with (String c (s ++ "/" ++ t)).
  cbn [split]. now rewrite Hc, (IH H).
Qed.

Lemma split_join (l : list string) :
  l <> [] -> forallb plain_name l = true -> split "/" (join "/" l) = l.
Proof.
  induction l as [|w [|w' ws] IH]; [contradiction | |]; intros _ H.
  - cbn [forallb] in H. apply andb_true_iff in H. destruct H as [Hw _].
    now apply split_plain_name.
  - cbn [forallb] in H. apply andb_true_iff in H. destruct H as [Hw H].
    change (join "/" (w :: w' :: ws)) with (w ++ "/" ++ join "/" (w' :: ws)).
    rewrite (split_segment _ _ Hw). f_equal. apply IH; [discriminate | exact H].
Qed.

Lemma path_char_join (l : list string) :
  forallb plain_name l = true -> string_forall path_char (join "/" l) = true.
Proof.
  assert (Hname : forall w, plain_name w = true -> string_forall path_char w = true).
  { intros w. apply string_forall_impl. intros c Hc.
    now apply plain_path_char_facts in Hc. }
  induction l as [|w [|w' ws] IH]; [reflexivity | |]; intros H.
  - cbn [forallb] in H. apply andb_true_iff in H. destruct H as [Hw _].
    now apply Hname.
  - cbn [forallb] in H. apply andb_true_iff in H. destruct H as [Hw H].
    change (join "/" (w :: w' :: ws)) with (w ++ "/" ++ join "/" (w' :: ws)).
    rewrite !string_forall_app, (Hname _ Hw), (IH H). reflexivity.
Qed.

Lemma resolve_plain (l : list string) :
  forallb (fun w => negb (w =? "..") && negb (w =? ".")) l = true ->
  forall acc, fold_left (fun resolved_path seg =>
                           if seg =? ".." then removelast resolved_path
                           else if seg =? "." then resolved_path
                           else (resolved_path ++ [seg])%list)
                        l acc
              = (acc ++ l)%list.
Proof.
  induction l as [|w l IH]; intros H acc; [now rewrite app_nil_r|].
  cbn [forallb] in H. apply andb_true_iff in H. destruct H as [Hw H].
  apply andb_true_iff in Hw. destruct Hw as [H1 H2].
  apply negb_true_iff in H1, H2.
  cbn [fold_left]. rewrite H1, H2, (IH H). now rewrite <- app_assoc.
Qed.

Lemma plain_segment_name (l : list string) :
  forallb plain_segment l = true -> forallb plain_name l = true.
Proof.
  induction l as [|w l IH]; [reflexivity|]. cbn [forallb]. intros H.
  apply andb_true_iff in H. destruct H as [Hw H]. rewrite (IH H), andb_true_r.
  unfold plain_segment in Hw.
  now repeat (apply andb_true_iff in Hw; destruct Hw as [Hw ?]).
Qed.

Lemma filter_segments (l : list string) :
  forallb plain_segment l = true -> filter (fun w => negb (w =? "")) l = l.
Proof.
  induction l as [|w l IH]; [reflexivity|]. cbn [forallb filter]. intros H.
  apply andb_true_iff in H. destruct H as [Hw H]. rewrite (IH H).
  unfold plain_segment in Hw.
  repeat (apply andb_true_iff in Hw; destruct Hw as [Hw ?]).
  match goal with
  | He : negb (w =? "") = true |- _ => now rewrite He
  end.
Qed.

Lemma segments_not_dots (l : list string) :
  forallb plain_segment l = true ->
  forallb (fun w => negb (w =? "..") && negb (w =? ".")) l = true.
Proof.
  induction l as [|w l IH]; [reflexivity|]. cbn [forallb]. intros H.
  apply andb_true_iff in H. destruct H as [Hw H]. rewrite (IH H), andb_true_r.
  unfold plain_segment in Hw.
  repeat (apply andb_true_iff in Hw; destruct Hw as [Hw ?]).
  apply andb_true_iff. now split.
Qed.

(** The segments [urljoin] resolves: those of the base without what
    follows its last slash, then those of the relative path. *)
Lemma joined_segments (dirs : list string) (name : string) :
  forallb plain_segment dirs = true ->
  filter_inner ((if negb (last ("" :: dirs ++ [name]) "" =? "")
                 then removelast ("" :: dirs ++ [name])
                 else "" :: dirs ++ [name])
                ++ ["httpAuth"; "app"; "rest"; "buildQueue"])
  = "" :: dirs ++ ["httpAuth"; "app"; "rest"; "buildQueue"].
Proof.
  intros Hd.
  rewrite (app_comm_cons dirs [name] ""), last_last, removelast_last.
  assert (H : forall inner,
             filter (fun w => negb (w =? "")) inner = ["httpAuth"; "app"; "rest"] ->
             filter_inner (("" :: dirs ++ inner ++ ["buildQueue"]))
             = "" :: dirs ++ ["httpAuth"; "app"; "rest"; "buildQueue"]).
  { intros inner Hi. unfold filter_inner.
    destruct (dirs ++ inner ++ ["buildQueue"])%list as [|x xs] eqn:Hx.
    - destruct dirs, inner; discriminate Hx.
    - rewrite <- Hx, app_assoc, removelast_last, last_last, filter_app,
        (filter_segments _ Hd), Hi.
      now rewrite <- app_assoc. }
  destruct (name =? "") eqn:Hname; cbn [negb].
  - apply String.eqb_eq in Hname. subst name.
    rewrite <- app_assoc. cbn [app].
    apply (H [""; "httpAuth"; "app"; "rest"]). reflexivity.
  - cbn [app]. apply (H ["httpAuth"; "app"; "rest"]). reflexivity.
Qed.

Lemma startswith_empty (s : string) : startswith s "" = true.
Proof. now destruct s. Qed.

Lemma join_cons (sep w : string) (l : list string) :
  l <> [] -> join sep (w :: l) = w ++ sep ++ join sep l.
Proof. destruct l; [contradiction | reflexivity]. Qed.

Lemma segment_start (dirs : list string) :
  forallb plain_segment dirs = true ->
  startswith (join "/" (dirs ++ ["httpAuth"; "app"; "rest"; "buildQueue"])) "/" = false.
Proof.
  destruct dirs as [|d ds]; [reflexivity|]. cbn [forallb]. intros H.
  apply andb_true_iff in H. destruct H as [Hd _].
  rewrite <- app_comm_cons, join_cons by (destruct ds; discriminate).
  unfold plain_segment, plain_name in Hd.
  repeat (apply andb_true_iff in Hd; destruct Hd as [Hd ?]).
  destruct d as [|c d]; [discriminate|].
  cbn [string_forall] in Hd. apply andb_true_iff in Hd. destruct Hd as [Hc _].
  apply plain_path_char_facts in Hc. destruct Hc as [_ Hc].
  cbn [append startswith]. now rewrite Ascii.eqb_sym, Hc.
Qed.

Lemma urljoin_path (scheme netloc : string) (dirs : list string) (name : string) :
  scheme = "http" \/ scheme = "https" -> plain_netloc netloc = true ->
  forallb plain_segment dirs = true -> plain_name name = true ->
  urljoin (scheme ++ "://" ++ netloc ++ "/" ++ join "/" (dirs ++ [name]))
          "httpAuth/app/rest/buildQueue"
  = Return (scheme ++ "://" ++ netloc ++ "/"
              ++ join "/" (dirs ++ ["httpAuth"; "app"; "rest"; "buildQueue"])).
Proof.
  intros Hs Hn Hd Hl.
  assert (Hnames : forallb plain_name (dirs ++ [name]) = true).
  { rewrite forallb_app, (plain_segment_name _ Hd). cbn. now rewrite Hl. }
  unfold urljoin.
  assert (Hb : (scheme ++ "://" ++ netloc ++ "/" ++ join "/" (dirs ++ [name]) =? "") = false)
    by (destruct Hs as [-> | ->]; reflexivity).
  rewrite Hb. cbn [String.eqb].
  rewrite (urlparse_path _ _ _ Hs Hn (path_char_join _ Hnames)). cbn [rbind].
  assert (Hrel : urlparse "httpAuth/app/rest/buildQueue" scheme
                 = Return (scheme, "", "httpAuth/app/rest/buildQueue", "", "", ""))
    by (destruct Hs as [-> | ->]; vm_compute; reflexivity).
  rewrite Hrel. cbn [rbind]. rewrite String.eqb_refl. cbn [negb orb].
  assert (Hrelative : mem_string scheme uses_relative = true)
    by (destruct Hs as [-> | ->]; reflexivity).
  assert (Hnetloc : mem_string scheme uses_netloc = true)
    by (destruct Hs as [-> | ->]; reflexivity).
  rewrite Hrelative, Hnetloc. cbn [negb andb String.eqb].
  change (startswith "httpAuth/app/rest/buildQueue" "/") with false. cbv iota.
  change (split "/" "httpAuth/app/rest/buildQueue")
    with ["httpAuth"; "app"; "rest"; "buildQueue"].
  change ("/" ++ join "/" (dirs ++ [name])) with (String "/" (join "/" (dirs ++ [name]))).
  cbn [split Ascii.eqb Bool.eqb].
  assert (Hne : (dirs ++ [name])%list <> []) by (destruct dirs; discriminate).
  rewrite (split_join _ Hne Hnames).
  rewrite (joined_segments _ _ Hd).
  assert (Hlast : last ("" :: dirs ++ ["httpAuth"; "app"; "rest"; "buildQueue"]) ""
                  = "buildQueue").
  { rewrite (app_comm_cons dirs _ "").
    change ["httpAuth"; "app"; "rest"; "buildQueue"]
      with (["httpAuth"; "app"; "rest"] ++ ["buildQueue"])%list.
    rewrite app_assoc. apply last_last. }
  rewrite Hlast. change (mem_string "buildQueue" ["."; ".."]) with false. cbv iota.
  assert (Hres : resolve_segments ("" :: dirs ++ ["httpAuth"; "app"; "rest"; "buildQueue"])
                 = "" :: dirs ++ ["httpAuth"; "app"; "rest"; "buildQueue"]).
  { unfold resolve_segments. rewrite resolve_plain; [reflexivity|].
    cbn [forallb]. rewrite forallb_app, (segments_not_dots _ Hd). reflexivity. }
  rewrite Hres.
  rewrite join_cons by (destruct dirs; discriminate).
  change ("" ++ "/" ++ join "/" (dirs ++ ["httpAuth"; "app"; "rest"; "buildQueue"]))
    with (String "/" (join "/" (dirs ++ ["httpAuth"; "app"; "rest"; "buildQueue"]))).
  cbn [String.eqb].
  unfold urlunparse, urlunsplit. cbn [String.eqb negb].
  rewrite Hnetloc.
  cbn [startswith Ascii.eqb Bool.eqb andb].
  rewrite (segment_start _ Hd), startswith_empty.
  assert (Hscheme : (scheme =? "") = false) by (destruct Hs as [-> | ->]; reflexivity).
  rewrite Hscheme. cbn [negb andb]. rewrite orb_true_r.
  destruct Hs as [-> | ->]; reflexivity.
Qed.

(** X18: when the server is given with a path, [urljoin] drops what follows
    the last slash of the path and appends the build queue to the rest:
    [https://host/teamcity] leads to
    [https://host/httpAuth/app/rest/buildQueue], and
    [https://host/teamcity/] to
    [https://host/teamcity/httpAuth/app/rest/buildQueue]; a slash at the end
    never leads to a double slash. *)
Theorem X18_server_with_path :
  forall (scheme netloc : string) (dirs : list string) (name : string),
    scheme = "http" \/ scheme = "https" -> plain_netloc netloc = true ->
    forallb plain_segment dirs = true -> plain_name name = true ->
    build_queue_url (AStr (scheme ++ "://" ++ netloc ++ "/" ++ join "/" (dirs ++ [name])))
    = Return (scheme ++ "://" ++ netloc ++ "/"
                ++ join "/" (dirs ++ ["httpAuth"; "app"; "rest"; "buildQueue"])).
Proof.
  intros scheme netloc dirs name Hs Hn Hd Hl. now apply urljoin_path.
Qed.

(** ** The commands that request a build

    The action that [parse_optional] finds for a string is one of the
    table of option strings, so never a positional. *)

Section Table.
Variable p : parser.

Lemma lookup_option_table (o : string) (a : action) :
  lookup_option p o = Some a -> In a (map snd (option_string_actions p)).
Proof.
  unfold lookup_option.
  destruct (find _ (option_string_actions p)) as [oa|] eqn:Hf; [|discriminate].
  intros [= <-]. apply find_some in Hf. destruct Hf as [Hin _]. now apply in_map.
Qed.

Lemma get_option_tuples_table (s : string) (a : action) (o : string) (e : option string) :
  In (a, o, e) (get_option_tuples p s) -> In a (map snd (option_string_actions p)).
Proof.
  assert (Hmatch : forall (f : string * action -> list (action * string * option string)),
             (forall oa t, In t (f oa) -> fst (fst t) = snd oa) ->
             In (a, o, e) (flat_map f (option_string_actions p)) ->
             In a (map snd (option_string_actions p))).
  { intros f Hf Hin. apply in_flat_map in Hin. destruct Hin as [oa [Hoa Hin]].
    apply Hf in Hin. simpl in Hin. subst a. now apply in_map. }
  unfold get_option_tuples. destruct s as [|c0 [|c1 rest]]; try (intros []).
  destruct (c1 =? "-")%char.
  - destruct (split_first "=" (String c0 (String c1 rest))) as [[b a0]|];
      apply Hmatch; intros oa t; destruct (startswith _ _); simpl;
      intuition (subst; reflexivity).
  - apply Hmatch. intros oa t.
    destruct (fst oa =? _); [simpl; intuition (subst; reflexivity)|].
    destruct (startswith _ _); simpl; intuition (subst; reflexivity).
Qed.

Lemma parse_optional_table (s : string) (a : action) (o : string) (e : option string) :
  parse_optional p s = Optional (Some a) o e ->
  In a (map snd (option_string_actions p)).
Proof.
  unfold parse_optional. destruct s as [|c0 tail]; [discriminate|].
  destruct (negb (c0 =? "-")%char); [discriminate|].
  destruct (lookup_option p (String c0 tail)) as [a0|] eqn:Hl.
  - intros [= <- _ _]. now apply lookup_option_table in Hl.
  - destruct (tail =? ""); [discriminate|].
    destruct (split_first "=" (String c0 tail)) as [[o' e']|].
    + destruct (lookup_option p o') as [a0|] eqn:Hl'.
      * intros [= <- _ _]. now apply lookup_option_table in Hl'.
      * destruct (get_option_tuples p (String c0 tail)) as [|[[a1 o1] e1] [|t l]] eqn:Hg;
          try discriminate.
        -- destruct (negative_number _); [discriminate|].
           destruct (contains_char _ _); discriminate.
        -- intros [= <- _ _]. apply (get_option_tuples_table (String c0 tail) a1 o1 e1).
           rewrite Hg. now left.
    + destruct (get_option_tuples p (String c0 tail)) as [|[[a1 o1] e1] [|t l]] eqn:Hg;
        try discriminate.
      * destruct (negative_number _); [discriminate|].
        destruct (contains_char _ _); discriminate.
      * intros [= <- _ _]. apply (get_option_tuples_table (String c0 tail) a1 o1 e1).
        rewrite Hg. now left.
Qed.

(** The tuples that are complete stay in front. *)
Lemma explicit_loop_front (x : string) :
  forall (a : action) (single_dash : bool) (t0 : action * list string)
         (tuples : list (action * list string)),
    match explicit_loop p a single_dash x (t0 :: tuples) with
    | GroupError => True
    | GroupDone ts => exists ts', ts = t0 :: ts'
    | GroupOpen ts _ => exists ts', ts = t0 :: ts'
    end.
Proof.
  induction x as [|c x IH]; intros a sd t0 tuples; cbn [explicit_loop].
  - destruct (takes_argument a); [now eexists|]. now destruct sd.
  - destruct (takes_argument a); [now eexists|].
    destruct sd; [|exact I].
    destruct (lookup_option p (String "-" (String c ""))) as [a'|]; [|exact I].
    pose proof (IH a' (negb (c =? "-")%char) t0 (tuples ++ [(a, [])])%list) as H.
    destruct x as [|c' x']; [now eexists | exact H].
Qed.

End Table.

Lemma command_options (a : action) :
  In a (map snd (option_string_actions command_parser)) ->
  takes_argument a = false
  /\ forall st tuples, take_actions command_parser st ((a, []) :: tuples) = Halt HelpExit.
Proof.
  intros H. vm_compute in H. destruct H as [<- | [<- | []]]; split; reflexivity.
Qed.

(** What [TC.__init__] parses: the one string is the command, unless it is
    taken for an option. *)
Lemma parse_command_inv (a : string) (ns : namespace) :
  parse_args command_parser [a] = Parsed ns ->
  ns = [("command", AStr a)] /\ parse_optional command_parser a = NotOptional.
Proof.
  unfold parse_args. cbn [classify].
  destruct (a =? "--"); [vm_compute; discriminate|].
  destruct (parse_optional command_parser a) as [|[act|] o e|] eqn:Hp;
    cbn [classify]; try (vm_compute; discriminate).
  - vm_compute. now intros [= <-].
  - apply parse_optional_table, command_options in Hp. destruct Hp as [Hta Hhelp].
    cbn [consume]. destruct e as [x|].
    + destruct x as [|c x]; cbn [explicit_loop]; rewrite Hta.
      * destruct (single_dash_option o); discriminate.
      * destruct (single_dash_option o); [|discriminate].
        destruct (lookup_option command_parser (String "-" (String c ""))) as [a'|];
          [|discriminate].
        destruct x as [|c' x'] eqn:Hx.
        -- cbn [app]. destruct (takes_argument a'); [discriminate|].
           now rewrite Hhelp.
        -- rewrite <- Hx. cbn [app].
           pose proof (explicit_loop_front command_parser x a' (negb (c =? "-")%char)
                         (act, []) []) as Hfront.
           destruct (explicit_loop command_parser a' _ x [(act, [])])
             as [|ts|ts a'']; [discriminate| |].
           ++ destruct Hfront as [ts' ->]. now rewrite Hhelp.
           ++ destruct Hfront as [ts' ->].
              destruct (takes_argument a''); [discriminate|].
              cbn [app]. now rewrite Hhelp.
    + rewrite Hta. cbn [app]. now rewrite Hhelp.
Qed.

Lemma TC_attribute_command (name : string) (a : attribute) :
  TC_attribute name = Some a ->
  match a with
  | Linux => name = "linux"
  | Har => name = "har"
  | Init => name = "__init__"
  | Class => name = "__class__"
  | _ => True
  end.
Proof.
  unfold TC_attribute.
  destruct (find _ TC_attributes) as [[n a']|] eqn:Hf; [|discriminate].
  intros [= <-]. apply find_some in Hf. destruct Hf as [Hin Heq].
  apply String.eqb_eq in Heq. cbn [fst] in Heq. subst n. cbn [snd].
  unfold TC_attributes in Hin. simpl in Hin.
  repeat (destruct Hin as [[= <- <-] | Hin]; [first [reflexivity | exact I]|]).
  contradiction.
Qed.

(** X19: a build is requested only through the commands [linux] and [har]:
    when a run sends a request, the command line is one of these two
    commands and its arguments, possibly after the names [__init__] and
    [__class__], which lead back to the dispatcher. *)
Theorem X19_builds_only_by_command :
  forall argv : list string,
    posts (main argv) <> [] ->
    exists (again : list string) (command : string) (subargs : list string),
      argv = (again ++ command :: subargs)%list
      /\ Forall (fun s => s = "__init__" \/ s = "__class__") again
      /\ (command = "linux" \/ command = "har").
Proof.
  unfold main. induction argv as [|a rest IH]; intros Hposts.
  - now destruct Hposts.
  - revert Hposts. cbn [TC_init]. unfold TC_init_body. cbn [firstn tl].
    destruct (parse_args command_parser [a]) as [ns| |] eqn:Hp.
    + destruct (parse_command_inv _ _ Hp) as [-> _].
      rewrite (run_parser_parsed _ _ _ Hp). run_handler.
      destruct (TC_attribute a) as [attribute|] eqn:Ha;
        [|intros H; now destruct H].
      apply TC_attribute_command in Ha.
      destruct attribute; try (intros H; now destruct H); subst a; intros Hposts.
      * exists [], "linux", rest. repeat split; [constructor | now left].
      * exists [], "har", rest. repeat split; [constructor | now right].
      * destruct (IH Hposts) as (again & command & subargs & -> & Hagain & Hc).
        exists ("__init__" :: again), command, subargs.
        repeat split; [constructor; [now left | exact Hagain] | exact Hc].
      * destruct (IH Hposts) as (again & command & subargs & -> & Hagain & Hc).
        exists ("__class__" :: again), command, subargs.
        repeat split; [constructor; [now right | exact Hagain] | exact Hc].
    + rewrite (run_parser_help _ _ Hp). intros H. now destruct H.
    + rewrite (run_parser_error _ _ Hp). intros H. now destruct H.
Qed.

(** ** The required options

    For a parser [p] without positionals and a required option [rid] of
    it: the option is seen only when a string of the command line stands
    for it, and such a string starts with the short or with the long name
    of the option. *)

Section Required.

Variable p : parser.
Variable rid : string.

Hypothesis no_positional : filter is_positional (actions p) = [].

Hypothesis is_required :
  existsb (fun a => required a && (action_id a =? rid)) (actions p) = true.

Hypothesis flags_show_help :
  forall oa, In oa (option_string_actions p) ->
             takes_argument (snd oa) = false -> single_dash_option (fst oa) = true ->
             forall st args, take_action p st (snd oa) args = Halt HelpExit.

Lemma take_action_seen_ids (st st' : parse_state) (a : action) (args : list string) :
  take_action p st a args = Go st' -> st_seen st' = action_id a :: st_seen st.
Proof.
  unfold take_action.
  destruct (negb _); [intros H; discriminate H|].
  destruct (existsb _ (action_conflicts p a)); [intros H; discriminate H|].
  destruct (kind a).
  - destruct args as [|v [|]]; intros H; try discriminate H. now injection H as <-.
  - intros H. now injection H as <-.
  - intros H. now injection H as <-.
  - intros H. discriminate H.
Qed.

Lemma take_actions_avoid (tuples : list (action * list string)) :
  forall st st',
    harmless p rid tuples -> ~ In rid (st_seen st) ->
    take_actions p st tuples = Go st' -> ~ In rid (st_seen st').
Proof.
  intros st st' [Hall | (a & args & rest & -> & Hhalt)].
  - revert st. induction Hall as [|[a args] tuples Ha _ IH]; intros st Hs; cbn [take_actions].
    + now intros [= <-].
    + destruct (take_action p st a args) as [st1|r] eqn:Ht; [|discriminate].
      apply IH. rewrite (take_action_seen_ids _ _ _ _ Ht). intros [H|H]; [|now apply Hs].
      now apply Ha.
  - intros _. cbn [take_actions]. now rewrite Hhalt.
Qed.

Lemma finish_required (st : parse_state) (ns : namespace) :
  ~ In rid (st_seen st) -> finish p st <> Parsed ns.
Proof.
  intros Hs. unfold finish.
  assert (H : existsb (fun a => required a && negb (mem_string (action_id a) (st_seen st)))
                      (actions p) = true).
  { apply existsb_exists. apply existsb_exists in is_required.
    destruct is_required as (a & Hin & Ha). exists a. split; [exact Hin|].
    apply andb_true_iff in Ha. destruct Ha as [-> Hid]. apply String.eqb_eq in Hid.
    cbn [andb]. apply negb_true_iff.
    destruct (mem_string (action_id a) (st_seen st)) eqn:Hm; [|reflexivity].
    apply mem_string_in in Hm. rewrite Hid in Hm. now destruct (Hs Hm). }
  now rewrite H.
Qed.

Lemma explicit_loop_harmless (a : action) (o x : string) :
  In (o, a) (option_string_actions p) -> action_id a <> rid ->
  match explicit_loop p a (single_dash_option o) x [] with
  | GroupError => True
  | GroupDone ts => harmless p rid ts
  | GroupOpen ts a' => forall args, harmless p rid (ts ++ [(a', args)])
  end.
Proof.
  intros Hin Hid.
  destruct (takes_argument a) eqn:Hta.
  - destruct x; cbn [explicit_loop]; rewrite Hta; left; now repeat constructor.
  - destruct (single_dash_option o) eqn:Hsd.
    + pose proof (flags_show_help (o, a) Hin Hta Hsd) as Hhalt. cbn [snd] in Hhalt.
      destruct x as [|c x]; cbn [explicit_loop]; rewrite Hta; [exact I|].
      destruct (lookup_option p (String "-" (String c ""))) as [a'|]; [|exact I].
      pose proof (explicit_loop_front p x a' (negb (c =? "-")%char) (a, []) []) as Hfront.
      destruct x as [|c' x'].
      * intros args. right. now exists a, [], [(a', args)].
      * cbn [app]. destruct (explicit_loop p a' _ _ [(a, [])]) as [|ts|ts a''].
        -- exact I.
        -- destruct Hfront as [ts' ->]. right. now exists a, [], ts'.
        -- destruct Hfront as [ts' ->]. intros args. right.
           now exists a, [], (ts' ++ [(a'', args)])%list.
    + destruct x; cbn [explicit_loop]; rewrite Hta; exact I.
Qed.

(** Without an occurrence of a required option, the parse fails. *)
Lemma consume_required (l : list (string * arg_class)) :
  forall pending st ns,
    Forall (entry_avoids p rid) l -> ~ In rid (st_seen st) -> st_positionals st = [] ->
    match pending with
    | Some (ts, a) => forall args, harmless p rid (ts ++ [(a, args)])
    | None => True
    end ->
    consume p l pending false st <> Parsed ns.
Proof.
  induction l as [|[s c] rest IH]; intros pending st ns Hl Hs Hps Hpending.
  - cbn [consume]. destruct pending; [discriminate | now apply finish_required].
  - apply Forall_cons_iff in Hl. destruct Hl as [Hc Hl].
    assert (Hgo : forall tuples st',
               harmless p rid tuples -> take_actions p st tuples = Go st' ->
               consume p rest None false st' <> Parsed ns).
    { intros tuples st' Hh Ht. apply IH; [exact Hl | | | exact I].
      - eapply take_actions_avoid; eauto.
      - apply take_actions_frame in Ht. destruct Ht as (_ & -> & _). exact Hps. }
    cbn [consume]. destruct pending as [[tuples a]|].
    + destruct c; try discriminate.
      destruct (take_actions p st _) as [st'|r] eqn:Ht;
        [eapply Hgo; eauto | eapply take_actions_halt; eauto].
    + destruct c as [|[a|] o e|].
      * rewrite Hps. apply consume_extras, add_extra_not_empty.
      * destruct Hc as [Hin Hid]. cbn [snd] in *.
        pose proof (explicit_loop_harmless a o) as Hloop.
        destruct e as [x|].
        -- specialize (Hloop x Hin Hid).
           destruct (explicit_loop p a (single_dash_option o) x []) as [|ts|ts a'].
           ++ discriminate.
           ++ destruct (take_actions p st ts) as [st'|r] eqn:Ht;
                [eapply Hgo; eauto | eapply take_actions_halt; eauto].
           ++ destruct (takes_argument a').
              ** apply IH; assumption.
              ** destruct (take_actions p st _) as [st'|r] eqn:Ht;
                   [eapply Hgo; eauto | eapply take_actions_halt; eauto].
        -- assert (Hone : forall args, harmless p rid ([] ++ [(a, args)])).
           { intros args. left. now repeat constructor. }
           destruct (takes_argument a).
           ++ apply IH; assumption.
           ++ destruct (take_actions p st _) as [st'|r] eqn:Ht;
                [eapply Hgo; eauto | eapply take_actions_halt; eauto].
      * apply consume_extras, add_extra_not_empty.
      * rewrite Hps. cbn [orb].
        replace (match rest with [] => false | _ :: _ => false end) with false
          by now destruct rest.
        apply consume_extras, add_extra_not_empty.
Qed.

(** *** Which strings stand for an option *)

Variable c : ascii.
Variable w : string.

Hypothesis c_letter : (c =? "-")%char = false /\ (c =? "=")%char = false.

Hypothesis option_strings_of_rid :
  forall oa, In oa (option_string_actions p) -> action_id (snd oa) = rid ->
             fst oa = String "-" (String c "")
             \/ fst oa = String "-" (String "-" (String c w)).

Hypothesis equals_ambiguous :
  forall x, parse_optional p (String "-" (String "-" (String "=" x))) = Ambiguous.

Lemma split_first_some (x : ascii) (s b a : string) :
  split_first x s = Some (b, a) -> s = b ++ String x a.
Proof.
  revert b a. induction s as [|d s IH]; intros b a; [discriminate|].
  cbn [split_first]. destruct (d =? x)%char eqn:Hd.
  - apply Ascii.eqb_eq in Hd. subst d. now intros [= <- <-].
  - destruct (split_first x s) as [[b' a']|]; [|discriminate].
    intros [= <- <-]. cbn [append]. now rewrite (IH b' a' eq_refl).
Qed.

Lemma lookup_option_entry (o : string) (a : action) :
  lookup_option p o = Some a -> In (o, a) (option_string_actions p).
Proof.
  unfold lookup_option.
  destruct (find _ (option_string_actions p)) as [[o' a']|] eqn:Hf; [|discriminate].
  intros [= <-]. apply find_some in Hf. destruct Hf as [Hin Heq].
  apply String.eqb_eq in Heq. cbn [fst] in Heq. now subst o'.
Qed.

(** The option strings of [rid] start with [-c] or [--c]. *)
Lemma mentions_option_string (o : string) (a : action) (rest : string) :
  In (o, a) (option_string_actions p) -> action_id a = rid ->
  mentions c (o ++ rest) = true.
Proof.
  intros Hin Hid. unfold mentions.
  destruct (option_strings_of_rid (o, a) Hin Hid) as [Ho | Ho]; cbn [fst] in Ho; subst o;
    cbn [append startswith]; rewrite !Ascii.eqb_refl; cbn [andb].
  - now destruct rest.
  - rewrite orb_true_iff. right. now destruct (w ++ rest).
Qed.

Lemma get_option_tuples_mentions (s : string) (a : action) (o : string)
      (e : option string) :
  In (a, o, e) (get_option_tuples p s) ->
  (s =? "--") = false ->
  (forall x, s <> String "-" (String "-" (String "=" x))) ->
  (forall c0 tail, s = String c0 tail -> c0 = "-"%char) ->
  In (o, a) (option_string_actions p)
  /\ (action_id a = rid -> mentions c s = true).
Proof.
  intros Hin Hdash Heq Hc0.
  destruct s as [|c0 [|c1 rest]]; try contradiction.
  pose proof (Hc0 c0 _ eq_refl) as ->.
  unfold get_option_tuples in Hin.
  destruct (c1 =? "-")%char eqn:Hc1.
  - apply Ascii.eqb_eq in Hc1. subst c1.
    destruct rest as [|c2 rest]; [discriminate Hdash|].
    destruct (c2 =? "=")%char eqn:Hc2.
    { apply Ascii.eqb_eq in Hc2. subst c2. now destruct (Heq rest). }
    assert (Hprefix : exists (b : string) (x : option string),
               (let (option_prefix, explicit_arg) :=
                  match split_first "=" (String "-" (String "-" (String c2 rest))) with
                  | Some (b, a) => (b, Some a)
                  | None => (String "-" (String "-" (String c2 rest)), None)
                  end in (option_prefix, explicit_arg))
               = (String "-" (String "-" (String c2 b)), x)).
    { cbn [split_first]. cbn [Ascii.eqb Bool.eqb]. rewrite Hc2.
      destruct (split_first "=" rest) as [[b x]|]; now eexists _, _. }
    destruct Hprefix as (b & x & Hprefix).
    destruct (match split_first "=" (String "-" (String "-" (String c2 rest))) with
              | Some (b, a) => (b, Some a)
              | None => (String "-" (String "-" (String c2 rest)), None)
              end) as [option_prefix explicit_arg].
    injection Hprefix as -> ->.
    apply in_flat_map in Hin. destruct Hin as ([o' a'] & Htable & Hin).
    cbn [fst snd] in Hin.
    destruct (startswith o' _) eqn:Hstart; [|contradiction].
    destruct Hin as [[= <- <- <-]|[]]. split; [exact Htable|].
    intros Hid.
    destruct (option_strings_of_rid _ Htable Hid) as [Ho | Ho]; cbn [fst] in Ho; subst o'.
    + cbn [startswith] in Hstart. rewrite !andb_false_r in Hstart. discriminate.
    + cbn [startswith] in Hstart. rewrite !Ascii.eqb_refl in Hstart.
      cbn [andb] in Hstart.
      apply andb_true_iff in Hstart. destruct Hstart as [Hc2c _].
      apply Ascii.eqb_eq in Hc2c. subst c2.
      unfold mentions. cbn [startswith]. rewrite !Ascii.eqb_refl.
      cbn [andb]. rewrite orb_true_iff. right. now destruct rest.
  - apply in_flat_map in Hin. destruct Hin as ([o' a'] & Htable & Hin).
    cbn [fst snd] in Hin.
    destruct (o' =? String "-" (String c1 "")) eqn:Hshort.
    + destruct Hin as [[= <- <- <-]|[]]. split; [exact Htable|].
      intros Hid. apply String.eqb_eq in Hshort. subst o'.
      destruct (option_strings_of_rid _ Htable Hid) as [Ho | Ho]; cbn [fst] in Ho.
      * injection Ho as ->. unfold mentions. cbn [startswith].
        rewrite !Ascii.eqb_refl. cbn [andb]. now destruct rest.
      * injection Ho as ->. discriminate Hc1.
    + destruct (startswith o' _) eqn:Hstart; [|contradiction].
      destruct Hin as [[= <- <- <-]|[]]. split; [exact Htable|].
      intros Hid.
      destruct (option_strings_of_rid _ Htable Hid) as [Ho | Ho]; cbn [fst] in Ho; subst o'.
      * cbn [startswith] in Hstart. rewrite !Ascii.eqb_refl in Hstart.
        cbn [andb] in Hstart.
        apply andb_true_iff in Hstart. destruct Hstart as [Hcc _].
        apply Ascii.eqb_eq in Hcc. subst c1.
        unfold mentions. cbn [startswith].
        rewrite !Ascii.eqb_refl. cbn [andb]. now destruct rest.
      * cbn [startswith] in Hstart. rewrite !Ascii.eqb_refl in Hstart.
        cbn [andb] in Hstart.
        apply andb_true_iff in Hstart. destruct Hstart as [Hcc _].
        rewrite Hcc in Hc1. discriminate.
Qed.

Lemma parse_optional_mentions (s : string) (a : action) (o : string)
      (e : option string) :
  parse_optional p s = Optional (Some a) o e -> (s =? "--") = false ->
  In (o, a) (option_string_actions p)
  /\ (action_id a = rid -> mentions c s = true).
Proof.
  intros Hp Hdash.
  assert (Heq : forall x, s <> String "-" (String "-" (String "=" x))).
  { intros x ->. now rewrite equals_ambiguous in Hp. }
  revert Hp. unfold parse_optional. destruct s as [|c0 tail]; [discriminate|].
  destruct (c0 =? "-")%char eqn:Hc0; [|discriminate]. cbn [negb].
  apply Ascii.eqb_eq in Hc0. subst c0.
  assert (Htuples : forall a1 o1 e1,
             In (a1, o1, e1) (get_option_tuples p (String "-" tail)) ->
             In (o1, a1) (option_string_actions p)
             /\ (action_id a1 = rid -> mentions c (String "-" tail) = true)).
  { intros a1 o1 e1 Hin. apply (get_option_tuples_mentions _ _ _ _ Hin Hdash Heq).
    now intros c0 tail' [= <- _]. }
  destruct (lookup_option p (String "-" tail)) as [a0|] eqn:Hl.
  - intros [= <- <- _]. apply lookup_option_entry in Hl. split; [exact Hl|].
    intros Hid. rewrite <- (append_nil_r (String "-" tail)).
    now apply (mentions_option_string _ a0).
  - destruct (tail =? ""); [discriminate|].
    destruct (split_first "=" (String "-" tail)) as [[o' e']|] eqn:Hsplit.
    + destruct (lookup_option p o') as [a0|] eqn:Hl'.
      * intros [= <- <- _]. apply lookup_option_entry in Hl'. split; [exact Hl'|].
        intros Hid. rewrite (split_first_some _ _ _ _ Hsplit).
        now apply (mentions_option_string _ a0).
      * destruct (get_option_tuples p (String "-" tail)) as [|[[a1 o1] e1] [|t l]] eqn:Hg;
          try discriminate.
        -- destruct (negative_number _); [discriminate|].
           destruct (contains_char _ _); discriminate.
        -- intros [= <- <- _]. apply (Htuples a1 o1 e1). now left.
    + destruct (get_option_tuples p (String "-" tail)) as [|[[a1 o1] e1] [|t l]] eqn:Hg;
        try discriminate.
      * destruct (negative_number _); [discriminate|].
        destruct (contains_char _ _); discriminate.
      * intros [= <- <- _]. apply (Htuples a1 o1 e1). now left.
Qed.

(** A command line none of whose strings starts with [-c] or [--c] has no
    occurrence of the option. *)
Lemma classify_avoids (args : list string) :
  forall l,
    forallb (fun s => negb (mentions c s)) args = true ->
    classify p args = Some l -> Forall (entry_avoids p rid) l.
Proof.
  induction args as [|s rest IH]; intros l Hargs.
  - intros [= <-]. constructor.
  - cbn [forallb] in Hargs. apply andb_true_iff in Hargs. destruct Hargs as [Hs Hrest].
    apply negb_true_iff in Hs.
    cbn [classify]. destruct (s =? "--") eqn:Hdash.
    + intros [= <-]. constructor; [exact I|].
      apply Forall_forall. intros sc Hin. apply in_map_iff in Hin.
      now destruct Hin as (r & <- & _).
    + destruct (parse_optional p s) as [|a o e|] eqn:Hp; [| |discriminate];
        (destruct (classify p rest) as [l'|]; [|discriminate]);
        intros [= <-]; (constructor; [|now apply IH]); [exact I|].
      destruct a as [a|]; [|exact I]. unfold entry_avoids. cbn [snd].
      destruct (parse_optional_mentions _ _ _ _ Hp Hdash) as [Hin Hm].
      split; [exact Hin|]. intros Hid. rewrite (Hm Hid) in Hs. discriminate.
Qed.

(** Without a mention of a required option, the command line does not
    parse. *)
Lemma parse_args_required (args : list string) (ns : namespace) :
  forallb (fun s => negb (mentions c s)) args = true ->
  parse_args p args <> Parsed ns.
Proof.
  intros Hargs. unfold parse_args.
  destruct (classify p args) as [l|] eqn:Hc; [|discriminate].
  apply consume_required; [| |exact no_positional | exact I].
  - now apply (classify_avoids args).
  - intros [].
Qed.

End Required.

Ltac required_option p no_pos cc ww :=
  apply (parse_args_required p (String "-" (String cc "")) no_pos
           ltac:(vm_compute; reflexivity)
           ltac:(intros [o a] Hin; vm_compute in Hin;
                 repeat (destruct Hin as [[= <- <-]|Hin];
                         [intros Hta Hsd; try discriminate Hta; try discriminate Hsd;
                          intros st args; reflexivity|]);
                 contradiction)
           cc ww (conj eq_refl eq_refl)
           ltac:(intros [o a] Hin Hid; vm_compute in Hin;
                 repeat (destruct Hin as [[= <- <-]|Hin];
                         [first [left; reflexivity | right; reflexivity
                                | vm_compute in Hid; discriminate Hid]|]);
                 contradiction)
           ltac:(intros x; vm_compute; reflexivity)).

Lemma linux_required (subargs : list string) (c : ascii) (ns : namespace) :
  In c ["u"; "p"; "b"]%char ->
  forallb (fun s => negb (mentions c s)) subargs = true ->
  parse_args linux_parser subargs <> Parsed ns.
Proof.
  intros [<- | [<- | [<- | []]]].
  - required_option linux_parser no_positional_linux "u"%char "ser".
  - required_option linux_parser no_positional_linux "p"%char "assword".
  - required_option linux_parser no_positional_linux "b"%char "ranch".
Qed.

Lemma har_required (subargs : list string) (c : ascii) (ns : namespace) :
  In c ["u"; "p"; "b"]%char ->
  forallb (fun s => negb (mentions c s)) subargs = true ->
  parse_args har_parser subargs <> Parsed ns.
Proof.
  intros [<- | [<- | [<- | []]]].
  - required_option har_parser no_positional_har "u"%char "ser".
  - required_option har_parser no_positional_har "p"%char "assword".
  - required_option har_parser no_positional_har "b"%char "ranch".
Qed.

(** X20: [-u], [-p] and [-b] are required by both builds: a command line
    none of whose strings starts with [-u] or [--u] (or with [-p] or [--p],
    or with [-b] or [--b]) is stopped by the parser, and nothing is
    requested. *)
Theorem X20_required_options :
  forall (subargs : list string) (c : ascii),
    In c ["u"; "p"; "b"]%char ->
    forallb (fun s => negb (mentions c s)) subargs = true ->
    (stopped_by_parser (main ("linux" :: subargs))
     /\ posts (main ("linux" :: subargs)) = [])
    /\ (stopped_by_parser (main ("har" :: subargs))
        /\ posts (main ("har" :: subargs)) = []).
Proof.
  intros subargs c Hc Hargs.
  assert (Hl : stopped_by_parser (main ("linux" :: subargs))).
  { apply main_linux_refused. intros ns. now apply (linux_required subargs c). }
  assert (Hh : stopped_by_parser (main ("har" :: subargs))).
  { apply main_har_refused. intros ns. now apply (har_required subargs c). }
  split; (split; [assumption|]).
  - now destruct Hl as [-> | ->].
  - now destruct Hh as [-> | ->].
Qed.


End Program.

(** * The claims on concrete runs *)

(** The URL the default [teamcity] option leads to. *)
Lemma default_build_queue_url :
  build_queue_url accept_netloc accept_netloc (AStr "https://build.neohq.net")
  = Return "https://build.neohq.net/httpAuth/app/rest/buildQueue".
Proof. vm_compute. reflexivity. Qed.

Lemma har_args_parse :
  parse_args har_parser ["-u"; "U"; "-p"; "P"; "-b"; "B"]
  = Parsed [("user", AStr "U"); ("password", AStr "P"); ("remote", AStr "origin");
            ("teamcity", AStr "https://build.neohq.net"); ("personal", ABool false);
            ("branch", AStr "B")].
Proof. vm_compute. reflexivity. Qed.

Lemma linux_args_parse :
  parse_args linux_parser ["-u"; "U"; "-p"; "P"; "-b"; "B"; "--maven-args=-DrunITs"]
  = Parsed [("user", AStr "U"); ("password", AStr "P"); ("remote", AStr "origin");
            ("teamcity", AStr "https://build.neohq.net"); ("personal", ABool false);
            ("maven_goals", AStr "clean verify"); ("maven_args", AStr "-DrunITs");
            ("branch", AStr "B"); ("jdk", AStr "openjdk-8")].
Proof. vm_compute. reflexivity. Qed.

Lemma har_argv_reaches_transport
      (server : string -> argval * argval -> list (string * string) -> string
                -> result Response) :
  main accept_netloc accept_netloc server har_argv
  = send_request accept_netloc accept_netloc server (AStr "U") (AStr "P")
                 (AStr "https://build.neohq.net") har_document.
Proof.
  unfold har_argv. rewrite main_har.
  destruct (TC_har_parsed accept_netloc accept_netloc server
              ["-u"; "U"; "-p"; "P"; "-b"; "B"] _ har_args_parse)
    as (user & password & branch & remote & teamcity & personal & Hns & ->).
  now injection Hns as <- <- <- <- <- <-.
Qed.

Lemma linux_argv_reaches_transport
      (server : string -> argval * argval -> list (string * string) -> string
                -> result Response) :
  main accept_netloc accept_netloc server linux_argv
  = send_request accept_netloc accept_netloc server (AStr "U") (AStr "P")
                 (AStr "https://build.neohq.net") linux_document.
Proof.
  unfold linux_argv. rewrite main_linux.
  destruct (TC_linux_parsed accept_netloc accept_netloc server
              ["-u"; "U"; "-p"; "P"; "-b"; "B"; "--maven-args=-DrunITs"] _
              linux_args_parse)
    as (user & password & branch & remote & teamcity & personal
        & goals & args & jdk & Hns & _ & ->).
  now injection Hns as <- <- <- <- <- <- <- <- <-.
Qed.

(** C1 on the three properties of a Linux build, none of which has a [<]:
    five elements in all. *)
Lemma C1_property_elements_witness :
  count_occurrences "<property "
    (build_document (AStr _neo4jlinux_id) (ABool false) (AStr "B")
       (("remote", AStr "origin") :: ("branch", AStr "B")
        :: items [("project-default-jdk", AStr "%openjdk-8%");
                  ("maven-goals", AStr "clean verify");
                  ("maven-args", AStr "-DrunITs")]))
  = 5.
Proof.
  apply (proj2 (proj2 (proj2 (proj2
           (C1_property_elements accept_netloc accept_netloc (answering queued))))));
    try reflexivity.
  repeat (constructor; [split; reflexivity|]). constructor.
Defined.



(** C3 on a refusal whose body is not JSON and on one whose body is. *)
Lemma C3_failure_report_witness :
  (400 <= status_code forbidden < 600)%Z
  /\ trace (main accept_netloc accept_netloc (answering forbidden) har_argv)
     = [Post "https://build.neohq.net/httpAuth/app/rest/buildQueue"
             (AStr "U", AStr "P") _headers har_document;
        Printed [PyStr "Could not start build:"];
        Printed [PyInt 403];
        Printed [PyStr "Forbidden"]]
  /\ exit_status (main accept_netloc accept_netloc (answering forbidden) har_argv) = 1%Z
  /\ trace (main accept_netloc accept_netloc (answering not_found) linux_argv)
     = [Post "https://build.neohq.net/httpAuth/app/rest/buildQueue"
             (AStr "U", AStr "P") _headers linux_document;
        Printed [PyStr "Could not start build:"];
        Printed [PyInt 404];
        Printed [PyDict [("error", PyStr "no such build type")]]].
Proof.
  assert (Hc : (400 <= status_code forbidden < 600)%Z) by (simpl; lia).
  assert (Hc' : (400 <= status_code not_found < 600)%Z) by (simpl; lia).
  split; [exact Hc|].
  destruct (C3_failure_report accept_netloc accept_netloc (answering forbidden)
              har_argv (AStr "U") (AStr "P") (AStr "https://build.neohq.net")
              har_document "https://build.neohq.net/httpAuth/app/rest/buildQueue"
              forbidden (har_argv_reaches_transport _) default_build_queue_url
              eq_refl Hc) as [Ht He].
  split; [exact Ht|]. split; [exact He|].
  exact (proj1 (C3_failure_report accept_netloc accept_netloc (answering not_found)
                  linux_argv (AStr "U") (AStr "P") (AStr "https://build.neohq.net")
                  linux_document "https://build.neohq.net/httpAuth/app/rest/buildQueue"
                  not_found (linux_argv_reaches_transport _) default_build_queue_url
                  eq_refl Hc')).
Defined.

(** C3, as stated, fails twice: a response with status 300 is not 2xx, yet
    the program reports success and exits with status 0; and after a 200
    whose body is not JSON neither the status code nor the text is
    printed. *)
Lemma C3_counterexample :
  ~ (200 <= status_code multiple_choices < 300)%Z
  /\ main accept_netloc accept_netloc (answering multiple_choices) har_argv
     = ([Post "https://build.neohq.net/httpAuth/app/rest/buildQueue"
              (AStr "U", AStr "P") _headers har_document;
         Printed [PyStr "Build started. View status at"];
         Printed [PyStr "https://x/y"]],
        Return tt)
  /\ exit_status (main accept_netloc accept_netloc (answering multiple_choices) har_argv)
     <> 1%Z
  /\ json garbled = None
  /\ main accept_netloc accept_netloc (answering garbled) har_argv
     = ([Post "https://build.neohq.net/httpAuth/app/rest/buildQueue"
              (AStr "U", AStr "P") _headers har_document;
         Printed [PyStr "Build started. View status at"]],
        Raise ValueError).
Proof.
  split; [simpl; lia|].
  split; [vm_compute; reflexivity|].
  split; [vm_compute; discriminate|].
  split; [reflexivity | vm_compute; reflexivity].
Qed.

(** C4 on the Linux command line and a queued build. *)
Lemma C4_success_witness :
  (200 <= status_code queued < 300)%Z
  /\ json queued = Some (PyDict [("webUrl", PyStr "https://x/y")])
  /\ trace (main accept_netloc accept_netloc (answering queued) linux_argv)
     = [Post "https://build.neohq.net/httpAuth/app/rest/buildQueue"
             (AStr "U", AStr "P") _headers linux_document;
        Printed [PyStr "Build started. View status at"];
        Printed [PyStr "https://x/y"]]
  /\ exit_status (main accept_netloc accept_netloc (answering queued) linux_argv) = 0%Z.
Proof.
  assert (Hc : (200 <= status_code queued < 300)%Z) by (simpl; lia).
  split; [exact Hc|]. split; [reflexivity|].
  exact (C4_success accept_netloc accept_netloc (answering queued)
           linux_argv (AStr "U") (AStr "P") (AStr "https://build.neohq.net")
           linux_document "https://build.neohq.net/httpAuth/app/rest/buildQueue"
           queued [("webUrl", PyStr "https://x/y")] "https://x/y"
           (linux_argv_reaches_transport _) default_build_queue_url
           eq_refl Hc eq_refl eq_refl).
Defined.

(** C5 on one run of each kind. *)
Lemma C5_exit_status_witness :
  exit_status (main accept_netloc accept_netloc (answering queued) linux_argv) = 0%Z
  /\ (is_flag "bogus" = false /\ hasattr_TC "bogus" = false
      /\ exit_status (main accept_netloc accept_netloc (answering queued)
                           ["bogus"; "-u"; "U"]) = 1%Z)
  /\ exit_status (main accept_netloc accept_netloc (answering forbidden) har_argv) = 1%Z
  /\ exit_status (main accept_netloc accept_netloc unreachable_server har_argv) = 1%Z
  /\ (parse_args command_parser [] = ArgError
      /\ exit_status (main accept_netloc accept_netloc (answering queued) []) = 2%Z)
  /\ (parse_args linux_parser ["-u"; "U"] = ArgError
      /\ exit_status (main accept_netloc accept_netloc (answering queued)
                           ["linux"; "-u"; "U"]) = 2%Z)
  /\ (parse_args har_parser ["-b"; "B"; "--jdk"; "openjdk-8"] = ArgError
      /\ exit_status (main accept_netloc accept_netloc (answering queued)
                           ["har"; "-b"; "B"; "--jdk"; "openjdk-8"]) = 2%Z).
Proof.
  assert (Hq : (200 <= status_code queued < 300)%Z) by (simpl; lia).
  assert (Hf : (400 <= status_code forbidden < 600)%Z) by (simpl; lia).
  assert (Hc : parse_args command_parser [] = ArgError) by (vm_compute; reflexivity).
  assert (Hl : parse_args linux_parser ["-u"; "U"] = ArgError) by (vm_compute; reflexivity).
  assert (Hh : parse_args har_parser ["-b"; "B"; "--jdk"; "openjdk-8"] = ArgError)
    by (vm_compute; reflexivity).
  split; [|split; [|split; [|split; [|split; [|split]]]]].
  - exact (proj1 (C5_exit_status accept_netloc accept_netloc (answering queued))
             linux_argv (AStr "U") (AStr "P") (AStr "https://build.neohq.net")
             linux_document "https://build.neohq.net/httpAuth/app/rest/buildQueue"
             queued [("webUrl", PyStr "https://x/y")]
             (linux_argv_reaches_transport _) default_build_queue_url eq_refl Hq eq_refl).
  - split; [reflexivity|]. split; [reflexivity|].
    exact (proj1 (proj2 (C5_exit_status accept_netloc accept_netloc (answering queued)))
             "bogus" ["-u"; "U"] eq_refl eq_refl).
  - exact (proj1 (proj2 (proj2
             (C5_exit_status accept_netloc accept_netloc (answering forbidden))))
             har_argv (AStr "U") (AStr "P") (AStr "https://build.neohq.net")
             har_document "https://build.neohq.net/httpAuth/app/rest/buildQueue"
             forbidden (har_argv_reaches_transport _) default_build_queue_url eq_refl Hf).
  - exact (proj1 (proj2 (proj2 (proj2
             (C5_exit_status accept_netloc accept_netloc unreachable_server))))
             har_argv (AStr "U") (AStr "P") (AStr "https://build.neohq.net")
             har_document "https://build.neohq.net/httpAuth/app/rest/buildQueue"
             (har_argv_reaches_transport _) default_build_queue_url eq_refl).
  - split; [exact Hc|].
    exact (proj1 (proj2 (proj2 (proj2 (proj2
             (C5_exit_status accept_netloc accept_netloc (answering queued))))))
             [] Hc).
  - split; [exact Hl|].
    exact (proj1 (proj2 (proj2 (proj2 (proj2 (proj2
             (C5_exit_status accept_netloc accept_netloc (answering queued)))))))
             ["-u"; "U"] Hl).
  - split; [exact Hh|].
    exact (proj2 (proj2 (proj2 (proj2 (proj2 (proj2
             (C5_exit_status accept_netloc accept_netloc (answering queued)))))))
             ["-b"; "B"; "--jdk"; "openjdk-8"] Hh).
Defined.

(** C5, as stated, fails when the command line does not parse: [linux]
    without its required flags ends with status 2, as does a command line
    without a command. *)
Lemma C5_counterexample :
  parse_args linux_parser [] = ArgError
  /\ main accept_netloc accept_netloc (answering queued) ["linux"]
     = ([PrintUsageError], Raise (SystemExit 2))
  /\ exit_status (main accept_netloc accept_netloc (answering queued) ["linux"]) <> 1%Z
  /\ exit_status (main accept_netloc accept_netloc (answering queued) []) <> 1%Z.
Proof.
  split; [vm_compute; reflexivity|].
  split; [vm_compute; reflexivity|].
  split; vm_compute; discriminate.
Qed.

(** C6 on the code: the command [__init__] is neither [linux] nor [har], yet
    it is not reported as unrecognized; the rest of the command line is
    dispatched again, and a build is requested.  The command [__doc__] ends
    the program with a [TypeError], without the message. *)
Theorem C6_dunder_command_dispatched :
  hasattr_TC "__init__" = true
  /\ main accept_netloc accept_netloc (answering queued) ("__init__" :: har_argv)
     = ([Post "https://build.neohq.net/httpAuth/app/rest/buildQueue"
              (AStr "U", AStr "P") _headers har_document;
         Printed [PyStr "Build started. View status at"];
         Printed [PyStr "https://x/y"]],
        Return tt)
  /\ posts (main accept_netloc accept_netloc (answering queued) ("__init__" :: har_argv))
     <> []
  /\ main accept_netloc accept_netloc (answering queued) ["__doc__"]
     = ([], Raise TypeError).
Proof.
  split; [reflexivity|].
  split; [vm_compute; reflexivity|].
  split; [vm_compute; discriminate | vm_compute; reflexivity].
Qed.



(** C10 on a queued build whose body has no [webUrl]. *)
Lemma C10_missing_web_url_witness :
  (200 <= status_code queued_without_url < 300)%Z
  /\ json queued_without_url = Some (PyDict [("id", PyInt 7)])
  /\ find (fun kv : string * pyobj => fst kv =? "webUrl") [("id", PyInt 7)] = None
  /\ trace (main accept_netloc accept_netloc (answering queued_without_url) har_argv)
     = [Post "https://build.neohq.net/httpAuth/app/rest/buildQueue"
             (AStr "U", AStr "P") _headers har_document;
        Printed [PyStr "Build started. View status at"];
        Printed [PyNone]]
  /\ exit_status (main accept_netloc accept_netloc (answering queued_without_url) har_argv)
     = 0%Z.
Proof.
  assert (Hc : (200 <= status_code queued_without_url < 300)%Z) by (simpl; lia).
  split; [exact Hc|]. split; [reflexivity|]. split; [reflexivity|].
  exact (C10_missing_web_url accept_netloc accept_netloc (answering queued_without_url)
           har_argv (AStr "U") (AStr "P") (AStr "https://build.neohq.net")
           har_document "https://build.neohq.net/httpAuth/app/rest/buildQueue"
           queued_without_url [("id", PyInt 7)]
           (har_argv_reaches_transport _) default_build_queue_url
           eq_refl Hc eq_refl eq_refl).
Defined.

(** C9: the builder copies a value into the document as it is.  With [<],
    [&] or a double quote in the branch, or in a property value, the
    document it renders is not well-formed XML, while the documents of the
    plain command lines are. *)
Theorem C9_unescaped_values :
  Forall (fun value : string =>
            let document :=
              build_document (AStr _har_id) (ABool false) (AStr value)
                             [("remote", AStr "origin"); ("branch", AStr value)] in
            request_xml (AStr _har_id) (ABool false) (AStr value) (AStr "origin") ANone
            = Return document
            /\ (exists n : nat,
                   index 0 ("branchName=" ++ quoted value) document = Some n)
            /\ xml_check document = NotWellFormed)
         ["pr/1234<foo"; "pr/1234&foo"; "pr/1234" ++ dq ++ "foo"]
  /\ Forall (fun value : string =>
               let document :=
                 build_document (AStr _neo4jlinux_id) (ABool false) (AStr "B")
                   [("remote", AStr "origin"); ("branch", AStr "B");
                    ("project-default-jdk", AStr "%openjdk-8%");
                    ("maven-goals", AStr value); ("maven-args", AStr "-DrunITs")] in
               (xml <- dict_as_properties
                         (dict_display [("project-default-jdk", AStr "%openjdk-8%");
                                        ("maven-goals", AStr value);
                                        ("maven-args", AStr "-DrunITs")]) ;;
                request_xml (AStr _neo4jlinux_id) (ABool false) (AStr "B")
                            (AStr "origin") (AStr xml))%result
               = Return document
               /\ (exists n : nat,
                      index 0 ("value=" ++ quoted value) document = Some n)
               /\ xml_check document = NotWellFormed)
            ["clean<verify"; "clean&verify"; "clean" ++ dq ++ "verify"]
  /\ xml_check har_document = WellFormed
  /\ xml_check linux_document = WellFormed.
Proof.
  split; [|split; [|split]].
  - repeat constructor; try (vm_compute; reflexivity);
      eexists; vm_compute; reflexivity.
  - repeat constructor; try (vm_compute; reflexivity);
      eexists; vm_compute; reflexivity.
  - vm_compute. reflexivity.
  - vm_compute. reflexivity.
Qed.

(** * The further properties on concrete runs *)

(** X2 on the HA command line. *)
Lemma X2_single_request_witness :
  In (Post "https://build.neohq.net/httpAuth/app/rest/buildQueue"
           (AStr "U", AStr "P") _headers har_document)
     (posts (main accept_netloc accept_netloc (answering queued) har_argv))
  /\ exists printed : list event,
      trace (main accept_netloc accept_netloc (answering queued) har_argv)
      = Post "https://build.neohq.net/httpAuth/app/rest/buildQueue"
             (AStr "U", AStr "P") _headers har_document :: printed
      /\ filter is_post printed = [].
Proof.
  assert (Hin : In (Post "https://build.neohq.net/httpAuth/app/rest/buildQueue"
                         (AStr "U", AStr "P") _headers har_document)
                   (posts (main accept_netloc accept_netloc (answering queued) har_argv)))
    by (vm_compute; left; reflexivity).
  split; [exact Hin|].
  exact (proj2 (X2_single_request accept_netloc accept_netloc (answering queued) har_argv)
               _ Hin).
Defined.


(** X4 on a server that answers. *)
Lemma X4_exit_status_range_witness :
  transport_never_exits (answering forbidden)
  /\ (exit_status (main accept_netloc accept_netloc (answering forbidden) har_argv) = 0%Z
      \/ exit_status (main accept_netloc accept_netloc (answering forbidden) har_argv) = 1%Z
      \/ exit_status (main accept_netloc accept_netloc (answering forbidden) har_argv) = 2%Z).
Proof.
  assert (H : transport_never_exits (answering forbidden))
    by (unfold transport_never_exits, answering; intros; discriminate).
  split; [exact H|].
  exact (X4_exit_status_range accept_netloc accept_netloc (answering forbidden) H har_argv).
Defined.

(** X5 on a response with status 300. *)
Lemma X5_success_outside_failure_codes_witness :
  (status_code multiple_choices < 400 \/ 600 <= status_code multiple_choices)%Z
  /\ send_request accept_netloc accept_netloc (answering multiple_choices)
       (AStr "U") (AStr "P") (AStr "https://build.neohq.net") har_document
     = ([Post "https://build.neohq.net/httpAuth/app/rest/buildQueue"
              (AStr "U", AStr "P") _headers har_document;
         Printed [PyStr "Build started. View status at"];
         Printed [PyStr "https://x/y"]],
        Return tt).
Proof.
  assert (Hc : (status_code multiple_choices < 400 \/ 600 <= status_code multiple_choices)%Z)
    by (left; simpl; lia).
  split; [exact Hc|].
  exact (X5_success_outside_failure_codes accept_netloc accept_netloc
           (answering multiple_choices) (AStr "U") (AStr "P")
           (AStr "https://build.neohq.net") har_document
           "https://build.neohq.net/httpAuth/app/rest/buildQueue" multiple_choices
           [("webUrl", PyStr "https://x/y")]
           default_build_queue_url eq_refl Hc eq_refl).
Defined.

(** X6 on a 200 whose body is not JSON. *)
Lemma X6_success_with_unusable_body_witness :
  (status_code garbled < 400 \/ 600 <= status_code garbled)%Z
  /\ (forall d : list (string * pyobj), json garbled <> Some (PyDict d))
  /\ send_request accept_netloc accept_netloc (answering garbled)
       (AStr "U") (AStr "P") (AStr "https://build.neohq.net") har_document
     = ([Post "https://build.neohq.net/httpAuth/app/rest/buildQueue"
              (AStr "U", AStr "P") _headers har_document;
         Printed [PyStr "Build started. View status at"]],
        Raise ValueError)
  /\ exit_status (send_request accept_netloc accept_netloc (answering garbled)
                    (AStr "U") (AStr "P") (AStr "https://build.neohq.net") har_document)
     = 1%Z.
Proof.
  assert (Hc : (status_code garbled < 400 \/ 600 <= status_code garbled)%Z)
    by (left; simpl; lia).
  assert (Hj : forall d : list (string * pyobj), json garbled <> Some (PyDict d))
    by (intros d; simpl; discriminate).
  split; [exact Hc|]. split; [exact Hj|].
  exact (X6_success_with_unusable_body accept_netloc accept_netloc (answering garbled)
           (AStr "U") (AStr "P") (AStr "https://build.neohq.net") har_document
           "https://build.neohq.net/httpAuth/app/rest/buildQueue" garbled
           default_build_queue_url eq_refl Hc Hj).
Defined.

(** X7 on a transport that fails and on a server string that [urlsplit]
    refuses. *)
Lemma X7_exceptions_propagate_witness :
  (posts (main accept_netloc accept_netloc unreachable_server har_argv) = []
   \/ exists (target : string) (auth : argval * argval) (data : string),
        main accept_netloc accept_netloc unreachable_server har_argv
        = ([Post target auth _headers data], Raise RequestException))
  /\ ((exists target : string,
          build_queue_url accept_netloc accept_netloc (AStr "http://[") = Return target)
      \/ main accept_netloc accept_netloc (answering queued)
               (har_argv ++ ["--teamcity"; "http://["])%list
         = ([], Raise ValueError)).
Proof.
  split.
  - apply (proj1 (X7_exceptions_propagate accept_netloc accept_netloc unreachable_server
                    har_argv) RequestException).
    intros target auth headers data. reflexivity.
  - apply (proj2 (X7_exceptions_propagate accept_netloc accept_netloc (answering queued)
                    (har_argv ++ ["--teamcity"; "http://["])%list)
                 "U" "P" "http://[" har_document).
    vm_compute. reflexivity.
Defined.

(** X8 on [--jdk] given to the HA build. *)
Lemma X8_har_has_no_linux_options_witness :
  stopped_by_parser
    (main accept_netloc accept_netloc (answering queued)
          ["har"; "-u"; "U"; "-p"; "P"; "-b"; "B"; "--jdk"; "openjdk-8"])
  /\ posts (main accept_netloc accept_netloc (answering queued)
                 ["har"; "-u"; "U"; "-p"; "P"; "-b"; "B"; "--jdk"; "openjdk-8"])
     = [].
Proof.
  apply (X8_har_has_no_linux_options accept_netloc accept_netloc (answering queued)
           ["-u"; "U"; "-p"; "P"; "-b"; "B"; "--jdk"; "openjdk-8"] "--jdk");
    simpl; tauto.
Defined.

(** X9 on both flags after the required options. *)
Lemma X9_personal_flags_exclusive_witness :
  (stopped_by_parser
     (main accept_netloc accept_netloc (answering queued)
           ["linux"; "-u"; "U"; "-p"; "P"; "-b"; "B"; "--no-personal"; "--personal"])
   /\ posts (main accept_netloc accept_netloc (answering queued)
                  ["linux"; "-u"; "U"; "-p"; "P"; "-b"; "B"; "--no-personal"; "--personal"])
      = [])
  /\ (stopped_by_parser
        (main accept_netloc accept_netloc (answering queued)
              ["har"; "-u"; "U"; "-p"; "P"; "-b"; "B"; "--no-personal"; "--personal"])
      /\ posts (main accept_netloc accept_netloc (answering queued)
                     ["har"; "-u"; "U"; "-p"; "P"; "-b"; "B"; "--no-personal"; "--personal"])
         = []).
Proof.
  apply (X9_personal_flags_exclusive accept_netloc accept_netloc (answering queued)
           ["-u"; "U"; "-p"; "P"; "-b"; "B"; "--no-personal"; "--personal"]);
    simpl; tauto.
Defined.



(** X12 on the command line of the HA build. *)
Lemma X12_har_defaults_witness :
  main accept_netloc accept_netloc (answering queued)
       ["har"; "-u"; "U"; "-p"; "P"; "-b"; "B"]
  = send_request accept_netloc accept_netloc (answering queued)
      (AStr "U") (AStr "P") (AStr "https://build.neohq.net")
      (build_document (AStr "JonasHaRequests_HarBranchArtifacts") (ABool false) (AStr "B")
         [("remote", AStr "origin"); ("branch", AStr "B")]).
Proof.
  exact (X12_har_defaults accept_netloc accept_netloc (answering queued) "U" "P" "B"
           eq_refl eq_refl eq_refl).
Defined.

(** X13 on the shortest command line of the Linux build. *)
Lemma X13_linux_defaults_witness :
  main accept_netloc accept_netloc (answering queued)
       ["linux"; "-u"; "U"; "-p"; "P"; "-b"; "pr/1234"]
  = send_request accept_netloc accept_netloc (answering queued)
      (AStr "U") (AStr "P") (AStr "https://build.neohq.net")
      (build_document (AStr "JonasHaRequests_Neo4jCustom") (ABool false) (AStr "pr/1234")
         [("remote", AStr "origin"); ("branch", AStr "pr/1234");
          ("project-default-jdk", AStr "%openjdk-8%");
          ("maven-goals", AStr "clean verify");
          ("maven-args",
           AStr "-DfailIfNoTests=false -Dmaven.test.failure.ignore=true --show-version -DrunITs -DskipBrowser")]).
Proof.
  exact (X13_linux_defaults accept_netloc accept_netloc (answering queued)
           "U" "P" "pr/1234" eq_refl eq_refl eq_refl).
Defined.



(** X16 on a branch with a [<] after a reference. *)
Lemma X16_lt_in_branch_witness :
  contains_char "<" "a&amp;b<c" = true
  /\ (exists document : string,
         request_xml (AStr _har_id) (ABool false) (AStr "a&amp;b<c") (AStr "origin") ANone
         = Return document
         /\ xml_check document = NotWellFormed).
Proof.
  split; [reflexivity|].
  exact (proj2 (X16_lt_in_branch
                  (AStr _har_id) (AStr "origin") false "a&amp;b<c" [] eq_refl eq_refl)).
Defined.

(** X18 on a server under [/teamcity], with and without the slash at the
    end. *)
Lemma X18_server_with_path_witness :
  build_queue_url accept_netloc accept_netloc
    (AStr ("https" ++ "://" ++ "host" ++ "/" ++ join "/" (["teamcity"] ++ [""])))
  = Return ("https" ++ "://" ++ "host" ++ "/"
              ++ join "/" (["teamcity"] ++ ["httpAuth"; "app"; "rest"; "buildQueue"]))
  /\ build_queue_url accept_netloc accept_netloc
       (AStr ("https" ++ "://" ++ "host" ++ "/" ++ join "/" ([] ++ ["teamcity"])))
     = Return ("https" ++ "://" ++ "host" ++ "/"
                 ++ join "/" ([] ++ ["httpAuth"; "app"; "rest"; "buildQueue"])).
Proof.
  split.
  - apply (X18_server_with_path accept_netloc accept_netloc
             "https" "host" ["teamcity"] "");
      [right; reflexivity | reflexivity | reflexivity | reflexivity].
  - apply (X18_server_with_path accept_netloc accept_netloc
             "https" "host" [] "teamcity");
      [right; reflexivity | reflexivity | reflexivity | reflexivity].
Defined.

(** X19 on the HA build behind [__init__]. *)
Lemma X19_builds_only_by_command_witness :
  posts (main accept_netloc accept_netloc (answering queued) ("__init__" :: har_argv))
  <> []
  /\ exists (again : list string) (command : string) (subargs : list string),
      "__init__" :: har_argv = (again ++ command :: subargs)%list
      /\ Forall (fun s => s = "__init__" \/ s = "__class__") again
      /\ (command = "linux" \/ command = "har").
Proof.
  assert (H : posts (main accept_netloc accept_netloc (answering queued)
                          ("__init__" :: har_argv)) <> [])
    by (vm_compute; discriminate).
  split; [exact H|].
  exact (X19_builds_only_by_command accept_netloc accept_netloc (answering queued)
           ("__init__" :: har_argv) H).
Defined.

(** X20 on a command line without the branch. *)
Lemma X20_required_options_witness :
  forallb (fun s => negb (mentions "b" s)) ["-u"; "U"; "-p"; "P"; "--personal"] = true
  /\ (stopped_by_parser
        (main accept_netloc accept_netloc (answering queued)
              ["linux"; "-u"; "U"; "-p"; "P"; "--personal"])
      /\ posts (main accept_netloc accept_netloc (answering queued)
                     ["linux"; "-u"; "U"; "-p"; "P"; "--personal"])
         = [])
  /\ (stopped_by_parser
        (main accept_netloc accept_netloc (answering queued)
              ["har"; "-u"; "U"; "-p"; "P"; "--personal"])
      /\ posts (main accept_netloc accept_netloc (answering queued)
                     ["har"; "-u"; "U"; "-p"; "P"; "--personal"])
         = []).
Proof.
  split; [reflexivity|].
  apply (X20_required_options accept_netloc accept_netloc (answering queued)
           ["-u"; "U"; "-p"; "P"; "--personal"] "b"%char);
    [simpl; tauto | reflexivity].
Defined.


(** X22 on [-h] after the required options. *)
Lemma X22_help_requests_nothing_witness :
  (stopped_by_parser
     (main accept_netloc accept_netloc (answering queued)
           ["linux"; "-u"; "U"; "-p"; "P"; "-b"; "B"; "-h"])
   /\ posts (main accept_netloc accept_netloc (answering queued)
                  ["linux"; "-u"; "U"; "-p"; "P"; "-b"; "B"; "-h"])
      = [])
  /\ (stopped_by_parser
        (main accept_netloc accept_netloc (answering queued)
              ["har"; "-u"; "U"; "-p"; "P"; "-b"; "B"; "-h"])
      /\ posts (main accept_netloc accept_netloc (answering queued)
                     ["har"; "-u"; "U"; "-p"; "P"; "-b"; "B"; "-h"])
         = []).
Proof.
  apply (X22_help_requests_nothing accept_netloc accept_netloc (answering queued)
           ["-u"; "U"; "-p"; "P"; "-b"; "B"; "-h"] "-h");
    [left; reflexivity | simpl; tauto].
Defined.

